(** * VPA operator: reconciler and admission webhooks

    A shallow embedding of the Go sources of the operator
    (internal/controller, internal/webhook, internal/workload,
    internal/metrics, api/v1) together with the properties stated about
    them.  Go functions that talk to the cluster are functions in a state
    monad over a [World]: the objects held by the API server, the list of
    API calls issued so far, a fault schedule for those calls, and the
    metric and log events emitted by the process. *)

From Stdlib Require Import ZArith Lia.
From stdpp Require Import base strings list gmap fin_maps option.

Set Warnings "-register-all".
Local Open Scope string_scope.

(** ** Errors (k8s.io/apimachinery/pkg/api/errors) *)

Inductive StatusReason : Type :=
  | ReasonNotFound
  | ReasonAlreadyExists
  | ReasonConflict
  | ReasonInvalid
  | ReasonForbidden
  | ReasonTimeout
  | ReasonInternalError
  | ReasonUnknown.

(** A Go [error]: the status reason looked at by [errors.IsNotFound] and the
    text returned by [Error()]. *)
Record error : Type := mkError {
  errReason : StatusReason;
  errMessage : string
}.

(** [errors.IsNotFound(err)]; a nil error is not a not-found error. *)
Definition IsNotFound (err : option error) : bool :=
  match err with
  | Some e => match errReason e with ReasonNotFound => true | _ => false end
  | None => false
  end.

(** The quote character of Go's [%q]. *)
Definition dquote : string := String (Ascii.ascii_of_nat 34) EmptyString.

Definition NewNotFound (resource name : string) : error :=
  mkError ReasonNotFound (resource ++ " " ++ dquote ++ name ++ dquote ++ " not found").

Definition NewAlreadyExists (resource name : string) : error :=
  mkError ReasonAlreadyExists (resource ++ " " ++ dquote ++ name ++ dquote ++ " already exists").

(** [fmt.Errorf(prefix + ": %w", err)]: the text is prefixed, the wrapped
    error (and so its reason) stays reachable. *)
Definition Errorf (prefix : string) (e : error) : error :=
  mkError (errReason e) (prefix ++ ": " ++ errMessage e).

(** ** Metrics (internal/metrics/metrics.go) *)

Definition ErrorTypeAPIServer : string := "api_server".
Definition ErrorTypeValidation : string := "validation".
Definition ErrorTypeNotFound : string := "not_found".
Definition ErrorTypeConflict : string := "conflict".
Definition ErrorTypeUnknown : string := "unknown".
Definition ResultSuccess : string := "success".
Definition ResultError : string := "error".

(** One observable update of a metric vector.  Durations are wall-clock
    values and are not part of the event. *)
Inductive MetricEvent : Type :=
  | ReconcileTotalInc (vpamanager result errorType : string)
  | ReconcileDurationObserve (vpamanager result : string)
  | ManagedVPAsSet (vpamanager : string) (n : Z)
  | WatchedDeploymentsSet (vpamanager : string) (n : Z)
  | WebhookRequestsTotalInc (operation result errorType : string)
  | WebhookDurationObserve (operation result : string)
  | VPAOperationsTotalInc (operation vpamanager : string).

(** [s[i:i+len(sub)] == sub] for some [0 <= i <= len(s) - len(sub)]. *)
Definition containsAt (s sub : string) (i : nat) : bool :=
  String.eqb (String.substring i (String.length sub) s) sub.

Definition containsAny (s : string) (substrings : list string) : bool :=
  existsb
    (fun sub =>
       (0 <? String.length sub)%nat && (String.length sub <=? String.length s)%nat &&
       existsb (containsAt s sub) (seq 0 (String.length s - String.length sub + 1)))
    substrings.

Definition ClassifyError (err : option error) : string :=
  match err with
  | None => EmptyString
  | Some e =>
      let errStr := errMessage e in
      if containsAny errStr ["not found"; "NotFound"] then ErrorTypeNotFound
      else if containsAny errStr ["conflict"; "Conflict"; "already exists"] then ErrorTypeConflict
      else if containsAny errStr ["validation"; "invalid"; "Invalid"] then ErrorTypeValidation
      else if containsAny errStr ["connection refused"; "timeout"; "context deadline"] then ErrorTypeAPIServer
      else ErrorTypeUnknown
  end.

Definition classifyResult (err : option error) : string * string :=
  match err with
  | None => (ResultSuccess, EmptyString)
  | Some _ => (ResultError, ClassifyError err)
  end.

(** ** Label selectors (k8s.io/apimachinery, outside this repository)

    The operator only calls [metav1.LabelSelectorAsSelector] and
    [Selector.Matches].  They are modelled after the library: a nil selector
    selects nothing, an empty one everything, [matchLabels] entries are
    equality requirements and [matchExpressions] carry one of the four
    operators.  The syntactic validation of keys and values is left out. *)

Record LabelSelectorRequirement : Type := {
  lsrKey : string;
  lsrOperator : string;
  lsrValues : list string
}.

Record LabelSelector : Type := {
  MatchLabels : gmap string string;
  MatchExpressions : list LabelSelectorRequirement
}.

Inductive Operator : Type := OpIn | OpNotIn | OpExists | OpDoesNotExist.

Record Requirement : Type := {
  rKey : string;
  rOperator : Operator;
  rValues : list string
}.

Inductive Selector : Type :=
  | SelNothing
  | SelRequirements (rs : list Requirement).

Definition Everything : Selector := SelRequirements [].

Definition NewRequirement (key : string) (op : Operator) (vals : list string)
  : error + Requirement :=
  match op, vals with
  | (OpIn | OpNotIn), [] =>
      inl (mkError ReasonUnknown "values: Invalid value: for 'in', 'notin' operators, values set can't be empty")
  | (OpExists | OpDoesNotExist), _ :: _ =>
      inl (mkError ReasonUnknown "values: Invalid value: values set must be empty for exists and does not exist")
  | _, _ => inr {| rKey := key; rOperator := op; rValues := vals |}
  end.

Definition operatorOf (o : string) : option Operator :=
  if String.eqb o "In" then Some OpIn
  else if String.eqb o "NotIn" then Some OpNotIn
  else if String.eqb o "Exists" then Some OpExists
  else if String.eqb o "DoesNotExist" then Some OpDoesNotExist
  else None.

Fixpoint expressionRequirements (es : list LabelSelectorRequirement)
  : error + list Requirement :=
  match es with
  | [] => inr []
  | e :: rest =>
      match operatorOf (lsrOperator e) with
      | None => inl (mkError ReasonUnknown
                       (dquote ++ lsrOperator e ++ dquote ++ " is not a valid label selector operator"))
      | Some op =>
          match NewRequirement (lsrKey e) op (lsrValues e) with
          | inl err => inl err
          | inr r =>
              match expressionRequirements rest with
              | inl err => inl err
              | inr rs => inr (r :: rs)
              end
          end
      end
  end.

Definition labelRequirements (ml : gmap string string) : list Requirement :=
  (fun kv => {| rKey := kv.1; rOperator := OpIn; rValues := [kv.2] |}) <$> map_to_list ml.

Definition LabelSelectorAsSelector (ps : option LabelSelector) : error + Selector :=
  match ps with
  | None => inr SelNothing
  | Some s =>
      if ((size (MatchLabels s) + length (MatchExpressions s))%nat =? 0)%nat then inr Everything
      else
        match expressionRequirements (MatchExpressions s) with
        | inl err => inl err
        | inr rs => inr (SelRequirements (labelRequirements (MatchLabels s) ++ rs))
        end
  end.

Definition inValues (v : string) (vals : list string) : bool :=
  existsb (String.eqb v) vals.

Definition requirementMatches (ls : gmap string string) (r : Requirement) : bool :=
  match rOperator r, ls !! rKey r with
  | OpIn, Some v => inValues v (rValues r)
  | OpIn, None => false
  | OpNotIn, Some v => negb (inValues v (rValues r))
  | OpNotIn, None => true
  | OpExists, Some _ => true
  | OpExists, None => false
  | OpDoesNotExist, Some _ => false
  | OpDoesNotExist, None => true
  end.

Definition Matches (sel : Selector) (ls : gmap string string) : bool :=
  match sel with
  | SelNothing => false
  | SelRequirements rs => forallb (requirementMatches ls) rs
  end.

(** ** API types (api/v1/vpamanager_types.go) *)

Record ContainerResourcePolicy : Type := {
  ContainerName : string;
  MinAllowed : option (gmap string string);
  MaxAllowed : option (gmap string string)
}.

Record ResourcePolicyT : Type := {
  ContainerPolicies : list ContainerResourcePolicy
}.

Record VpaManagerSpec : Type := {
  Enabled : bool;
  UpdateMode : string;
  NamespaceSelector : option LabelSelector;
  DeploymentSelector : option LabelSelector;
  StatefulSetSelector : option LabelSelector;
  DaemonSetSelector : option LabelSelector;
  ResourcePolicy : option ResourcePolicyT
}.

Record WorkloadReference : Type := {
  wrKind : string;
  wrName : string;
  wrNamespace : string;
  wrUID : string;
  wrVpaName : string
}.

Record VpaManagerStatus : Type := {
  ManagedVPAs : Z;
  ManagedDeployments : list WorkloadReference;
  ManagedWorkloads : list WorkloadReference;
  DeploymentCount : Z;
  StatefulSetCount : Z;
  DaemonSetCount : Z;
  LastReconcileTime : option Z
}.

Record VpaManager : Type := {
  vmName : string;
  Spec : VpaManagerSpec;
  Status : VpaManagerStatus
}.

(** ** Unstructured objects

    [unstructured.Unstructured] is a tree of [map[string]interface{}].  The
    code reaches the metadata only through the typed accessors
    ([SetName], [GetNamespace], [SetLabels], ...), which are record fields
    here; every other top-level key (["spec"], ["status"], ...) lives in
    [uObject]. *)

Inductive value : Type :=
  | VNil
  | VString (s : string)
  | VList (l : list value)
  | VMap (m : gmap string value).

Record GroupVersionKind : Type := {
  gvkGroup : string;
  gvkVersion : string;
  gvkKind : string
}.

Definition vpaGVK : GroupVersionKind :=
  {| gvkGroup := "autoscaling.k8s.io"; gvkVersion := "v1"; gvkKind := "VerticalPodAutoscaler" |}.

Record OwnerReference : Type := {
  orAPIVersion : string;
  orKind : string;
  orName : string;
  orUID : string;
  orController : option bool;
  orBlockOwnerDeletion : option bool
}.

Record Unstructured : Type := {
  uGVK : GroupVersionKind;
  uName : string;
  uNamespace : string;
  uLabels : gmap string string;
  uOwnerReferences : list OwnerReference;
  uObject : gmap string value
}.

Definition managedByLabel : string := "app.kubernetes.io/managed-by".
Definition createdByLabel : string := "app.kubernetes.io/created-by".

(** [fmt.Sprintf("%s-vpa", name)], the expression every caller of a builder
    uses for the VPA name. *)
Definition vpaNameOf (name : string) : string := name ++ "-vpa".

(** ** VPA builders *)

(** The body of [for _, cp := range ...ContainerPolicies]: the entry for one
    container policy.  The loops that copy [MinAllowed] and [MaxAllowed]
    key by key into a fresh map are the pointwise image of the map. *)
Definition containerPolicyEntry (cp : ContainerResourcePolicy) : gmap string value :=
  let policy : gmap string value := {[ "containerName" := VString (ContainerName cp) ]} in
  let policy :=
    match MinAllowed cp with
    | Some m => <[ "minAllowed" := VMap (VString <$> m) ]> policy
    | None => policy
    end in
  match MaxAllowed cp with
  | Some m => <[ "maxAllowed" := VMap (VString <$> m) ]> policy
  | None => policy
  end.

(** "Add resource policy if specified": the same block closes the three
    builders. *)
Definition addResourcePolicy (vpaManager : VpaManager) (spec : gmap string value)
  : gmap string value :=
  match ResourcePolicy (Spec vpaManager) with
  | Some rp =>
      if (0 <? length (ContainerPolicies rp))%nat then
        let containerPolicies := (fun cp => VMap (containerPolicyEntry cp)) <$> ContainerPolicies rp in
        <[ "resourcePolicy" := VMap {[ "containerPolicies" := VList containerPolicies ]} ]> spec
      else spec
  | None => spec
  end.

Definition baseSpec (vpaManager : VpaManager) (kind name : string) : gmap string value :=
  {[ "targetRef" := VMap {[ "apiVersion" := VString "apps/v1";
                            "kind" := VString kind;
                            "name" := VString name ]};
     "updatePolicy" := VMap {[ "updateMode" := VString (UpdateMode (Spec vpaManager)) ]} ]}.

(** [VpaManagerReconciler.buildVPAForWorkload] *)
Definition buildVPAForWorkload (vpaManager : VpaManager)
    (kind name namespace uid vpaName : string) : Unstructured :=
  let spec := addResourcePolicy vpaManager (baseSpec vpaManager kind name) in
  {| uGVK := vpaGVK;
     uName := vpaName;
     uNamespace := namespace;
     uLabels := {[ managedByLabel := "vpa-operator"; createdByLabel := vmName vpaManager ]};
     uOwnerReferences :=
       [ {| orAPIVersion := "apps/v1"; orKind := kind; orName := name; orUID := uid;
            orController := Some true; orBlockOwnerDeletion := Some true |} ];
     uObject := {[ "spec" := VMap spec ]} |}.

(** The two admission handlers.  Their sources are line for line the same
    up to the workload kind and the selector helper they call, so the
    embedding takes the handler as a parameter. *)
Inductive Handler : Type := DeploymentWebhookHandler | StatefulSetWebhookHandler.

Definition handlerKind (h : Handler) : string :=
  match h with
  | DeploymentWebhookHandler => "Deployment"
  | StatefulSetWebhookHandler => "StatefulSet"
  end.

(** The decoded [appsv1.Deployment] or [appsv1.StatefulSet]: the fields of
    its [ObjectMeta] that the handlers read. *)
Record WorkloadObject : Type := {
  oName : string;
  oNamespace : string;
  oUID : string;
  oLabels : gmap string string
}.

(** [DeploymentWebhookHandler.buildVPA] and [StatefulSetWebhookHandler.buildVPA] *)
Definition buildVPA (h : Handler) (vpaManager : VpaManager) (obj : WorkloadObject)
    (vpaName : string) : Unstructured :=
  let spec := addResourcePolicy vpaManager (baseSpec vpaManager (handlerKind h) (oName obj)) in
  {| uGVK := vpaGVK;
     uName := vpaName;
     uNamespace := oNamespace obj;
     uLabels := {[ managedByLabel := "vpa-operator"; createdByLabel := vmName vpaManager ]};
     uOwnerReferences :=
       [ {| orAPIVersion := "apps/v1"; orKind := handlerKind h; orName := oName obj;
            orUID := oUID obj; orController := None; orBlockOwnerDeletion := None |} ];
     uObject := {[ "spec" := VMap spec ]} |}.

(** Readers of the untyped tree, as the tests use them
    ([vpa.Object["spec"].(map[string]interface{})["targetRef"]...]). *)
Definition specOf (v : Unstructured) : option (gmap string value) :=
  match uObject v !! "spec" with
  | Some (VMap m) => Some m
  | _ => None
  end.

Definition field (k : string) (m : gmap string value) : option value := m !! k.

Definition nestedField (k1 k2 : string) (m : gmap string value) : option value :=
  match m !! k1 with
  | Some (VMap m') => m' !! k2
  | _ => None
  end.

(** ** The cluster and the process around it *)

Record Namespace : Type := {
  nsName : string;
  nsLabels : gmap string string
}.

(** What the [workload.Workload] interface exposes of a Deployment,
    StatefulSet or DaemonSet. *)
Record Workload : Type := {
  wKind : string;
  wName : string;
  wNamespace : string;
  wUID : string;
  wLabels : gmap string string
}.

(** The requests the code sends through [client.Client]. *)
Inductive APICall : Type :=
  | GetVpaManagerCall (name : string)
  | ListVpaManagersCall
  | PatchStatusCall (name : string)
  | GetNamespaceCall (name : string)
  | ListNamespacesCall
  | ListWorkloadsCall (kind namespace : string) (page : nat)
  | GetVPACall (namespace name : string)
  | CreateVPACall (vpa : Unstructured)
  | UpdateVPACall (vpa : Unstructured)
  | DeleteVPACall (namespace name : string)
  | ListVPAsCall (createdBy : string).

Inductive LogEntry : Type :=
  | LogInfo (msg : string)
  | LogError (err : error) (msg : string).

(** The API server holds the objects; VPAs are keyed by (namespace, name).
    [faults n] is the transport or server error, if any, answered to the
    [n]-th request of the run; [calls] is the history of requests, so the
    next request has index [length calls]. *)
Record World : Type := mkWorld {
  vpaManagers : list VpaManager;
  namespaces : list Namespace;
  workloads : list Workload;
  vpas : gmap (string * string) Unstructured;
  faults : nat -> option error;
  calls : list APICall;
  metrics : list MetricEvent;
  logs : list LogEntry
}.

Definition setVpaManagers (x : list VpaManager) (w : World) : World :=
  mkWorld x (namespaces w) (workloads w) (vpas w) (faults w) (calls w) (metrics w) (logs w).
Definition setVpas (x : gmap (string * string) Unstructured) (w : World) : World :=
  mkWorld (vpaManagers w) (namespaces w) (workloads w) x (faults w) (calls w) (metrics w) (logs w).
Definition setCalls (x : list APICall) (w : World) : World :=
  mkWorld (vpaManagers w) (namespaces w) (workloads w) (vpas w) (faults w) x (metrics w) (logs w).
Definition setMetrics (x : list MetricEvent) (w : World) : World :=
  mkWorld (vpaManagers w) (namespaces w) (workloads w) (vpas w) (faults w) (calls w) x (logs w).
Definition setLogs (x : list LogEntry) (w : World) : World :=
  mkWorld (vpaManagers w) (namespaces w) (workloads w) (vpas w) (faults w) (calls w) (metrics w) x.

(** State monad over the world; Go's [(T, error)] results are pairs or sums
    inside it. *)
Definition M (A : Type) : Type := World -> A * World.

Definition ret {A : Type} (a : A) : M A := fun w => (a, w).

Definition bind {A B : Type} (m : M A) (k : A -> M B) : M B :=
  fun w => let (a, w') := m w in k a w'.

Notation "'do' x <- m ; k" := (bind m (fun x => k))
  (at level 10, x pattern, m at level 100, k at level 200).
Notation "m ;; k" := (bind m (fun _ => k))
  (at level 100, k at level 200, right associativity).

Definition emit (e : MetricEvent) : M unit :=
  fun w => (tt, setMetrics (metrics w ++ [e]) w).

Definition logInfo (msg : string) : M unit :=
  fun w => (tt, setLogs (logs w ++ [LogInfo msg]) w).

Definition logError (err : error) (msg : string) : M unit :=
  fun w => (tt, setLogs (logs w ++ [LogError err msg]) w).

(** Sending a request: it is appended to the history and the fault scheduled
    for its index, if any, is its answer. *)
Definition request (c : APICall) : M (option error) :=
  fun w => (faults w (length (calls w)), setCalls (calls w ++ [c]) w).

(** *** Metrics recorder *)

Definition RecordReconcile (vpaManagerName : string) (err : option error) : M unit :=
  let '(result, errorType) := classifyResult err in
  emit (ReconcileTotalInc vpaManagerName result errorType) ;;
  emit (ReconcileDurationObserve vpaManagerName result).

Definition RecordWebhookRequest (operation : string) (err : option error) : M unit :=
  let '(result, errorType) := classifyResult err in
  emit (WebhookRequestsTotalInc operation result errorType) ;;
  emit (WebhookDurationObserve operation result).

Definition UpdateManagedResources (vpaManagerName : string) (vpas deployments : Z) : M unit :=
  emit (ManagedVPAsSet vpaManagerName vpas) ;;
  emit (WatchedDeploymentsSet vpaManagerName deployments).

Definition RecordVPAOperation (operation vpaManagerName : string) : M unit :=
  emit (VPAOperationsTotalInc operation vpaManagerName).

(** *** The client *)

Definition findVpaManager (name : string) (ms : list VpaManager) : option VpaManager :=
  List.find (fun m => String.eqb (vmName m) name) ms.

Definition findNamespace (name : string) (nss : list Namespace) : option Namespace :=
  List.find (fun n => String.eqb (nsName n) name) nss.

Definition clientGetVpaManager (name : string) : M (error + VpaManager) :=
  do fault <- request (GetVpaManagerCall name);
  fun w =>
    match fault with
    | Some e => (inl e, w)
    | None =>
        match findVpaManager name (vpaManagers w) with
        | Some m => (inr m, w)
        | None => (inl (NewNotFound "vpamanagers.operators.joaomo.io" name), w)
        end
    end.

Definition clientListVpaManagers : M (error + list VpaManager) :=
  do fault <- request ListVpaManagersCall;
  fun w =>
    match fault with
    | Some e => (inl e, w)
    | None => (inr (vpaManagers w), w)
    end.

Definition clientGetNamespace (name : string) : M (error + Namespace) :=
  do fault <- request (GetNamespaceCall name);
  fun w =>
    match fault with
    | Some e => (inl e, w)
    | None =>
        match findNamespace name (namespaces w) with
        | Some n => (inr n, w)
        | None => (inl (NewNotFound "namespaces" name), w)
        end
    end.

(** [List] of namespaces, with [client.MatchingLabelsSelector] when a
    selector is given. *)
Definition clientListNamespaces (sel : option Selector) : M (error + list Namespace) :=
  do fault <- request ListNamespacesCall;
  fun w =>
    match fault with
    | Some e => (inl e, w)
    | None =>
        match sel with
        | None => (inr (namespaces w), w)
        | Some s => (inr (List.filter (fun n => Matches s (nsLabels n)) (namespaces w)), w)
        end
    end.

(** The object as the server returns it: under the name it is stored at. *)
Definition stored (key : string * string) (v : Unstructured) : Unstructured :=
  {| uGVK := uGVK v; uName := key.2; uNamespace := key.1; uLabels := uLabels v;
     uOwnerReferences := uOwnerReferences v; uObject := uObject v |}.

Definition clientGetVPA (namespace name : string) : M (error + Unstructured) :=
  do fault <- request (GetVPACall namespace name);
  fun w =>
    match fault with
    | Some e => (inl e, w)
    | None =>
        match vpas w !! (namespace, name) with
        | Some v => (inr (stored (namespace, name) v), w)
        | None => (inl (NewNotFound "verticalpodautoscalers.autoscaling.k8s.io" name), w)
        end
    end.

Definition clientCreateVPA (vpa : Unstructured) : M (option error) :=
  do fault <- request (CreateVPACall vpa);
  fun w =>
    match fault with
    | Some e => (Some e, w)
    | None =>
        match vpas w !! (uNamespace vpa, uName vpa) with
        | Some _ => (Some (NewAlreadyExists "verticalpodautoscalers.autoscaling.k8s.io" (uName vpa)), w)
        | None => (None, setVpas (<[ (uNamespace vpa, uName vpa) := vpa ]> (vpas w)) w)
        end
    end.

Definition clientUpdateVPA (vpa : Unstructured) : M (option error) :=
  do fault <- request (UpdateVPACall vpa);
  fun w =>
    match fault with
    | Some e => (Some e, w)
    | None =>
        match vpas w !! (uNamespace vpa, uName vpa) with
        | Some _ => (None, setVpas (<[ (uNamespace vpa, uName vpa) := vpa ]> (vpas w)) w)
        | None => (Some (NewNotFound "verticalpodautoscalers.autoscaling.k8s.io" (uName vpa)), w)
        end
    end.

(** [Delete] goes to the API server itself: when it answers not-found the
    object is not there (any more), also when that answer comes from the
    fault schedule (somebody else removed the object first). *)
Definition clientDeleteVPA (namespace name : string) : M (option error) :=
  do fault <- request (DeleteVPACall namespace name);
  fun w =>
    match fault with
    | Some e =>
        if IsNotFound (Some e)
        then (Some e, setVpas (delete (namespace, name) (vpas w)) w)
        else (Some e, w)
    | None =>
        match vpas w !! (namespace, name) with
        | Some _ => (None, setVpas (delete (namespace, name) (vpas w)) w)
        | None => (Some (NewNotFound "verticalpodautoscalers.autoscaling.k8s.io" name), w)
        end
    end.

Definition hasLabels (want have : gmap string string) : bool :=
  forallb (fun kv => bool_decide (have !! kv.1 = Some kv.2)) (map_to_list want).

(** [List] of VPAs with [client.MatchingLabels]. *)
Definition clientListVPAs (createdBy : string) (matching : gmap string string)
  : M (error + list Unstructured) :=
  do fault <- request (ListVPAsCall createdBy);
  fun w =>
    match fault with
    | Some e => (inl e, w)
    | None =>
        (inr (List.filter (fun v => hasLabels matching (uLabels v))
                ((fun kv => stored kv.1 kv.2) <$> map_to_list (vpas w))), w)
    end.

(** [Status().Patch(ctx, statusUpdate, client.MergeFrom(original))]: the
    merge patch carries the fields on which [statusUpdate] differs from
    [original], and the server sets exactly those on the object it holds. *)
Definition mergeField {A : Type} `{EqDecision A} (original modified held : A) : A :=
  if decide (original = modified) then held else modified.

#[global] Instance WorkloadReference_eq_dec : EqDecision WorkloadReference.
Proof. solve_decision. Defined.

Definition mergeStatus (original modified held : VpaManagerStatus) : VpaManagerStatus :=
  {| ManagedVPAs := mergeField (ManagedVPAs original) (ManagedVPAs modified) (ManagedVPAs held);
     ManagedDeployments :=
       mergeField (ManagedDeployments original) (ManagedDeployments modified) (ManagedDeployments held);
     ManagedWorkloads :=
       mergeField (ManagedWorkloads original) (ManagedWorkloads modified) (ManagedWorkloads held);
     DeploymentCount :=
       mergeField (DeploymentCount original) (DeploymentCount modified) (DeploymentCount held);
     StatefulSetCount :=
       mergeField (StatefulSetCount original) (StatefulSetCount modified) (StatefulSetCount held);
     DaemonSetCount :=
       mergeField (DaemonSetCount original) (DaemonSetCount modified) (DaemonSetCount held);
     LastReconcileTime :=
       mergeField (LastReconcileTime original) (LastReconcileTime modified) (LastReconcileTime held) |}.

Definition patchStatusOf (original statusUpdate : VpaManager) (held : VpaManager) : VpaManager :=
  if String.eqb (vmName held) (vmName statusUpdate)
  then {| vmName := vmName held; Spec := Spec held;
          Status := mergeStatus (Status original) (Status statusUpdate) (Status held) |}
  else held.

Definition clientStatusPatch (statusUpdate original : VpaManager) : M (option error) :=
  do fault <- request (PatchStatusCall (vmName statusUpdate));
  fun w =>
    match fault with
    | Some e => (Some e, w)
    | None =>
        match findVpaManager (vmName statusUpdate) (vpaManagers w) with
        | Some _ =>
            (None, setVpaManagers (patchStatusOf original statusUpdate <$> vpaManagers w) w)
        | None =>
            (Some (NewNotFound "vpamanagers.operators.joaomo.io" (vmName statusUpdate)), w)
        end
    end.

(** ** Workload providers (internal/workload) *)

Definition PageSize : nat := 500.

Inductive Provider : Type := DeploymentProvider | StatefulSetProvider | DaemonSetProvider.

Definition Kind (p : Provider) : string :=
  match p with
  | DeploymentProvider => "Deployment"
  | StatefulSetProvider => "StatefulSet"
  | DaemonSetProvider => "DaemonSet"
  end.

(** The pages the server cuts a listing into: at most [limit] items each,
    and one (empty) page for an empty listing. *)
Fixpoint chunks (fuel limit : nat) (items : list Workload) : list (list Workload) :=
  match fuel with
  | O => []
  | S fuel' =>
      match items with
      | [] => []
      | _ => take limit items :: chunks fuel' limit (drop limit items)
      end
  end.

Definition pagesOf (limit : nat) (items : list Workload) : list (list Workload) :=
  match chunks (length items) limit items with
  | [] => [[]]
  | pages => pages
  end.

(** The objects of one kind in one namespace that a selector keeps;
    no selector keeps them all. *)
Definition selectWorkloads (kind namespace : string) (sel : option Selector)
    (ws : list Workload) : list Workload :=
  List.filter
    (fun x => String.eqb (wKind x) kind && String.eqb (wNamespace x) namespace &&
              match sel with Some s => Matches s (wLabels x) | None => true end)
    ws.

(** [WorkloadCallback], threading what the closure captures. *)
Definition WorkloadCallback (St : Type) : Type := Workload -> St -> (bool * option error) * St.

(** [for i := range list.Items]: the outcome is the error of the callback,
    or whether the iteration goes on. *)
Fixpoint eachItem {St : Type} (callback : WorkloadCallback St) (items : list Workload) (acc : St)
  : (bool * option error) * St :=
  match items with
  | [] => ((true, None), acc)
  | x :: rest =>
      match callback x acc with
      | ((_, Some e), acc') => ((false, Some e), acc')
      | ((false, None), acc') => ((false, None), acc')
      | ((true, None), acc') => eachItem callback rest acc'
      end
  end.

(** The [for] loop of [ForEach]: one [List] request per page, until the
    server sends no continue token. *)
Fixpoint eachPage {St : Type} (kind namespace : string) (callback : WorkloadCallback St)
    (pages : list (list Workload)) (page : nat) (acc : St) : M (option error * St) :=
  match pages with
  | [] => ret (None, acc)
  | items :: rest =>
      do fault <- request (ListWorkloadsCall kind namespace page);
      match fault with
      | Some e => ret (Some e, acc)
      | None =>
          match eachItem callback items acc with
          | ((_, Some e), acc') => ret (Some e, acc')
          | ((false, None), acc') => ret (None, acc')
          | ((true, None), acc') => eachPage kind namespace callback rest (S page) acc'
          end
      end
  end.

Definition ForEach {St : Type} (p : Provider) (namespace : string)
    (selector : option LabelSelector) (callback : WorkloadCallback St) (acc : St)
  : M (option error * St) :=
  let listing (sel : option Selector) : M (option error * St) :=
    fun w =>
      eachPage (Kind p) namespace callback
        (pagesOf PageSize (selectWorkloads (Kind p) namespace sel (workloads w))) 0 acc w in
  match selector with
  | None => listing None
  | Some _ =>
      match LabelSelectorAsSelector selector with
      | inl err => ret (Some err, acc)
      | inr labelSelector => listing (Some labelSelector)
      end
  end.

(** [Provider.List]: collects what [ForEach] yields; the slice is returned
    next to the error. *)
Definition List_ (p : Provider) (namespace : string) (selector : option LabelSelector)
  : M (list Workload * option error) :=
  do r <- ForEach p namespace selector
            (fun x workloads => ((true, None), (workloads ++ [x])%list)) [];
  ret (r.2, r.1).

(** ** Reconciler (internal/controller) *)

Record WorkloadConfig : Type := {
  wcProvider : Provider;
  wcSelector : VpaManagerSpec -> option LabelSelector
}.

Record VpaManagerReconciler : Type := {
  WorkloadConfigs : list WorkloadConfig
}.

Definition DefaultWorkloadConfigs : list WorkloadConfig :=
  [ {| wcProvider := DeploymentProvider; wcSelector := DeploymentSelector |};
    {| wcProvider := StatefulSetProvider; wcSelector := StatefulSetSelector |};
    {| wcProvider := DaemonSetProvider; wcSelector := DaemonSetSelector |} ].

(** [reconcile.Result]; durations are in nanoseconds as in Go. *)
Record Result : Type := {
  Requeue : bool;
  RequeueAfter : Z
}.

Definition emptyResult : Result := {| Requeue := false; RequeueAfter := 0 |}.
Definition Minute : Z := 60 * 1000000000.

Definition getMatchingNamespaces (selector : option LabelSelector) : M (error + list Namespace) :=
  match selector with
  | None => clientListNamespaces None
  | Some _ =>
      match LabelSelectorAsSelector selector with
      | inl err => ret (inl err)
      | inr labelSelector => clientListNamespaces (Some labelSelector)
      end
  end.

(** [existing.Object["spec"] = vpa.Object["spec"]] *)
Definition setSpec (existing vpa : Unstructured) : Unstructured :=
  {| uGVK := uGVK existing; uName := uName existing; uNamespace := uNamespace existing;
     uLabels := uLabels existing; uOwnerReferences := uOwnerReferences existing;
     uObject := <[ "spec" := default VNil (uObject vpa !! "spec") ]> (uObject existing) |}.

Definition ensureVPAForWorkload (vpaManager : VpaManager)
    (kind name namespace uid vpaName : string) : M (bool * option error) :=
  let vpa := buildVPAForWorkload vpaManager kind name namespace uid vpaName in
  do got <- clientGetVPA namespace vpaName;
  match got with
  | inl err =>
      if IsNotFound (Some err) then
        do cerr <- clientCreateVPA vpa;
        match cerr with
        | Some e => ret (false, Some e)
        | None => ret (true, None)
        end
      else ret (false, Some err)
  | inr existing =>
      do uerr <- clientUpdateVPA (setSpec existing vpa);
      match uerr with
      | Some e => ret (false, Some e)
      | None => ret (false, None)
      end
  end.

Definition referenceOf (wl : Workload) (vpaName : string) : WorkloadReference :=
  {| wrKind := wKind wl; wrName := wName wl; wrNamespace := wNamespace wl;
     wrUID := wUID wl; wrVpaName := vpaName |}.

(** [for _, wl := range workloads] *)
Fixpoint ensureWorkloads (vpaManager : VpaManager) (wls : list Workload)
    (managedWorkloads : list WorkloadReference) : M (list WorkloadReference) :=
  match wls with
  | [] => ret managedWorkloads
  | wl :: rest =>
      let vpaName := vpaNameOf (wName wl) in
      do r <- ensureVPAForWorkload vpaManager (wKind wl) (wName wl) (wNamespace wl) (wUID wl) vpaName;
      match r with
      | (_, Some err) =>
          logError err "failed to ensure VPA" ;;
          ensureWorkloads vpaManager rest managedWorkloads
      | (created, None) =>
          (if created then RecordVPAOperation "create" (vmName vpaManager) else ret tt) ;;
          ensureWorkloads vpaManager rest (managedWorkloads ++ [referenceOf wl vpaName])
      end
  end.

(** [for _, wc := range r.WorkloadConfigs], in one namespace; the state is
    [managedWorkloads] and [watchedWorkloadsCount]. *)
Fixpoint eachWorkloadConfig (vpaManager : VpaManager) (namespace : string)
    (wcs : list WorkloadConfig) (st : list WorkloadReference * nat)
  : M (list WorkloadReference * nat) :=
  match wcs with
  | [] => ret st
  | wc :: rest =>
      match wcSelector wc (Spec vpaManager) with
      | None => eachWorkloadConfig vpaManager namespace rest st
      | Some selector =>
          do r <- List_ (wcProvider wc) namespace (Some selector);
          match r with
          | (_, Some err) =>
              logError err "failed to list workloads" ;;
              eachWorkloadConfig vpaManager namespace rest st
          | (wls, None) =>
              do managedWorkloads <- ensureWorkloads vpaManager wls st.1;
              eachWorkloadConfig vpaManager namespace rest
                (managedWorkloads, (st.2 + length wls)%nat)
          end
      end
  end.

(** [for _, ns := range matchingNamespaces] *)
Fixpoint eachNamespace (r : VpaManagerReconciler) (vpaManager : VpaManager)
    (nss : list Namespace) (st : list WorkloadReference * nat)
  : M (list WorkloadReference * nat) :=
  match nss with
  | [] => ret st
  | ns :: rest =>
      do st' <- eachWorkloadConfig vpaManager (nsName ns) (WorkloadConfigs r) st;
      eachNamespace r vpaManager rest st'
  end.

(** [fmt.Sprintf("%s/%s", namespace, name)] *)
Definition vpaKey (namespace name : string) : string := namespace ++ "/" ++ name.

(** "Build a set of current VPA names" *)
Definition currentVPAsOf (currentWorkloads : list WorkloadReference) : gmap string bool :=
  foldl (fun currentVPAs wl => <[ vpaKey (wrNamespace wl) (wrVpaName wl) := true ]> currentVPAs)
    ∅ currentWorkloads.

Definition managedLabels (vpaManager : VpaManager) : gmap string string :=
  {[ managedByLabel := "vpa-operator"; createdByLabel := vmName vpaManager ]}.

(** [for _, vpa := range vpaList.Items] *)
Fixpoint deleteOrphans (currentVPAs : gmap string bool) (items : list Unstructured)
    (deleted : nat) : M (nat * option error) :=
  match items with
  | [] => ret (deleted, None)
  | vpa :: rest =>
      let key := vpaKey (uNamespace vpa) (uName vpa) in
      if negb (default false (currentVPAs !! key)) then
        do err <- clientDeleteVPA (uNamespace vpa) (uName vpa);
        match err with
        | Some e =>
            if negb (IsNotFound err) then ret (deleted, Some e)
            else deleteOrphans currentVPAs rest (S deleted)
        | None => deleteOrphans currentVPAs rest (S deleted)
        end
      else deleteOrphans currentVPAs rest deleted
  end.

Definition cleanupOrphanedVPAs (vpaManager : VpaManager)
    (currentWorkloads : list WorkloadReference) : M (nat * option error) :=
  let currentVPAs := currentVPAsOf currentWorkloads in
  do listed <- clientListVPAs (vmName vpaManager) (managedLabels vpaManager);
  match listed with
  | inl err => ret (O, Some err)
  | inr items => deleteOrphans currentVPAs items 0
  end.

(** [for i := 0; i < orphansDeleted; i++ { RecordVPAOperation("delete", ...) }] *)
Fixpoint recordDeletes (n : nat) (vpaManagerName : string) : M unit :=
  match n with
  | O => ret tt
  | S n' => RecordVPAOperation "delete" vpaManagerName ;; recordDeletes n' vpaManagerName
  end.

(** [statusUpdate := vpaManager.DeepCopy()] followed by the four
    assignments to its status. *)
Definition statusUpdateOf (vpaManager : VpaManager)
    (managedWorkloads : list WorkloadReference) (now : Z) : VpaManager :=
  {| vmName := vmName vpaManager;
     Spec := Spec vpaManager;
     Status :=
       {| ManagedVPAs := Z.of_nat (length managedWorkloads);
          ManagedDeployments := managedWorkloads;
          ManagedWorkloads := managedWorkloads;
          DeploymentCount := DeploymentCount (Status vpaManager);
          StatefulSetCount := StatefulSetCount (Status vpaManager);
          DaemonSetCount := DaemonSetCount (Status vpaManager);
          LastReconcileTime := Some now |} |}.

(** [VpaManagerReconciler.Reconcile]; [now] is what [metav1.Now()] returns. *)
Definition Reconcile (r : VpaManagerReconciler) (reqName : string) (now : Z)
  : M (Result * option error) :=
  do got <- clientGetVpaManager reqName;
  match got with
  | inl err =>
      if IsNotFound (Some err) then
        logInfo "VpaManager not found, likely deleted" ;;
        ret (emptyResult, None)
      else
        RecordReconcile reqName (Some err) ;;
        ret (emptyResult, Some err)
  | inr vpaManager =>
      if negb (Enabled (Spec vpaManager)) then
        logInfo "VpaManager is disabled, skipping reconciliation" ;;
        RecordReconcile (vmName vpaManager) None ;;
        ret (emptyResult, None)
      else
        do nss <- getMatchingNamespaces (NamespaceSelector (Spec vpaManager));
        match nss with
        | inl err =>
            logError err "failed to get matching namespaces" ;;
            RecordReconcile (vmName vpaManager) (Some err) ;;
            ret (emptyResult, Some err)
        | inr matchingNamespaces =>
            do st <- eachNamespace r vpaManager matchingNamespaces ([], O);
            let managedWorkloads := st.1 in
            let watchedWorkloadsCount := st.2 in
            do swept <- cleanupOrphanedVPAs vpaManager managedWorkloads;
            match swept.2 with
            | Some err => logError err "failed to cleanup orphaned VPAs"
            | None => ret tt
            end ;;
            recordDeletes swept.1 (vmName vpaManager) ;;
            do perr <- clientStatusPatch (statusUpdateOf vpaManager managedWorkloads now) vpaManager;
            match perr with
            | Some err =>
                logError err "failed to patch VpaManager status" ;;
                RecordReconcile (vmName vpaManager) (Some err) ;;
                ret (emptyResult, Some err)
            | None =>
                UpdateManagedResources (vmName vpaManager)
                  (Z.of_nat (length managedWorkloads)) (Z.of_nat watchedWorkloadsCount) ;;
                RecordReconcile (vmName vpaManager) None ;;
                logInfo "reconciliation complete" ;;
                ret ({| Requeue := false; RequeueAfter := 5 * Minute |}, None)
            end
        end
  end.

(** *** The watches of [SetupWithManager]

    A [reconcile.Request] of this controller names a manager (which is
    cluster-scoped), so a list of requests is a list of names.  Go's nil
    slice and its empty slice both enqueue nothing. *)

(** [VpaManagerReconciler.namespaceMatchesSelector] *)
Definition namespaceMatchesSelector (ns : Namespace) (selector : option LabelSelector) : bool :=
  match selector with
  | None => true
  | Some _ =>
      match LabelSelectorAsSelector selector with
      | inl _ => false
      | inr labelSelector => Matches labelSelector (nsLabels ns)
      end
  end.

(** [for _, vm := range vpaManagerList.Items], appending a request for each
    manager that passes the test of the loop. *)
Fixpoint enqueueEach (test : VpaManager -> bool) (items : list VpaManager)
    (requests : list string) : list string :=
  match items with
  | [] => requests
  | vm :: rest =>
      enqueueEach test rest (if test vm then (requests ++ [vmName vm])%list else requests)
  end.

(** [findVpaManagersForWorkload]; the object that triggered the watch is
    not read. *)
Definition findVpaManagersForWorkload : M (list string) :=
  do listed <- clientListVpaManagers;
  match listed with
  | inl _ => ret []
  | inr items => ret (enqueueEach (fun vm => Enabled (Spec vm)) items [])
  end.

(** [findVpaManagersForNamespace] *)
Definition findVpaManagersForNamespace (ns : Namespace) : M (list string) :=
  do listed <- clientListVpaManagers;
  match listed with
  | inl _ => ret []
  | inr items =>
      ret (enqueueEach
             (fun vm => Enabled (Spec vm) &&
                        namespaceMatchesSelector ns (NamespaceSelector (Spec vm)))
             items [])
  end.

(** ** Admission webhooks (internal/webhook) *)

(** [DeploymentWebhookHandler.matchesSelector] *)
Definition matchesSelector (objLabels : gmap string string) (selector : option LabelSelector)
  : bool :=
  match selector with
  | None => true
  | Some _ =>
      match LabelSelectorAsSelector selector with
      | inl _ => false
      | inr labelSelector => Matches labelSelector objLabels
      end
  end.

(** [matchesLabelSelector], the shared helper: "Require explicit selector
    for webhooks". *)
Definition matchesLabelSelector (objLabels : gmap string string)
    (selector : option LabelSelector) : bool :=
  match selector with
  | None => false
  | Some _ =>
      match LabelSelectorAsSelector selector with
      | inl _ => false
      | inr labelSelector => Matches labelSelector objLabels
      end
  end.

(** The helper each handler's [findMatchingVpaManager] calls, and the
    selector it reads for its own kind. *)
Definition handlerMatches (h : Handler) : gmap string string -> option LabelSelector -> bool :=
  match h with
  | DeploymentWebhookHandler => matchesSelector
  | StatefulSetWebhookHandler => matchesLabelSelector
  end.

Definition handlerSelector (h : Handler) (spec : VpaManagerSpec) : option LabelSelector :=
  match h with
  | DeploymentWebhookHandler => DeploymentSelector spec
  | StatefulSetWebhookHandler => StatefulSetSelector spec
  end.

(** [for _, vm := range vpaManagerList.Items] *)
Fixpoint firstMatching (h : Handler) (namespaceLabels : gmap string string)
    (obj : WorkloadObject) (items : list VpaManager) : option VpaManager :=
  match items with
  | [] => None
  | vm :: rest =>
      if negb (Enabled (Spec vm)) then firstMatching h namespaceLabels obj rest
      else if negb (handlerMatches h namespaceLabels (NamespaceSelector (Spec vm)))
      then firstMatching h namespaceLabels obj rest
      else if negb (handlerMatches h (oLabels obj) (handlerSelector h (Spec vm)))
      then firstMatching h namespaceLabels obj rest
      else Some vm
  end.

Definition findMatchingVpaManager (h : Handler) (obj : WorkloadObject)
  : M (option VpaManager * option error) :=
  do listed <- clientListVpaManagers;
  match listed with
  | inl err => ret (None, Some err)
  | inr items =>
      do got <- clientGetNamespace (oNamespace obj);
      match got with
      | inl err => ret (None, Some err)
      | inr namespace => ret (firstMatching h (nsLabels namespace) obj items, None)
      end
  end.

Definition createVPA (h : Handler) (vpaManager : VpaManager) (obj : WorkloadObject)
    (vpaName : string) : M (option error) :=
  do got <- clientGetVPA (oNamespace obj) vpaName;
  match got with
  | inr _ => ret None
  | inl err =>
      if negb (IsNotFound (Some err)) then ret (Some err)
      else clientCreateVPA (buildVPA h vpaManager obj vpaName)
  end.

Definition updateVPA (h : Handler) (vpaManager : VpaManager) (obj : WorkloadObject)
    (vpaName : string) : M (option error) :=
  do got <- clientGetVPA (oNamespace obj) vpaName;
  match got with
  | inl err =>
      if IsNotFound (Some err) then createVPA h vpaManager obj vpaName
      else ret (Some err)
  | inr existing =>
      let newVPA := buildVPA h vpaManager obj vpaName in
      clientUpdateVPA (setSpec existing newVPA)
  end.

Definition deleteVPA (namespace vpaName : string) : M (option error) :=
  do err <- clientDeleteVPA namespace vpaName;
  if IsNotFound err then ret None else ret err.

(** [admission.Request]: the operation and what [json.Unmarshal] makes of
    the raw [Object] and [OldObject]. *)
Record Request : Type := {
  Operation : string;
  Object : error + WorkloadObject;
  OldObject : error + WorkloadObject
}.

Record Response : Type := {
  Allowed : bool;
  Message : string
}.

Definition kindWord (h : Handler) : string :=
  match h with
  | DeploymentWebhookHandler => "deployment"
  | StatefulSetWebhookHandler => "statefulset"
  end.

Definition handleCreate (h : Handler) (req : Request) : M (option error) :=
  match Object req with
  | inl err => ret (Some (Errorf ("failed to decode " ++ kindWord h) err))
  | inr obj =>
      do found <- findMatchingVpaManager h obj;
      match found with
      | (_, Some err) => ret (Some err)
      | (None, None) => ret None
      | (Some vpaManager, None) =>
          let vpaName := vpaNameOf (oName obj) in
          do err <- createVPA h vpaManager obj vpaName;
          match err with
          | Some e => ret (Some e)
          | None => RecordVPAOperation "create" (vmName vpaManager) ;; ret None
          end
      end
  end.

Definition handleUpdate (h : Handler) (req : Request) : M (option error) :=
  match Object req with
  | inl err => ret (Some (Errorf ("failed to decode new " ++ kindWord h) err))
  | inr newObj =>
      match OldObject req with
      | inl err => ret (Some (Errorf ("failed to decode old " ++ kindWord h) err))
      | inr oldObj =>
          do foundNew <- findMatchingVpaManager h newObj;
          match foundNew with
          | (_, Some err) => ret (Some err)
          | (newVpaManager, None) =>
              do foundOld <- findMatchingVpaManager h oldObj;
              match foundOld with
              | (_, Some err) => ret (Some err)
              | (oldVpaManager, None) =>
                  let vpaName := vpaNameOf (oName newObj) in
                  match oldVpaManager, newVpaManager with
                  | None, Some newM =>
                      do err <- createVPA h newM newObj vpaName;
                      match err with
                      | Some e => ret (Some e)
                      | None => RecordVPAOperation "create" (vmName newM) ;; ret None
                      end
                  | Some oldM, None =>
                      do err <- deleteVPA (oNamespace newObj) vpaName;
                      match err with
                      | Some e => ret (Some e)
                      | None => RecordVPAOperation "delete" (vmName oldM) ;; ret None
                      end
                  | _, Some newM =>
                      do err <- updateVPA h newM newObj vpaName;
                      match err with
                      | Some e => ret (Some e)
                      | None => ret None
                      end
                  | None, None => ret None
                  end
              end
          end
      end
  end.

Definition handleDelete (h : Handler) (req : Request) : M (option error) :=
  match OldObject req with
  | inl err => ret (Some (Errorf ("failed to decode " ++ kindWord h) err))
  | inr obj =>
      do found <- findMatchingVpaManager h obj;
      match found with
      | (_, Some err) => ret (Some err)
      | (None, None) => ret None
      | (Some vpaManager, None) =>
          let vpaName := vpaNameOf (oName obj) in
          do err <- deleteVPA (oNamespace obj) vpaName;
          match err with
          | Some e => ret (Some e)
          | None => RecordVPAOperation "delete" (vmName vpaManager) ;; ret None
          end
      end
  end.

(** The [switch req.Operation] of [Handle]; an operation that is none of
    the three leaves [err] nil. *)
Definition dispatch (h : Handler) (req : Request) : M (option error) :=
  if String.eqb (Operation req) "CREATE" then handleCreate h req
  else if String.eqb (Operation req) "UPDATE" then handleUpdate h req
  else if String.eqb (Operation req) "DELETE" then handleDelete h req
  else ret None.

(** [Handle]: the deferred [RecordWebhookRequest] runs last, with the final
    value of [err]. *)
Definition Handle (h : Handler) (req : Request) : M Response :=
  do err <- dispatch h req;
  match err with
  | Some e => logError e "webhook handler error"
  | None => ret tt
  end ;;
  let response := {| Allowed := true; Message := kindWord h ++ " processed" |} in
  RecordWebhookRequest (Operation req) err ;;
  ret response.

(** ** Frames

    The relations used to say what a computation leaves alone. *)

(** What no operation but the status patch touches, and what only grows. *)
Record steady (w w' : World) : Prop := {
  steady_managers : vpaManagers w' = vpaManagers w;
  steady_namespaces : namespaces w' = namespaces w;
  steady_workloads : workloads w' = workloads w;
  steady_faults : faults w' = faults w;
  steady_calls : calls w `prefix_of` calls w';
  steady_metrics : metrics w `prefix_of` metrics w';
  steady_logs : logs w `prefix_of` logs w'
}.

Definition keeps {A : Type} (m : M A) : Prop := forall w, steady w (m w).2.

(** What outlasts a computation in the store of VPAs: every object stays
    stored, under the labels it had. *)
Definition outlives (w w' : World) : Prop :=
  forall key v, vpas w !! key = Some v ->
    exists v', vpas w' !! key = Some v' /\ uLabels v' = uLabels v.

Definition lasts {A : Type} (m : M A) : Prop := forall w, outlives w (m w).2.

(** A computation that does not write the VPA stored under [key]. *)
Definition leaves {A : Type} (key : string * string) (m : M A) : Prop :=
  forall w, vpas (m w).2 !! key = vpas w !! key.


(** ** What is stated of the builders *)

(** [dst] is the entry a builder makes of the quantities [src]: absent for a
    nil map, else a map with the same keys and values. *)
Definition copiedInto (src : option (gmap string string)) (dst : option value) : Prop :=
  match src with
  | None => dst = None
  | Some m => exists m', dst = Some (VMap m') /\ forall k, m' !! k = VString <$> (m !! k)
  end.

(** The resource policy of a VPA [v] built for [vpaManager]: no
    ["resourcePolicy"] key without container policies, never an empty
    ["containerPolicies"] list, and one entry per container policy. *)
Definition resourcePolicyEmitted (vpaManager : VpaManager) (v : Unstructured) : Prop :=
  exists spec, specOf v = Some spec /\
    (forall m', spec !! "resourcePolicy" = Some (VMap m') ->
                m' !! "containerPolicies" <> Some (VList [])) /\
    match ResourcePolicy (Spec vpaManager) with
    | None => spec !! "resourcePolicy" = None
    | Some rp =>
        match ContainerPolicies rp with
        | [] => spec !! "resourcePolicy" = None
        | _ :: _ =>
            exists entries,
              nestedField "resourcePolicy" "containerPolicies" spec = Some (VList entries) /\
              length entries = length (ContainerPolicies rp) /\
              forall i cp, ContainerPolicies rp !! i = Some cp ->
                exists e, entries !! i = Some (VMap e) /\
                  e !! "containerName" = Some (VString (ContainerName cp)) /\
                  copiedInto (MinAllowed cp) (e !! "minAllowed") /\
                  copiedInto (MaxAllowed cp) (e !! "maxAllowed")
        end
    end.

(** The identity of a VPA [v] built under [vpaManager] for the workload
    [kind]/[namespace]/[name]. *)
Definition identifies (vpaManager : VpaManager) (kind namespace name : string)
    (v : Unstructured) : Prop :=
  uName v = name ++ "-vpa" /\
  uNamespace v = namespace /\
  uLabels v !! "app.kubernetes.io/managed-by" = Some "vpa-operator" /\
  uLabels v !! "app.kubernetes.io/created-by" = Some (vmName vpaManager) /\
  exists spec, specOf v = Some spec /\
    nestedField "targetRef" "kind" spec = Some (VString kind) /\
    nestedField "targetRef" "name" spec = Some (VString name).

(** ** Fixtures, after the Go tests *)

Definition matchLabel (k v : string) : LabelSelector :=
  {| MatchLabels := {[ k := v ]}; MatchExpressions := [] |}.

Definition emptySelector : LabelSelector :=
  {| MatchLabels := ∅; MatchExpressions := [] |}.

Definition emptyStatus : VpaManagerStatus :=
  {| ManagedVPAs := 0; ManagedDeployments := []; ManagedWorkloads := [];
     DeploymentCount := 0; StatefulSetCount := 0; DaemonSetCount := 0;
     LastReconcileTime := None |}.

Definition vpaEnabled : gmap string string := {[ "vpa-enabled" := "true" ]}.

(** The manager of [TestReconcile_UpdatesStatusWithManagedVPAsCount]. *)
Definition testManager (enabled : bool) : VpaManager :=
  {| vmName := "test-vpamanager";
     Spec := {| Enabled := enabled; UpdateMode := "Auto";
                NamespaceSelector := Some (matchLabel "vpa-enabled" "true");
                DeploymentSelector := Some (matchLabel "vpa-enabled" "true");
                StatefulSetSelector := None; DaemonSetSelector := None;
                ResourcePolicy := None |};
     Status := emptyStatus |}.

Definition testNamespace : Namespace := {| nsName := "test-ns"; nsLabels := vpaEnabled |}.

Definition testDeployment (name uid : string) : Workload :=
  {| wKind := "Deployment"; wName := name; wNamespace := "test-ns"; wUID := uid;
     wLabels := vpaEnabled |}.

Definition noFaults : nat -> option error := fun _ => None.

Definition testWorld (vm : VpaManager) (ws : list Workload)
    (vs : gmap (string * string) Unstructured) (fs : nat -> option error) : World :=
  {| vpaManagers := [vm]; namespaces := [testNamespace]; workloads := ws; vpas := vs;
     faults := fs; calls := []; metrics := []; logs := [] |}.

Definition defaultReconciler : VpaManagerReconciler :=
  {| WorkloadConfigs := DefaultWorkloadConfigs |}.

(** ** What is stated of the orphan sweep *)

(** The test of the sweep loop: the key of [vpa] is not in the set of
    current VPAs. *)
Definition isOrphan (currentVPAs : gmap string bool) (vpa : Unstructured) : bool :=
  negb (default false (currentVPAs !! vpaKey (uNamespace vpa) (uName vpa))).

Definition orphansOf (currentVPAs : gmap string bool) (items : list Unstructured)
  : list Unstructured :=
  List.filter (isOrphan currentVPAs) items.

(** What the server answers to the sweep's listing. *)
Definition sweepCandidates (vpaManager : VpaManager) (w : World) : list Unstructured :=
  List.filter (fun v => hasLabels (managedLabels vpaManager) (uLabels v))
    ((fun kv => stored kv.1 kv.2) <$> map_to_list (vpas w)).

Definition deleteCallOf (v : Unstructured) : APICall :=
  DeleteVPACall (uNamespace v) (uName v).

(** Kubernetes names hold no slash. *)
Fixpoint hasSlash (s : string) : bool :=
  match s with
  | EmptyString => false
  | String c s' => String.eqb (String c EmptyString) "/" || hasSlash s'
  end.

(** [createUnstructuredVPA] of the tests: a VPA left behind by
    ["test-vpamanager"]. *)
Definition createUnstructuredVPA (name namespace targetDeployment : string) : Unstructured :=
  {| uGVK := vpaGVK; uName := name; uNamespace := namespace;
     uLabels := {[ managedByLabel := "vpa-operator"; createdByLabel := "test-vpamanager" ]};
     uOwnerReferences := [];
     uObject :=
       {[ "spec" := VMap {[ "targetRef" := VMap {[ "apiVersion" := VString "apps/v1";
                                                   "kind" := VString "Deployment";
                                                   "name" := VString targetDeployment ]} ]} ]} |}.

Definition orphanA : Unstructured := createUnstructuredVPA "a-vpa" "test-ns" "a".
Definition orphanB : Unstructured := createUnstructuredVPA "b-vpa" "test-ns" "b".

Definition twoOrphans : gmap (string * string) Unstructured :=
  {[ ("test-ns", "a-vpa") := orphanA; ("test-ns", "b-vpa") := orphanB ]}.

Definition oneOrphan : gmap (string * string) Unstructured :=
  {[ ("test-ns", "deleted-deployment-vpa") :=
       createUnstructuredVPA "deleted-deployment-vpa" "test-ns" "deleted-deployment" ]}.

Definition forbidden : error :=
  mkError ReasonForbidden "verticalpodautoscalers.autoscaling.k8s.io is forbidden".

(** The schedule that answers the request of index [n] with [e]. *)
Definition failAt (n : nat) (e : error) : nat -> option error :=
  fun i => if (i =? n)%nat then Some e else None.

(** The sweep as the specification words it: after a failed delete the
    remaining candidates are still attempted, so every orphan of the
    listing gets its delete request. *)
Definition sweepContinues (vpaManager : VpaManager)
    (currentWorkloads : list WorkloadReference) (w : World) : Prop :=
  let out := cleanupOrphanedVPAs vpaManager currentWorkloads w in
  forall v, v ∈ orphansOf (currentVPAsOf currentWorkloads) (sweepCandidates vpaManager w) ->
            deleteCallOf v ∈ calls out.2.

(** Two orphans in the store, and the first delete of the sweep (the
    request after the listing) refused. *)
Definition sweepWorld : World :=
  testWorld (testManager true) [] twoOrphans (failAt 1 forbidden).

(** A label selector accepts a set of labels: it compiles, and what it
    compiles to matches them. *)
Definition accepts (selector : LabelSelector) (labels : gmap string string) : Prop :=
  exists s, LabelSelectorAsSelector (Some selector) = inr s /\ Matches s labels = true.

(** The workloads that match a manager of spec [spec] now: those of the
    cluster that lie in a namespace the namespace selector accepts (no
    selector accepts every namespace) and are of a kind the reconciler is
    configured for, whose selector in [spec] is set and accepts the labels
    of the workload. *)
Definition matchesNow (r : VpaManagerReconciler) (spec : VpaManagerSpec) (w : World)
    (wl : Workload) : Prop :=
  wl ∈ workloads w /\
  (exists ns, ns ∈ namespaces w /\ nsName ns = wNamespace wl /\
     match NamespaceSelector spec with
     | None => True
     | Some selector => accepts selector (nsLabels ns)
     end) /\
  exists wc selector,
    wc ∈ WorkloadConfigs r /\ Kind (wcProvider wc) = wKind wl /\
    wcSelector wc spec = Some selector /\ accepts selector (wLabels wl).

(** What is stated of a finished reconcile of the manager [name]: every VPA
    (under a valid name) that carries both labels of the manager is the
    VPA [<name>-vpa] of a workload that matches the manager now. *)
Definition noOrphansLeft (r : VpaManagerReconciler) (name : string) (w : World) : Prop :=
  forall vm ns n v,
    findVpaManager name (vpaManagers w) = Some vm ->
    vpas w !! (ns, n) = Some v ->
    hasSlash ns = false -> hasSlash n = false ->
    uLabels v !! "app.kubernetes.io/managed-by" = Some "vpa-operator" ->
    uLabels v !! "app.kubernetes.io/created-by" = Some name ->
    exists wl, matchesNow r (Spec vm) w wl /\ wNamespace wl = ns /\ wName wl ++ "-vpa" = n.

(** One orphan in the store, and its delete (the fifth request of the
    reconcile) refused. *)
Definition orphanWorld : World :=
  testWorld (testManager true) [] oneOrphan (failAt 4 forbidden).

(** The entry [Reconcile] logs when the sweep returns an error. *)
Definition cleanupFailure (e : error) : LogEntry :=
  LogError e "failed to cleanup orphaned VPAs".

(** The same store, and every request answered. *)
Definition sweptWorld : World :=
  testWorld (testManager true) [] oneOrphan noFaults.

(** The store of [TestReconcile_RemovesVPAWhenDeploymentDeleted] next to a
    deployment that matches: one orphan and one workload, every request
    answered. *)
Definition staleOrphanWorld : World :=
  testWorld (testManager true) [testDeployment "deployment-1" "uid-1"] oneOrphan noFaults.

(** The cluster of [TestReconcile_UpdatesStatusWithManagedVPAsCount]: two
    matching deployments and no VPA yet. *)
Definition countsWorld : World :=
  testWorld (testManager true)
    [testDeployment "deployment-1" "uid-1"; testDeployment "deployment-2" "uid-2"]
    ∅ noFaults.

(** A manager that selects the namespaces labelled [vpa-enabled=true] and
    sets no selector for any workload kind. *)
Definition noKindSelectorManager : VpaManager :=
  {| vmName := "test-vpamanager";
     Spec := {| Enabled := true; UpdateMode := "Auto";
                NamespaceSelector := Some (matchLabel "vpa-enabled" "true");
                DeploymentSelector := None; StatefulSetSelector := None;
                DaemonSetSelector := None; ResourcePolicy := None |};
     Status := emptyStatus |}.

(** A manager with no namespace selector and the empty selector for
    deployments and stateful sets. *)
Definition allNamespacesManager : VpaManager :=
  {| vmName := "test-vpamanager";
     Spec := {| Enabled := true; UpdateMode := "Auto";
                NamespaceSelector := None;
                DeploymentSelector := Some emptySelector;
                StatefulSetSelector := Some emptySelector;
                DaemonSetSelector := None; ResourcePolicy := None |};
     Status := emptyStatus |}.

Definition testObject : WorkloadObject :=
  {| oName := "test-app"; oNamespace := "test-ns"; oUID := "test-uid"; oLabels := vpaEnabled |}.

Definition decodeFailure : error := mkError ReasonUnknown "unexpected end of JSON input".

Definition createRequest : Request :=
  {| Operation := "CREATE"; Object := inr testObject; OldObject := inl decodeFailure |}.

(** ** What is stated of an admitted update *)

(** The VPA an update leaves under [key] when the workload matched before
    and matches now: the one found there with its spec replaced, or else
    the freshly built one. *)
Definition updatedVPA (h : Handler) (vpaManager : VpaManager) (obj : WorkloadObject)
    (key : string * string) (found : option Unstructured) : Unstructured :=
  match found with
  | Some existing => setSpec (stored key existing) (buildVPA h vpaManager obj key.2)
  | None => buildVPA h vpaManager obj key.2
  end.

(** The store and the operation metrics after [handleUpdate], by the match
    of the old and of the new object.  When both match, the VPA stored for
    the workload has the spec that [buildVPA] makes under the new match;
    one that was there keeps its labels, its owner references and its
    other top-level keys, and else the stored VPA is the built one. *)
Definition updateOutcome (h : Handler) (newObj : WorkloadObject)
    (oldMatch newMatch : option VpaManager) (w w' : World) : Prop :=
  let key := (oNamespace newObj, oName newObj ++ "-vpa") in
  match oldMatch, newMatch with
  | None, None =>
      vpas w' = vpas w /\ metrics w' = metrics w
  | None, Some newM =>
      vpas w' = match vpas w !! key with
                | Some _ => vpas w
                | None => <[ key := buildVPA h newM newObj key.2 ]> (vpas w)
                end /\
      metrics w' = (metrics w ++ [VPAOperationsTotalInc "create" (vmName newM)])%list
  | Some oldM, None =>
      vpas w' = delete key (vpas w) /\
      metrics w' = (metrics w ++ [VPAOperationsTotalInc "delete" (vmName oldM)])%list
  | Some _, Some newM =>
      let built := buildVPA h newM newObj key.2 in
      (exists v, vpas w' !! key = Some v /\
         uObject v !! "spec" = uObject built !! "spec" /\
         match vpas w !! key with
         | Some existing =>
             uLabels v = uLabels existing /\
             uOwnerReferences v = uOwnerReferences existing /\
             forall k, k <> "spec" -> uObject v !! k = uObject existing !! k
         | None => v = built
         end) /\
      (forall key', key' <> key -> vpas w' !! key' = vpas w !! key') /\
      metrics w' = metrics w
  end.

(** The deployment of the label tests before and after it gets the label,
    and the update that adds it. *)
Definition unlabelledObject : WorkloadObject :=
  {| oName := "test-app"; oNamespace := "test-ns"; oUID := "test-uid"; oLabels := ∅ |}.

Definition addLabelRequest : Request :=
  {| Operation := "UPDATE"; Object := inr testObject; OldObject := inr unlabelledObject |}.

(** An update of the labelled deployment that keeps its label, and a
    cluster in which a VPA of another target is stored under the name of
    its VPA. *)
Definition keepLabelRequest : Request :=
  {| Operation := "UPDATE"; Object := inr testObject; OldObject := inr testObject |}.

Definition staleWorld : World :=
  testWorld (testManager true) []
    {[ ("test-ns", "test-app-vpa") := createUnstructuredVPA "test-app-vpa" "test-ns" "old-app" ]}
    noFaults.

(** ** Further statements *)

(** [sub] occurs in [s]. *)
Definition occursIn (sub s : string) : Prop :=
  exists pre post, s = pre ++ sub ++ post.

(** The test of the loop of [findMatchingVpaManager]: the manager is
    enabled and both its namespace selector and its selector for the kind
    of the handler accept. *)
Definition eligible (h : Handler) (namespaceLabels : gmap string string)
    (obj : WorkloadObject) (vm : VpaManager) : bool :=
  Enabled (Spec vm) &&
  handlerMatches h namespaceLabels (NamespaceSelector (Spec vm)) &&
  handlerMatches h (oLabels obj) (handlerSelector h (Spec vm)).

Definition deleteRequest (obj : WorkloadObject) : Request :=
  {| Operation := "DELETE"; Object := inl decodeFailure; OldObject := inr obj |}.

(** The selector a provider hands to the server: none for a nil selector,
    else the compiled one. *)
Definition listingSelector (selector : option LabelSelector) : error + option Selector :=
  match selector with
  | None => inr None
  | Some _ =>
      match LabelSelectorAsSelector selector with
      | inl err => inl err
      | inr s => inr (Some s)
      end
  end.

Definition invalidSelector : LabelSelector :=
  {| MatchLabels := ∅;
     MatchExpressions := [ {| lsrKey := "tier"; lsrOperator := "Near"; lsrValues := [] |} ] |}.

(** A VPA that carries the name of another manager, stored next to an
    orphan of the manager of the tests. *)
Definition foreignVPA : Unstructured :=
  {| uGVK := vpaGVK; uName := "other-vpa"; uNamespace := "test-ns";
     uLabels := {[ managedByLabel := "vpa-operator"; createdByLabel := "other-vpamanager" ]};
     uOwnerReferences := []; uObject := ∅ |}.

Definition foreignWorld : World :=
  testWorld (testManager true) [testDeployment "deployment-1" "uid-1"]
    (<[ ("test-ns", "other-vpa") := foreignVPA ]> oneOrphan) noFaults.
(** * Properties *)

Local Open Scope list_scope.

#[local] Arguments IsNotFound : simpl never.

(** ** Running the monad *)

Lemma bind_run {A B : Type} (m : M A) (k : A -> M B) (w : World) :
  bind m k w = k (m w).1 (m w).2.
Proof. unfold bind. by destruct (m w). Qed.

Lemma ret_run {A : Type} (a : A) (w : World) : ret a w = (a, w).
Proof. done. Qed.

Lemma steady_refl (w : World) : steady w w.
Proof. by split. Qed.

Lemma steady_trans (w1 w2 w3 : World) : steady w1 w2 -> steady w2 w3 -> steady w1 w3.
Proof.
  intros [] []. split; try congruence; by etrans.
Qed.

Lemma keeps_ret {A : Type} (a : A) : keeps (ret a).
Proof. intros w. apply steady_refl. Qed.

Lemma keeps_bind {A B : Type} (m : M A) (k : A -> M B) :
  keeps m -> (forall a, keeps (k a)) -> keeps (bind m k).
Proof.
  intros Hm Hk w. rewrite bind_run.
  eapply steady_trans; [apply Hm | apply Hk].
Qed.

Lemma keeps_request (c : APICall) : keeps (request c).
Proof. intros w. split; simpl; try done. by apply prefix_app_r. Qed.

Lemma keeps_emit (e : MetricEvent) : keeps (emit e).
Proof. intros w. split; simpl; try done. by apply prefix_app_r. Qed.

Lemma keeps_logInfo (msg : string) : keeps (logInfo msg).
Proof. intros w. split; simpl; try done. by apply prefix_app_r. Qed.

Lemma keeps_logError (e : error) (msg : string) : keeps (logError e msg).
Proof. intros w. split; simpl; try done. by apply prefix_app_r. Qed.

Lemma keeps_setVpas {A : Type} (f : World -> A) (g : World -> gmap (string * string) Unstructured) :
  keeps (fun w => (f w, setVpas (g w) w)).
Proof. intros w. by split. Qed.

Lemma keeps_pure {A : Type} (f : World -> A) : keeps (fun w => (f w, w)).
Proof. intros w. apply steady_refl. Qed.

Create HintDb keeps.
#[export] Hint Resolve keeps_ret keeps_request keeps_emit keeps_logInfo keeps_logError : keeps.

(** Splits a computation along its binds and case distinctions. *)
Ltac keeps_step :=
  match goal with
  | |- keeps (bind _ _) => apply keeps_bind; [| intros ?]
  | |- keeps (match ?x with _ => _ end) => destruct x
  | |- keeps (if ?x then _ else _) => destruct x
  | |- keeps (let '(_, _) := ?x in _) => destruct x
  | |- keeps _ => solve [eauto with keeps]
  end.

Ltac keeps_tac := repeat keeps_step.

Lemma keeps_RecordVPAOperation (op name : string) : keeps (RecordVPAOperation op name).
Proof. unfold RecordVPAOperation. keeps_tac. Qed.

Lemma keeps_RecordReconcile (name : string) (err : option error) : keeps (RecordReconcile name err).
Proof. unfold RecordReconcile. keeps_tac. Qed.

Lemma keeps_RecordWebhookRequest (op : string) (err : option error) :
  keeps (RecordWebhookRequest op err).
Proof. unfold RecordWebhookRequest. keeps_tac. Qed.

Lemma keeps_clientGetVPA (ns name : string) : keeps (clientGetVPA ns name).
Proof.
  unfold clientGetVPA. apply keeps_bind; [auto with keeps | intros fault].
  intros w. destruct fault; [apply steady_refl |].
  destruct (vpas w !! (ns, name)); apply steady_refl.
Qed.

Lemma keeps_clientCreateVPA (vpa : Unstructured) : keeps (clientCreateVPA vpa).
Proof.
  unfold clientCreateVPA. apply keeps_bind; [auto with keeps | intros fault].
  intros w. destruct fault; [apply steady_refl |].
  destruct (vpas w !! _); [apply steady_refl | by split].
Qed.

Lemma keeps_clientUpdateVPA (vpa : Unstructured) : keeps (clientUpdateVPA vpa).
Proof.
  unfold clientUpdateVPA. apply keeps_bind; [auto with keeps | intros fault].
  intros w. destruct fault; [apply steady_refl |].
  destruct (vpas w !! _); [by split | apply steady_refl].
Qed.

Lemma keeps_clientDeleteVPA (ns name : string) : keeps (clientDeleteVPA ns name).
Proof.
  unfold clientDeleteVPA. apply keeps_bind; [auto with keeps | intros fault].
  intros w. destruct fault as [e|].
  - destruct (IsNotFound (Some e)); [by split | apply steady_refl].
  - destruct (vpas w !! _); [by split | apply steady_refl].
Qed.

Lemma keeps_clientListVPAs (createdBy : string) (matching : gmap string string) :
  keeps (clientListVPAs createdBy matching).
Proof.
  unfold clientListVPAs. apply keeps_bind; [auto with keeps | intros fault].
  intros w. destruct fault; apply steady_refl.
Qed.

Lemma keeps_clientListVpaManagers : keeps clientListVpaManagers.
Proof.
  unfold clientListVpaManagers. apply keeps_bind; [auto with keeps | intros fault].
  intros w. destruct fault; apply steady_refl.
Qed.

Lemma keeps_clientGetNamespace (name : string) : keeps (clientGetNamespace name).
Proof.
  unfold clientGetNamespace. apply keeps_bind; [auto with keeps | intros fault].
  intros w. destruct fault; [apply steady_refl |].
  destruct (findNamespace _ _); apply steady_refl.
Qed.

Lemma keeps_clientListNamespaces (sel : option Selector) : keeps (clientListNamespaces sel).
Proof.
  unfold clientListNamespaces. apply keeps_bind; [auto with keeps | intros fault].
  intros w. destruct fault; [apply steady_refl |]. destruct sel; apply steady_refl.
Qed.

Lemma keeps_clientGetVpaManager (name : string) : keeps (clientGetVpaManager name).
Proof.
  unfold clientGetVpaManager. apply keeps_bind; [auto with keeps | intros fault].
  intros w. destruct fault; [apply steady_refl |].
  destruct (findVpaManager _ _); apply steady_refl.
Qed.

#[export] Hint Resolve keeps_RecordVPAOperation keeps_RecordReconcile
  keeps_RecordWebhookRequest keeps_clientGetVPA keeps_clientCreateVPA
  keeps_clientUpdateVPA keeps_clientDeleteVPA keeps_clientListVPAs
  keeps_clientListVpaManagers keeps_clientGetNamespace keeps_clientListNamespaces
  keeps_clientGetVpaManager : keeps.

(** ** The builders *)

Lemma baseSpec_no_policy (vpaManager : VpaManager) (kind name : string) :
  baseSpec vpaManager kind name !! "resourcePolicy" = None.
Proof. unfold baseSpec. by rewrite lookup_insert_ne, lookup_singleton_ne. Qed.

Lemma copiedInto_fmap (src : option (gmap string string)) :
  copiedInto src ((fun m => VMap (VString <$> m)) <$> src).
Proof.
  destruct src as [m|]; simpl; [| done].
  exists (VString <$> m). split; [done |]. intros k. by rewrite lookup_fmap.
Qed.

Lemma containerPolicyEntry_name (cp : ContainerResourcePolicy) :
  containerPolicyEntry cp !! "containerName" = Some (VString (ContainerName cp)).
Proof.
  unfold containerPolicyEntry.
  destruct (MinAllowed cp), (MaxAllowed cp);
    repeat (rewrite lookup_insert_ne by done); by rewrite lookup_singleton_eq.
Qed.

Lemma containerPolicyEntry_min (cp : ContainerResourcePolicy) :
  containerPolicyEntry cp !! "minAllowed" = (fun m => VMap (VString <$> m)) <$> MinAllowed cp.
Proof.
  unfold containerPolicyEntry.
  destruct (MinAllowed cp), (MaxAllowed cp); simpl;
    repeat (rewrite lookup_insert_ne by done);
    by rewrite ?lookup_insert_eq, ?lookup_singleton_ne.
Qed.

Lemma containerPolicyEntry_max (cp : ContainerResourcePolicy) :
  containerPolicyEntry cp !! "maxAllowed" = (fun m => VMap (VString <$> m)) <$> MaxAllowed cp.
Proof.
  unfold containerPolicyEntry.
  destruct (MinAllowed cp), (MaxAllowed cp); simpl;
    rewrite ?lookup_insert_eq; try done;
    repeat (rewrite lookup_insert_ne by done); by rewrite ?lookup_singleton_ne.
Qed.

(** The block shared by the builders, on a spec that has no resource
    policy yet. *)
Lemma addResourcePolicy_emitted (vpaManager : VpaManager) (v : Unstructured)
    (base : gmap string value) :
  base !! "resourcePolicy" = None ->
  specOf v = Some (addResourcePolicy vpaManager base) ->
  resourcePolicyEmitted vpaManager v.
Proof.
  intros Hbase Hspec. exists (addResourcePolicy vpaManager base).
  split; [done |]. unfold addResourcePolicy.
  destruct (ResourcePolicy (Spec vpaManager)) as [rp|]; [| split; [by rewrite Hbase | done]].
  destruct (ContainerPolicies rp) as [|cp cps] eqn:Hcps; simpl.
  { split; [by rewrite Hbase | done]. }
  split.
  - intros m'. rewrite lookup_insert_eq. intros [= <-].
    by rewrite lookup_singleton_eq.
  - eexists. split; [| split].
    + unfold nestedField. rewrite lookup_insert_eq. by rewrite lookup_singleton_eq.
    + simpl. by rewrite length_fmap.
    + intros i cp' Hi. exists (containerPolicyEntry cp'). split; [| split; [| split]].
      * change (((fun c => VMap (containerPolicyEntry c)) <$> (cp :: cps)) !! i
                = Some (VMap (containerPolicyEntry cp'))).
        by rewrite list_lookup_fmap, Hi.
      * apply containerPolicyEntry_name.
      * rewrite containerPolicyEntry_min. apply copiedInto_fmap.
      * rewrite containerPolicyEntry_max. apply copiedInto_fmap.
Qed.

(** C7. Each of the three builders leaves ["resourcePolicy"] out of the spec
    when the manager has no resource policy or no container policies,
    never emits an empty ["containerPolicies"] list, and otherwise emits
    one entry per container policy, with its container name and copies of
    its non-nil [minAllowed] and [maxAllowed] maps. *)
Theorem builders_resource_policy (vpaManager : VpaManager)
    (kind name namespace uid vpaName : string) (h : Handler) (obj : WorkloadObject) :
  resourcePolicyEmitted vpaManager
    (buildVPAForWorkload vpaManager kind name namespace uid vpaName) /\
  resourcePolicyEmitted vpaManager (buildVPA h vpaManager obj vpaName).
Proof.
  split; eapply addResourcePolicy_emitted;
    first [apply baseSpec_no_policy | unfold specOf; simpl; by rewrite lookup_singleton_eq].
Qed.

Lemma addResourcePolicy_other (vpaManager : VpaManager) (base : gmap string value) (k : string) :
  k <> "resourcePolicy" -> addResourcePolicy vpaManager base !! k = base !! k.
Proof.
  intros Hk. unfold addResourcePolicy.
  destruct (ResourcePolicy _) as [rp|]; [| done].
  destruct (0 <? _)%nat; [| done]. by rewrite lookup_insert_ne.
Qed.

Lemma targetRef_of_spec (vpaManager : VpaManager) (kind name : string) :
  let spec := addResourcePolicy vpaManager (baseSpec vpaManager kind name) in
  nestedField "targetRef" "kind" spec = Some (VString kind) /\
  nestedField "targetRef" "name" spec = Some (VString name).
Proof.
  unfold nestedField. rewrite addResourcePolicy_other by done.
  unfold baseSpec. rewrite lookup_insert_eq. split.
  - by rewrite lookup_insert_ne, lookup_insert_eq.
  - by rewrite !lookup_insert_ne, lookup_singleton_eq.
Qed.

(** C8. A VPA built by the reconciler or by either webhook for a workload,
    under the name every caller passes ([<name>-vpa]), lies in the
    namespace of the workload, carries the managed-by and created-by
    labels, and targets the kind and the name of the workload: the kind
    handed to the reconciler's builder, ["Deployment"] for the builder of
    the deployment webhook and ["StatefulSet"] for the builder of the
    stateful set webhook. *)
Theorem builders_identity (vpaManager : VpaManager) (kind name namespace uid : string)
    (obj : WorkloadObject) :
  identifies vpaManager kind namespace name
    (buildVPAForWorkload vpaManager kind name namespace uid (vpaNameOf name)) /\
  identifies vpaManager "Deployment" (oNamespace obj) (oName obj)
    (buildVPA DeploymentWebhookHandler vpaManager obj (vpaNameOf (oName obj))) /\
  identifies vpaManager "StatefulSet" (oNamespace obj) (oName obj)
    (buildVPA StatefulSetWebhookHandler vpaManager obj (vpaNameOf (oName obj))).
Proof.
  split; [| split]; (split; [done | split; [done | split; [| split]]]); simpl.
  1, 4, 7: by rewrite lookup_insert_eq.
  1, 3, 5: by rewrite lookup_insert_ne, lookup_singleton_eq.
  all: eexists; split;
    [unfold specOf; simpl; by rewrite lookup_singleton_eq | apply targetRef_of_spec].
Qed.

(** ** The admission entry point *)

(** C10. [Handle] answers allowed whatever the operation and whatever its
    handler returns.  The handler's error only adds a log entry and is
    recorded by the webhook metrics: the request counter gets a sample
    under the operation with result ["error"] and the class
    [ClassifyError] gives the error, and with result ["success"] and no
    class when the handler returned nil; the duration is observed under
    the same operation and result. *)
Theorem Handle_always_allowed (h : Handler) (req : Request) (w : World) :
  let err := (dispatch h req w).1 in
  let w1 := (dispatch h req w).2 in
  let out := Handle h req w in
  Allowed out.1 = true /\
  metrics out.2 =
    metrics w1 ++
      match err with
      | Some e => [ WebhookRequestsTotalInc (Operation req) "error" (ClassifyError (Some e));
                    WebhookDurationObserve (Operation req) "error" ]
      | None => [ WebhookRequestsTotalInc (Operation req) "success" EmptyString;
                  WebhookDurationObserve (Operation req) "success" ]
      end /\
  logs out.2 =
    logs w1 ++ match err with Some e => [LogError e "webhook handler error"] | None => [] end /\
  vpas out.2 = vpas w1 /\
  calls out.2 = calls w1 /\
  (Operation req = "CREATE" -> dispatch h req = handleCreate h req) /\
  (Operation req = "UPDATE" -> dispatch h req = handleUpdate h req) /\
  (Operation req = "DELETE" -> dispatch h req = handleDelete h req).
Proof.
  intros err w1 out. subst out. unfold Handle. rewrite bind_run.
  fold err w1. unfold RecordWebhookRequest, classifyResult.
  assert (Hops :
    (Operation req = "CREATE" -> dispatch h req = handleCreate h req) /\
    (Operation req = "UPDATE" -> dispatch h req = handleUpdate h req) /\
    (Operation req = "DELETE" -> dispatch h req = handleDelete h req)).
  { unfold dispatch. repeat split; intros ->; reflexivity. }
  destruct err as [e|];
    simpl; rewrite ?app_nil_r, <- ?app_assoc; simpl;
    (split; [done | split; [done | split; [done | split; [done | split; [done | apply Hops]]]]]).
Qed.

(** ** The reconciler on a disabled manager *)

(** C6. For a manager with [enabled=false], [Reconcile] sends the one request
    that reads the manager and nothing else, so no VPA is created, updated
    or deleted; VPAs and managers (their status included) stay as they
    were and no requeue is asked for.  When that read is answered, the
    outcome is success: no error, and a success sample in the metrics. *)
Theorem Reconcile_disabled_is_noop (r : VpaManagerReconciler) (name : string) (now : Z)
    (w : World) (vm : VpaManager) :
  findVpaManager name (vpaManagers w) = Some vm ->
  Enabled (Spec vm) = false ->
  let out := Reconcile r name now w in
  vpas out.2 = vpas w /\
  vpaManagers out.2 = vpaManagers w /\
  calls out.2 = calls w ++ [GetVpaManagerCall name] /\
  Requeue out.1.1 = false /\
  RequeueAfter out.1.1 = 0%Z /\
  (faults w (length (calls w)) = None ->
     out.1.2 = None /\
     metrics out.2 =
       metrics w ++ [ ReconcileTotalInc (vmName vm) "success" EmptyString;
                      ReconcileDurationObserve (vmName vm) "success" ]).
Proof.
  intros Hfind Hoff out. subst out.
  unfold Reconcile, clientGetVpaManager. rewrite !bind_run. simpl.
  destruct (faults w (length (calls w))) as [e|] eqn:Hfault; simpl.
  - destruct (IsNotFound (Some e)); repeat split; done.
  - rewrite Hfind. simpl. rewrite Hoff. simpl.
    rewrite <- app_assoc. repeat split; done.
Qed.

Lemma Reconcile_disabled_witness :
  findVpaManager "test-vpamanager"
    (vpaManagers (testWorld (testManager false) [testDeployment "test-deployment" "uid-1"] ∅ noFaults))
    = Some (testManager false) /\
  Enabled (Spec (testManager false)) = false /\
  calls (Reconcile defaultReconciler "test-vpamanager" 0%Z
           (testWorld (testManager false) [testDeployment "test-deployment" "uid-1"] ∅ noFaults)).2
    = [GetVpaManagerCall "test-vpamanager"].
Proof.
  split; [reflexivity | split; [reflexivity |]].
  apply (Reconcile_disabled_is_noop defaultReconciler "test-vpamanager" 0%Z
           (testWorld (testManager false) [testDeployment "test-deployment" "uid-1"] ∅ noFaults)
           (testManager false)); reflexivity.
Defined.

(** ** The orphan sweep *)

Lemma clientDeleteVPA_run (ns name : string) (w : World) :
  let out := clientDeleteVPA ns name w in
  steady w out.2 /\
  calls out.2 = calls w ++ [DeleteVPACall ns name] /\
  match faults w (length (calls w)) with
  | Some e =>
      out.1 = Some e /\
      vpas out.2 = if IsNotFound (Some e) then delete (ns, name) (vpas w) else vpas w
  | None =>
      vpas out.2 = delete (ns, name) (vpas w) /\
      (out.1 = None \/ IsNotFound out.1 = true)
  end.
Proof.
  intros out. split; [apply keeps_clientDeleteVPA |]. subst out.
  unfold clientDeleteVPA. rewrite bind_run. simpl.
  destruct (faults w (length (calls w))) as [e|].
  - destruct (IsNotFound (Some e)); done.
  - destruct (vpas w !! (ns, name)) eqn:Hv; simpl; split; try done; auto.
    split; [| by right]. symmetry. by apply delete_id.
Qed.

Lemma orphansOf_cons (currentVPAs : gmap string bool) (vpa : Unstructured)
    (rest : list Unstructured) :
  orphansOf currentVPAs (vpa :: rest) =
    if isOrphan currentVPAs vpa then vpa :: orphansOf currentVPAs rest
    else orphansOf currentVPAs rest.
Proof. done. Qed.

Lemma deleteOrphans_cons (currentVPAs : gmap string bool) (vpa : Unstructured)
    (rest : list Unstructured) (deleted : nat) (w : World) :
  deleteOrphans currentVPAs (vpa :: rest) deleted w =
    if isOrphan currentVPAs vpa then
      let out := clientDeleteVPA (uNamespace vpa) (uName vpa) w in
      match out.1 with
      | Some e =>
          if negb (IsNotFound out.1) then ((deleted, Some e), out.2)
          else deleteOrphans currentVPAs rest (S deleted) out.2
      | None => deleteOrphans currentVPAs rest (S deleted) out.2
      end
    else deleteOrphans currentVPAs rest deleted w.
Proof.
  cbn [deleteOrphans]. fold (isOrphan currentVPAs vpa).
  destruct (isOrphan currentVPAs vpa); [| done].
  rewrite bind_run. simpl.
  destruct (clientDeleteVPA _ _ w) as [[e|] w1]; simpl; [destruct (negb _) |]; done.
Qed.

(** The calls of the sweep loop: a delete for each orphan in turn, up to and
    with the first one answered by an error other than not-found. *)
Lemma deleteOrphans_calls (currentVPAs : gmap string bool) (items : list Unstructured) :
  forall (deleted : nat) (w : World),
    let out := deleteOrphans currentVPAs items deleted w in
    let orphans := orphansOf currentVPAs items in
    match out.1.2 with
    | None =>
        out.1.1 = (deleted + length orphans)%nat /\
        calls out.2 = calls w ++ (deleteCallOf <$> orphans)
    | Some e =>
        exists k, (k < length orphans)%nat /\
          out.1.1 = (deleted + k)%nat /\
          calls out.2 = calls w ++ (deleteCallOf <$> take (S k) orphans) /\
          faults w (length (calls w) + k) = Some e /\
          IsNotFound (Some e) = false /\
          forall i, (i < k)%nat -> IsNotFound (faults w (length (calls w) + i)) = true \/
                                   faults w (length (calls w) + i) = None
    end.
Proof.
  induction items as [|vpa rest IH]; intros deleted w out orphans; subst out orphans.
  { simpl. split; [lia | by rewrite app_nil_r]. }
  rewrite deleteOrphans_cons, orphansOf_cons.
  destruct (isOrphan currentVPAs vpa); [| apply IH].
  destruct (clientDeleteVPA_run (uNamespace vpa) (uName vpa) w) as (Hst & Hcalls & Hout).
  cbv zeta.
  set (out := clientDeleteVPA (uNamespace vpa) (uName vpa) w) in *.
  assert (Hnext :
    IsNotFound (faults w (length (calls w))) = true \/ faults w (length (calls w)) = None ->
    let out' := deleteOrphans currentVPAs rest (S deleted) out.2 in
    match out'.1.2 with
    | None =>
        out'.1.1 = (deleted + length (vpa :: orphansOf currentVPAs rest))%nat /\
        calls out'.2 = calls w ++ (deleteCallOf <$> vpa :: orphansOf currentVPAs rest)
    | Some e =>
        exists k, (k < length (vpa :: orphansOf currentVPAs rest))%nat /\
          out'.1.1 = (deleted + k)%nat /\
          calls out'.2
            = calls w ++ (deleteCallOf <$> take (S k) (vpa :: orphansOf currentVPAs rest)) /\
          faults w (length (calls w) + k) = Some e /\
          IsNotFound (Some e) = false /\
          forall i, (i < k)%nat -> IsNotFound (faults w (length (calls w) + i)) = true \/
                                   faults w (length (calls w) + i) = None
    end).
  { intros Hbenign out'. subst out'. specialize (IH (S deleted) out.2). cbv zeta in IH.
    destruct ((deleteOrphans currentVPAs rest (S deleted) out.2).1.2) as [e|].
    - destruct IH as (k & Hk & Hn & Hc & Hf & Hnf & Hbefore). exists (S k).
      rewrite Hc, Hcalls, <- app_assoc.
      rewrite (steady_faults _ _ Hst), Hcalls, length_app in Hf, Hbefore.
      simpl in Hf, Hbefore.
      replace (length (calls w) + S k)%nat with (length (calls w) + 1 + k)%nat by lia.
      repeat split; try done; simpl; try lia.
      intros [|i] Hi; [by rewrite Nat.add_0_r |].
      replace (length (calls w) + S i)%nat with (length (calls w) + 1 + i)%nat by lia.
      apply Hbefore. lia.
    - destruct IH as [Hn Hc]. rewrite Hc, Hcalls, <- app_assoc.
      split; [simpl; lia | done]. }
  destruct (faults w (length (calls w))) as [e'|] eqn:Hfault.
  - destruct Hout as [He _]. rewrite He.
    destruct (IsNotFound (Some e')) eqn:Hnf; simpl; [apply Hnext; by left |].
    exists O. rewrite !Nat.add_0_r.
    repeat split; try done; simpl; lia.
  - destruct Hout as [_ He].
    destruct out.1 as [e|] eqn:Herr; [| apply Hnext; by right].
    destruct He as [He | He]; [done |]. rewrite He. simpl. apply Hnext; by right.
Qed.

(** The store after the sweep loop: objects only go away, those that are
    not orphans of the listing stay, and when the loop ends without error
    every orphan of the listing is gone. *)
Lemma deleteOrphans_store (currentVPAs : gmap string bool) (items : list Unstructured) :
  forall (deleted : nat) (w : World),
    let out := deleteOrphans currentVPAs items deleted w in
    steady w out.2 /\
    (forall key, vpas out.2 !! key = None \/ vpas out.2 !! key = vpas w !! key) /\
    (forall key,
       (forall v, v ∈ orphansOf currentVPAs items -> (uNamespace v, uName v) <> key) ->
       vpas out.2 !! key = vpas w !! key) /\
    (out.1.2 = None ->
     forall v, v ∈ orphansOf currentVPAs items -> vpas out.2 !! (uNamespace v, uName v) = None).
Proof.
  induction items as [|vpa rest IH]; intros deleted w out; subst out.
  { simpl. split; [apply steady_refl |]. split; [by right |]. split; [done |].
    intros _ v Hv. by apply elem_of_nil in Hv. }
  rewrite deleteOrphans_cons, orphansOf_cons.
  destruct (isOrphan currentVPAs vpa); [| apply IH].
  destruct (clientDeleteVPA_run (uNamespace vpa) (uName vpa) w) as (Hst & Hcalls & Hout).
  cbv zeta.
  set (out := clientDeleteVPA (uNamespace vpa) (uName vpa) w) in *.
  set (k := (uNamespace vpa, uName vpa)) in *.
  assert (Hnext :
    vpas out.2 = delete k (vpas w) ->
    let out' := deleteOrphans currentVPAs rest (S deleted) out.2 in
    steady w out'.2 /\
    (forall key, vpas out'.2 !! key = None \/ vpas out'.2 !! key = vpas w !! key) /\
    (forall key,
       (forall v, v ∈ vpa :: orphansOf currentVPAs rest -> (uNamespace v, uName v) <> key) ->
       vpas out'.2 !! key = vpas w !! key) /\
    (out'.1.2 = None ->
     forall v, v ∈ vpa :: orphansOf currentVPAs rest ->
       vpas out'.2 !! (uNamespace v, uName v) = None)).
  { intros Hdel out'. subst out'.
    destruct (IH (S deleted) out.2) as (Hst' & Hmono & Hframe & Hgone).
    assert (Hk : forall key,
      vpas (deleteOrphans currentVPAs rest (S deleted) out.2).2 !! key = None \/
      (key <> k /\
       vpas (deleteOrphans currentVPAs rest (S deleted) out.2).2 !! key = vpas w !! key)).
    { intros key. destruct (Hmono key) as [Hn | Hn]; [by left |].
      rewrite Hn, Hdel. destruct (decide (k = key)) as [<- | Hne].
      - left. apply lookup_delete_eq.
      - right. split; [done |]. by apply lookup_delete_ne. }
    split; [by eapply steady_trans |]. split; [| split].
    - intros key. destruct (Hk key) as [Hn | [_ Hn]]; auto.
    - intros key Hkey. rewrite Hframe.
      + rewrite Hdel. apply lookup_delete_ne. apply (Hkey vpa). by left.
      + intros v Hv. apply Hkey. by right.
    - intros Hok v Hv. apply elem_of_cons in Hv as [-> | Hv]; [| by apply Hgone].
      destruct (Hk k) as [Hn | [Hne _]]; done. }
  destruct (faults w (length (calls w))) as [e'|] eqn:Hfault.
  - destruct Hout as [He Hv]. rewrite He.
    destruct (IsNotFound (Some e')) eqn:Hnf; simpl; [by apply Hnext |].
    split; [done |]. rewrite Hv. split; [by right |]. split; done.
  - destruct Hout as [Hv He].
    destruct out.1 as [e|] eqn:Herr; [| by apply Hnext].
    destruct He as [He | He]; [done |]. rewrite He. simpl. by apply Hnext.
Qed.
Lemma cleanupOrphanedVPAs_run (vpaManager : VpaManager)
    (currentWorkloads : list WorkloadReference) (w : World) :
  let w1 := setCalls (calls w ++ [ListVPAsCall (vmName vpaManager)]) w in
  cleanupOrphanedVPAs vpaManager currentWorkloads w =
    match faults w (length (calls w)) with
    | Some e => ((O, Some e), w1)
    | None =>
        deleteOrphans (currentVPAsOf currentWorkloads) (sweepCandidates vpaManager w) 0 w1
    end.
Proof.
  unfold cleanupOrphanedVPAs, clientListVPAs. rewrite !bind_run. simpl.
  by destruct (faults w (length (calls w))).
Qed.

(** The sweep loop at the first delete that is refused: when the delete
    of the orphan of index [k] is answered by an error other than
    not-found, and those before it nil or not-found, the loop returns that
    error and the count of the orphans before it, after the deletes up to
    that one. *)
Lemma deleteOrphans_stops (currentVPAs : gmap string bool) (items : list Unstructured) :
  forall (deleted k : nat) (w : World) (e : error),
    let out := deleteOrphans currentVPAs items deleted w in
    let orphans := orphansOf currentVPAs items in
    (k < length orphans)%nat ->
    faults w (length (calls w) + k) = Some e ->
    IsNotFound (Some e) = false ->
    (forall i, (i < k)%nat ->
       IsNotFound (faults w (length (calls w) + i)) = true \/
       faults w (length (calls w) + i) = None) ->
    out.1 = ((deleted + k)%nat, Some e) /\
    calls out.2 = calls w ++ (deleteCallOf <$> take (S k) orphans).
Proof.
  induction items as [|vpa rest IH]; intros deleted k w e out orphans Hk Hf Hnf Hbefore;
    subst out orphans.
  { simpl in Hk. lia. }
  rewrite deleteOrphans_cons. rewrite orphansOf_cons in *.
  destruct (isOrphan currentVPAs vpa); [| by apply IH].
  destruct (clientDeleteVPA_run (uNamespace vpa) (uName vpa) w) as (Hst & Hcalls & Hout).
  cbv zeta.
  set (out := clientDeleteVPA (uNamespace vpa) (uName vpa) w) in *.
  destruct k as [|k].
  - rewrite Nat.add_0_r in Hf. rewrite Hf in Hout. destruct Hout as [He _].
    rewrite He, Hnf. simpl. rewrite Nat.add_0_r. split; [done |].
    by rewrite Hcalls.
  - assert (Hnext :
      deleteOrphans currentVPAs rest (S deleted) out.2 =
        match out.1 with
        | Some e0 =>
            if negb (IsNotFound out.1) then ((deleted, Some e0), out.2)
            else deleteOrphans currentVPAs rest (S deleted) out.2
        | None => deleteOrphans currentVPAs rest (S deleted) out.2
        end).
    { destruct (Hbefore O ltac:(lia)) as [H0 | H0]; rewrite Nat.add_0_r in H0.
      - destruct (faults w (length (calls w))) as [e0|] eqn:Hf0; [| discriminate H0].
        destruct Hout as [He _]. rewrite He, H0. done.
      - rewrite H0 in Hout. destruct Hout as [_ [He | He]]; rewrite He; [done |].
        by destruct out.1. }
    rewrite <- Hnext.
    destruct (IH (S deleted) k out.2 e) as [Hres Hc].
    + simpl in Hk. lia.
    + rewrite (steady_faults _ _ Hst), Hcalls, length_app. simpl.
      rewrite <- Hf. f_equal. lia.
    + done.
    + intros i Hi. rewrite (steady_faults _ _ Hst), Hcalls, length_app. simpl.
      replace (length (calls w) + 1 + i)%nat with (length (calls w) + S i)%nat by lia.
      apply Hbefore. lia.
    + rewrite Hres, Hc, Hcalls. split; [f_equal; lia |].
      by rewrite <- app_assoc.
Qed.

(** C5, as the code has it.  When the listing of the sweep is answered and
    the delete of an orphan of the listing is answered by an error other
    than not-found, those of the orphans before it having been answered nil
    or not-found, [cleanupOrphanedVPAs] stops there: it returns that error
    together with the number of the orphans before it, and the deletes it
    has sent are those of the orphans up to that one, so none for a later
    one. *)
Theorem cleanup_stops_at_first_error (vpaManager : VpaManager)
    (currentWorkloads : list WorkloadReference) (w : World) (e : error) (k : nat) :
  let out := cleanupOrphanedVPAs vpaManager currentWorkloads w in
  let orphans := orphansOf (currentVPAsOf currentWorkloads) (sweepCandidates vpaManager w) in
  let first := (length (calls w) + 1)%nat in
  faults w (length (calls w)) = None ->
  (k < length orphans)%nat ->
  faults w (first + k) = Some e ->
  IsNotFound (Some e) = false ->
  (forall i, (i < k)%nat ->
     IsNotFound (faults w (first + i)) = true \/ faults w (first + i) = None) ->
  out.1 = (k, Some e) /\
  calls out.2 =
    calls w ++ ListVPAsCall (vmName vpaManager) :: (deleteCallOf <$> take (S k) orphans).
Proof.
  intros out orphans first Hlist Hk Hf Hnf Hbefore. subst out first.
  rewrite cleanupOrphanedVPAs_run. rewrite Hlist.
  destruct (deleteOrphans_stops (currentVPAsOf currentWorkloads)
              (sweepCandidates vpaManager w) 0 k
              (setCalls (calls w ++ [ListVPAsCall (vmName vpaManager)]) w) e)
    as [Hres Hc].
  - done.
  - simpl. by rewrite length_app.
  - done.
  - intros i Hi. simpl. rewrite length_app. by apply Hbefore.
  - fold orphans in Hc |- *. rewrite Hres. simpl in Hc. rewrite Hc, <- app_assoc.
    by split.
Qed.
(** C5, as the specification words it, fails: with two orphans listed and
    the delete of the first one refused, no delete is sent for the second. *)
Lemma sweep_does_not_continue : ~ sweepContinues (testManager true) [] sweepWorld.
Proof.
  intros H. specialize (H (stored ("test-ns", "b-vpa") orphanB)).
  assert (Hin : stored ("test-ns", "b-vpa") orphanB
                ∈ orphansOf (currentVPAsOf []) (sweepCandidates (testManager true) sweepWorld)).
  { vm_compute. apply list_elem_of_further, list_elem_of_here. }
  specialize (H Hin). vm_compute in H.
  repeat (apply elem_of_cons in H as [H | H]; [discriminate H |]).
  by apply elem_of_nil in H.
Qed.

Lemma cleanup_stops_witness :
  faults sweepWorld (length (calls sweepWorld)) = None /\
  faults sweepWorld 1 = Some forbidden /\
  IsNotFound (Some forbidden) = false /\
  (cleanupOrphanedVPAs (testManager true) [] sweepWorld).1 = (O, Some forbidden) /\
  calls (cleanupOrphanedVPAs (testManager true) [] sweepWorld).2 =
    [ListVPAsCall "test-vpamanager"; DeleteVPACall "test-ns" "a-vpa"].
Proof.
  split; [reflexivity |]. split; [reflexivity |]. split; [reflexivity |].
  destruct (cleanup_stops_at_first_error (testManager true) [] sweepWorld forbidden 0)
    as [Hres Hcalls].
  - reflexivity.
  - vm_compute. lia.
  - reflexivity.
  - reflexivity.
  - intros i Hi. lia.
  - split; [exact Hres |]. rewrite Hcalls. vm_compute. reflexivity.
Defined.
(** ** Frames of the reconciler *)

Lemma keeps_ensureVPAForWorkload (vm : VpaManager) (kind name ns uid vpaName : string) :
  keeps (ensureVPAForWorkload vm kind name ns uid vpaName).
Proof. unfold ensureVPAForWorkload. keeps_tac. Qed.

#[export] Hint Resolve keeps_ensureVPAForWorkload : keeps.

Lemma keeps_ensureWorkloads (vm : VpaManager) (wls : list Workload) :
  forall managed, keeps (ensureWorkloads vm wls managed).
Proof.
  induction wls as [|wl rest IH]; intros managed; simpl; [auto with keeps |].
  keeps_tac.
Qed.

Lemma keeps_eachPage {St : Type} (kind ns : string) (callback : WorkloadCallback St)
    (pages : list (list Workload)) :
  forall page acc, keeps (eachPage kind ns callback pages page acc).
Proof.
  induction pages as [|items rest IH]; intros page acc; simpl; [auto with keeps |].
  apply keeps_bind; [auto with keeps | intros fault].
  destruct fault; [auto with keeps |].
  destruct (eachItem callback items acc) as [[[] []] acc']; auto with keeps.
Qed.

Lemma keeps_ForEach {St : Type} (p : Provider) (ns : string) (selector : option LabelSelector)
    (callback : WorkloadCallback St) (acc : St) :
  keeps (ForEach p ns selector callback acc).
Proof.
  unfold ForEach. destruct selector; [destruct (LabelSelectorAsSelector _) |];
    try (intros w; apply keeps_eachPage); auto with keeps.
Qed.

Lemma keeps_List_ (p : Provider) (ns : string) (selector : option LabelSelector) :
  keeps (List_ p ns selector).
Proof.
  unfold List_. apply keeps_bind; [apply keeps_ForEach | auto with keeps].
Qed.

#[export] Hint Resolve keeps_ensureWorkloads keeps_List_ : keeps.

Lemma keeps_eachWorkloadConfig (vm : VpaManager) (ns : string) (wcs : list WorkloadConfig) :
  forall st, keeps (eachWorkloadConfig vm ns wcs st).
Proof.
  induction wcs as [|wc rest IH]; intros st; simpl; [auto with keeps |].
  keeps_tac.
Qed.

#[export] Hint Resolve keeps_eachWorkloadConfig : keeps.

Lemma keeps_eachNamespace (r : VpaManagerReconciler) (vm : VpaManager) (nss : list Namespace) :
  forall st, keeps (eachNamespace r vm nss st).
Proof.
  induction nss as [|ns rest IH]; intros st; simpl; [auto with keeps |].
  keeps_tac.
Qed.

Lemma keeps_getMatchingNamespaces (selector : option LabelSelector) :
  keeps (getMatchingNamespaces selector).
Proof. unfold getMatchingNamespaces. keeps_tac. Qed.

Lemma keeps_deleteOrphans (cur : gmap string bool) (items : list Unstructured) (deleted : nat) :
  keeps (deleteOrphans cur items deleted).
Proof. intros w. apply (deleteOrphans_store cur items deleted w). Qed.

#[export] Hint Resolve keeps_eachNamespace keeps_getMatchingNamespaces keeps_deleteOrphans : keeps.

Lemma keeps_cleanupOrphanedVPAs (vm : VpaManager) (cur : list WorkloadReference) :
  keeps (cleanupOrphanedVPAs vm cur).
Proof. unfold cleanupOrphanedVPAs. keeps_tac. Qed.

Lemma keeps_recordDeletes (n : nat) (name : string) : keeps (recordDeletes n name).
Proof. induction n; simpl; keeps_tac. Qed.

#[export] Hint Resolve keeps_cleanupOrphanedVPAs keeps_recordDeletes : keeps.
(** ** Labels and keys *)

Lemma hasLabels_true (want have : gmap string string) :
  hasLabels want have = true <-> forall k x, want !! k = Some x -> have !! k = Some x.
Proof.
  unfold hasLabels. rewrite forallb_forall. split.
  - intros H k x Hk. apply elem_of_map_to_list, list_elem_of_In in Hk.
    apply H in Hk. by apply bool_decide_eq_true in Hk.
  - intros H [k x] Hin. apply list_elem_of_In, elem_of_map_to_list in Hin.
    apply bool_decide_eq_true. by apply H.
Qed.

Lemma managed_labels_different : managedByLabel <> createdByLabel.
Proof. done. Qed.

Lemma hasLabels_managed (vm : VpaManager) (have : gmap string string) :
  hasLabels (managedLabels vm) have = true <->
  have !! managedByLabel = Some "vpa-operator" /\ have !! createdByLabel = Some (vmName vm).
Proof.
  rewrite hasLabels_true. unfold managedLabels. split.
  - intros H. split; apply H.
    + apply lookup_insert_eq.
    + rewrite lookup_insert_ne by apply managed_labels_different.
      apply lookup_singleton_eq.
  - intros [H1 H2] k x Hk. apply lookup_insert_Some in Hk as [[<- <-] | [_ Hk]]; [done |].
    apply lookup_singleton_Some in Hk as [<- <-]. done.
Qed.

Lemma currentVPAsOf_true (refs : list WorkloadReference) (key : string) :
  default false (currentVPAsOf refs !! key) = true <->
  exists wl, wl ∈ refs /\ vpaKey (wrNamespace wl) (wrVpaName wl) = key.
Proof.
  unfold currentVPAsOf.
  assert (H : forall acc : gmap string bool,
    default false
      (foldl (fun cur wl => <[ vpaKey (wrNamespace wl) (wrVpaName wl) := true ]> cur) acc refs
         !! key) = true <->
    default false (acc !! key) = true \/
    exists wl, wl ∈ refs /\ vpaKey (wrNamespace wl) (wrVpaName wl) = key).
  { induction refs as [|wl rest IH]; intros acc; simpl.
    - split; [by left | intros [H | (wl & Hin & _)]; [done | by apply elem_of_nil in Hin]].
    - rewrite IH. split.
      + intros [H | (wl' & Hin & Hk)].
        * destruct (decide (vpaKey (wrNamespace wl) (wrVpaName wl) = key)) as [Heq | Hne].
          -- right. exists wl. split; [by left | done].
          -- left. by rewrite lookup_insert_ne in H.
        * right. exists wl'. split; [by right | done].
      + intros [H | (wl' & Hin & Hk)].
        * destruct (decide (vpaKey (wrNamespace wl) (wrVpaName wl) = key)) as [Heq | Hne].
          -- left. by rewrite Heq, lookup_insert_eq.
          -- left. by rewrite lookup_insert_ne.
        * apply elem_of_cons in Hin as [-> | Hin].
          -- left. by rewrite Hk, lookup_insert_eq.
          -- right. by exists wl'. }
  rewrite H, lookup_empty. simpl. split; [intros [? | ?]; done | by right].
Qed.

Lemma hasSlash_append (s t : string) :
  hasSlash (s ++ t)%string = hasSlash s || hasSlash t.
Proof.
  induction s as [|c s IH]; [done |].
  change (hasSlash (String c (s ++ t)%string) = hasSlash (String c s) || hasSlash t).
  simpl. by rewrite IH, orb_assoc.
Qed.

(** The key [namespace/name] determines the pair when the first pair holds
    no slash. *)
Lemma vpaKey_inj (ns1 n1 ns2 n2 : string) :
  hasSlash ns1 = false -> hasSlash n1 = false ->
  vpaKey ns1 n1 = vpaKey ns2 n2 -> ns1 = ns2 /\ n1 = n2.
Proof.
  unfold vpaKey. revert ns2.
  induction ns1 as [|c s IH]; intros [|c' s'] Hs Hn Heq; cbn in Hs;
    unfold String.append in Heq; fold String.append in Heq.
  - by injection Heq as ->.
  - injection Heq as <- ->. rewrite hasSlash_append in Hn.
    apply orb_false_elim in Hn as [_ Hn]. discriminate Hn.
  - injection Heq as -> _. done.
  - injection Heq as -> Heq. apply orb_false_elim in Hs as [_ Hs].
    destruct (IH s' Hs Hn Heq) as [-> ->]. done.
Qed.
(** ** The status patch *)

Lemma mergeField_self {A : Type} `{EqDecision A} (original modified : A) :
  mergeField original modified original = modified.
Proof. unfold mergeField. by destruct (decide _). Qed.

Lemma mergeStatus_self (original modified : VpaManagerStatus) :
  mergeStatus original modified original = modified.
Proof. destruct modified. unfold mergeStatus. simpl. by rewrite !mergeField_self. Qed.

Lemma findVpaManager_name (name : string) (ms : list VpaManager) (vm : VpaManager) :
  findVpaManager name ms = Some vm -> vmName vm = name.
Proof. intros H. apply find_some in H as [_ H]. by apply String.eqb_eq in H. Qed.

Lemma patchStatusOf_name (vm su m : VpaManager) :
  vmName (patchStatusOf vm su m) = vmName m.
Proof. unfold patchStatusOf. by destruct (String.eqb (vmName m) (vmName su)). Qed.

Lemma findVpaManager_patched (name : string) (ms : list VpaManager) (vm su : VpaManager) :
  findVpaManager name ms = Some vm ->
  vmName su = vmName vm ->
  findVpaManager name (patchStatusOf vm su <$> ms) =
    Some {| vmName := vmName vm; Spec := Spec vm; Status := Status su |}.
Proof.
  intros Hfind Hsu. pose proof (findVpaManager_name _ _ _ Hfind) as Hname.
  induction ms as [|m rest IH]; [done |].
  unfold findVpaManager in *. rewrite fmap_cons. cbn [find] in *.
  rewrite patchStatusOf_name.
  destruct (String.eqb (vmName m) name) eqn:Hm; [| by apply IH].
  injection Hfind as ->. unfold patchStatusOf.
  rewrite Hsu, String.eqb_refl, mergeStatus_self. done.
Qed.

Lemma clientStatusPatch_run (su original : VpaManager) (w : World) :
  let out := clientStatusPatch su original w in
  vpas out.2 = vpas w /\ logs out.2 = logs w /\
  (out.1 = None -> vpaManagers out.2 = patchStatusOf original su <$> vpaManagers w).
Proof.
  unfold clientStatusPatch. rewrite bind_run. simpl.
  destruct (faults w (length (calls w))); [done |].
  by destruct (findVpaManager _ _).
Qed.

Lemma clientGetVpaManager_inr (name : string) (w : World) (vm : VpaManager) :
  (clientGetVpaManager name w).1 = inr vm ->
  findVpaManager name (vpaManagers w) = Some vm /\
  faults w (length (calls w)) = None /\
  vpas (clientGetVpaManager name w).2 = vpas w /\
  logs (clientGetVpaManager name w).2 = logs w.
Proof.
  unfold clientGetVpaManager. rewrite bind_run. simpl.
  destruct (faults w (length (calls w))); [done |].
  destruct (findVpaManager name (vpaManagers w)); [| done].
  by intros [= ->].
Qed.

(** The sweep leaves alone what its listing does not return. *)
Lemma cleanupOrphanedVPAs_frame (vm : VpaManager) (cur : list WorkloadReference) (w : World)
    (key : string * string) (v : Unstructured) :
  vpas w !! key = Some v ->
  hasLabels (managedLabels vm) (uLabels v) = false ->
  vpas (cleanupOrphanedVPAs vm cur w).2 !! key = Some v.
Proof.
  intros Hv Hlab. rewrite cleanupOrphanedVPAs_run.
  destruct (faults w (length (calls w))); [done |].
  destruct (deleteOrphans_store (currentVPAsOf cur) (sweepCandidates vm w) 0
              (setCalls (calls w ++ [ListVPAsCall (vmName vm)]) w)) as (_ & _ & Hframe & _).
  rewrite Hframe; [done |].
  intros o Ho Hkey. unfold orphansOf, sweepCandidates in Ho.
  apply list_elem_of_In, filter_In in Ho as [Ho _].
  apply filter_In in Ho as [Ho Hl]. apply list_elem_of_In, list_elem_of_fmap in Ho.
  destruct Ho as ([k v'] & -> & Hin). apply elem_of_map_to_list in Hin.
  simpl in *. assert (k = key) as -> by (by destruct k).
  congruence.
Qed.

(** A sweep whose requests are answered nil or not-found. *)
Lemma cleanupOrphanedVPAs_benign (vm : VpaManager) (cur : list WorkloadReference) (w : World) :
  faults w (length (calls w)) = None ->
  (forall i, IsNotFound (faults w i) = true \/ faults w i = None) ->
  (cleanupOrphanedVPAs vm cur w).1 =
    (length (orphansOf (currentVPAsOf cur) (sweepCandidates vm w)), None).
Proof.
  intros Hlist Hbenign. rewrite cleanupOrphanedVPAs_run, Hlist.
  pose proof (deleteOrphans_calls (currentVPAsOf cur) (sweepCandidates vm w) 0
                (setCalls (calls w ++ [ListVPAsCall (vmName vm)]) w)) as H.
  cbv zeta in H.
  destruct (deleteOrphans _ _ 0 _) as [[n [e|]] w']; simpl in *.
  - destruct H as (k & _ & _ & _ & Hf & Hnf & _).
    destruct (Hbenign (length (calls w ++ [ListVPAsCall (vmName vm)]) + k)%nat) as [Hb | Hb];
      rewrite Hf in Hb; congruence.
  - destruct H as [-> _]. done.
Qed.
(** The sweep that ends without error leaves no labelled VPA outside the
    set it was given. *)
Lemma cleanupOrphanedVPAs_complete (vm : VpaManager) (cur : list WorkloadReference) (w : World)
    (ns n : string) (v : Unstructured) :
  let out := cleanupOrphanedVPAs vm cur w in
  out.1.2 = None ->
  vpas out.2 !! (ns, n) = Some v ->
  hasLabels (managedLabels vm) (uLabels v) = true ->
  exists wl, wl ∈ cur /\ vpaKey (wrNamespace wl) (wrVpaName wl) = vpaKey ns n.
Proof.
  intros out. subst out. rewrite cleanupOrphanedVPAs_run.
  destruct (faults w (length (calls w))); [intros H; discriminate H |].
  destruct (deleteOrphans_store (currentVPAsOf cur) (sweepCandidates vm w) 0
              (setCalls (calls w ++ [ListVPAsCall (vmName vm)]) w))
    as (_ & Hmono & _ & Hgone).
  intros Herr Hv Hlab. specialize (Hgone Herr).
  destruct (Hmono (ns, n)) as [Hn | Hn]; [congruence |].
  rewrite Hv in Hn. simpl in Hn. symmetry in Hn.
  assert (Hin : stored (ns, n) v ∈ sweepCandidates vm w).
  { unfold sweepCandidates. apply list_elem_of_In, filter_In. split; [| done].
    apply list_elem_of_In, list_elem_of_fmap. exists ((ns, n), v).
    split; [done |]. by apply elem_of_map_to_list. }
  apply currentVPAsOf_true.
  destruct (default false (currentVPAsOf cur !! vpaKey ns n)) eqn:Hcur; [done |].
  assert (Horph : stored (ns, n) v ∈ orphansOf (currentVPAsOf cur) (sweepCandidates vm w)).
  { unfold orphansOf. apply list_elem_of_In, filter_In. split; [by apply list_elem_of_In |].
    unfold isOrphan. simpl. by rewrite Hcur. }
  apply Hgone in Horph. simpl in Horph. congruence.
Qed.
Lemma recordDeletes_run (n : nat) (name : string) (w : World) :
  vpas (recordDeletes n name w).2 = vpas w /\
  logs (recordDeletes n name w).2 = logs w /\
  vpaManagers (recordDeletes n name w).2 = vpaManagers w /\
  calls (recordDeletes n name w).2 = calls w.
Proof.
  revert w. induction n as [|n IH]; intros w; simpl; [done |].
  rewrite bind_run. simpl.
  destruct (IH (setMetrics (metrics w ++ [VPAOperationsTotalInc "delete" name]) w))
    as (-> & -> & -> & ->). done.
Qed.

(** ** Evaluations *)

(** C1 at the cluster of the status test.  [Reconcile] ends without error
    with [managedVPAs = 2], and the three per-kind counts are what they
    were, 0: the total is not their sum. *)
Theorem Reconcile_counts_not_written (now : Z) :
  let out := Reconcile defaultReconciler "test-vpamanager" now countsWorld in
  out.1.2 = None /\
  ((fun vm => (ManagedVPAs (Status vm), DeploymentCount (Status vm),
               StatefulSetCount (Status vm), DaemonSetCount (Status vm)))
     <$> vpaManagers out.2) = [(2, 0, 0, 0)%Z].
Proof. vm_compute. done. Qed.

(** C2 at a manager without deployment selector.  The deployment handler
    takes the manager as matching and creates the VPA. *)
Theorem deployment_handler_matches_nil_selector :
  let w := testWorld noKindSelectorManager [] ∅ noFaults in
  (findMatchingVpaManager DeploymentWebhookHandler testObject w).1
    = (Some noKindSelectorManager, None) /\
  (findMatchingVpaManager StatefulSetWebhookHandler testObject w).1 = (None, None) /\
  vpas (Handle DeploymentWebhookHandler createRequest w).2 !! ("test-ns", "test-app-vpa")
    = Some (buildVPA DeploymentWebhookHandler noKindSelectorManager testObject "test-app-vpa").
Proof. vm_compute. done. Qed.

(** C3 at a manager without namespace selector.  The stateful set handler
    finds no match, where the deployment handler matches. *)
Theorem statefulset_handler_skips_nil_namespace_selector :
  let w := testWorld allNamespacesManager [] ∅ noFaults in
  (findMatchingVpaManager StatefulSetWebhookHandler testObject w).1 = (None, None) /\
  (findMatchingVpaManager DeploymentWebhookHandler testObject w).1
    = (Some allNamespacesManager, None) /\
  vpas (Handle StatefulSetWebhookHandler createRequest w).2 = ∅.
Proof. vm_compute. done. Qed.
(** ** Requests that are answered *)

Lemma request_calm (c : APICall) (w : World) :
  faults w (length (calls w)) = None ->
  request c w = (None, setCalls (calls w ++ [c]) w).
Proof. intros H. unfold request. by rewrite H. Qed.

Lemma findMatchingVpaManager_calm (h : Handler) (obj : WorkloadObject) (w : World)
    (ns : Namespace) :
  (forall i, faults w i = None) ->
  findNamespace (oNamespace obj) (namespaces w) = Some ns ->
  findMatchingVpaManager h obj w =
    ((firstMatching h (nsLabels ns) obj (vpaManagers w), None),
     setCalls (calls w ++ [ListVpaManagersCall; GetNamespaceCall (oNamespace obj)]) w).
Proof.
  intros Hcalm Hns. unfold findMatchingVpaManager, clientListVpaManagers, clientGetNamespace.
  rewrite !bind_run. rewrite request_calm by apply Hcalm. simpl.
  rewrite !bind_run. rewrite request_calm by apply Hcalm. simpl.
  rewrite Hns. simpl. by rewrite <- app_assoc.
Qed.

Lemma createVPA_calm (h : Handler) (vm : VpaManager) (obj : WorkloadObject) (vpaName : string)
    (w : World) :
  (forall i, faults w i = None) ->
  let key := (oNamespace obj, vpaName) in
  let out := createVPA h vm obj vpaName w in
  out.1 = None /\
  vpas out.2 = match vpas w !! key with
               | Some _ => vpas w
               | None => <[ key := buildVPA h vm obj vpaName ]> (vpas w)
               end /\
  metrics out.2 = metrics w /\ faults out.2 = faults w.
Proof.
  intros Hcalm key out. subst key out.
  unfold createVPA, clientGetVPA, clientCreateVPA. rewrite !bind_run.
  rewrite request_calm by apply Hcalm. simpl.
  destruct (vpas w !! (oNamespace obj, vpaName)) eqn:Hv; simpl; [done |].
  rewrite !bind_run. rewrite request_calm by apply Hcalm. simpl.
  by rewrite Hv.
Qed.

Lemma deleteVPA_calm (namespace vpaName : string) (w : World) :
  (forall i, faults w i = None) ->
  let out := deleteVPA namespace vpaName w in
  out.1 = None /\
  vpas out.2 = delete (namespace, vpaName) (vpas w) /\
  metrics out.2 = metrics w /\ faults out.2 = faults w.
Proof.
  intros Hcalm out. subst out. unfold deleteVPA. rewrite bind_run.
  destruct (clientDeleteVPA_run namespace vpaName w) as (Hst & _ & Hout).
  rewrite Hcalm in Hout. destruct Hout as [Hv He].
  assert (Hm : metrics (clientDeleteVPA namespace vpaName w).2 = metrics w).
  { unfold clientDeleteVPA. rewrite bind_run, request_calm by apply Hcalm. simpl.
    by destruct (vpas w !! (namespace, vpaName)). }
  pose proof (steady_faults _ _ Hst) as Hf.
  destruct (clientDeleteVPA namespace vpaName w) as [err w']; simpl in *.
  destruct He as [-> | He]; [simpl | rewrite He; simpl]; done.
Qed.

Lemma updateVPA_calm (h : Handler) (vm : VpaManager) (obj : WorkloadObject) (vpaName : string)
    (w : World) :
  (forall i, faults w i = None) ->
  let key := (oNamespace obj, vpaName) in
  let out := updateVPA h vm obj vpaName w in
  out.1 = None /\
  vpas out.2 = <[ key := updatedVPA h vm obj key (vpas w !! key) ]> (vpas w) /\
  metrics out.2 = metrics w /\ faults out.2 = faults w.
Proof.
  intros Hcalm key out. subst key out.
  unfold updateVPA, clientGetVPA. rewrite !bind_run.
  rewrite request_calm by apply Hcalm. simpl.
  destruct (vpas w !! (oNamespace obj, vpaName)) as [existing|] eqn:Hv; simpl.
  - unfold clientUpdateVPA. rewrite !bind_run, request_calm by apply Hcalm. simpl.
    by rewrite Hv.
  - change (IsNotFound (Some (NewNotFound "verticalpodautoscalers.autoscaling.k8s.io" vpaName)))
      with true. cbv iota.
    destruct (createVPA_calm h vm obj vpaName
                (setCalls (calls w ++ [GetVPACall (oNamespace obj) vpaName]) w) Hcalm)
      as (He & Hvp & Hm & Hf).
    simpl in Hvp. rewrite Hv in Hvp. done.
Qed.
(** ** The transitions of an update *)

(** C9. On an UPDATE whose two objects decode, with every request answered:
    nothing is done when neither the old nor the new object matches; the VPA
    is created unless it exists, and a create is recorded under the new
    manager, when only the new object matches; the VPA is deleted and a
    delete recorded under the old manager when only the old object matches;
    and when both match the VPA stored for the workload gets the spec that
    [buildVPA] makes under the new match, a VPA that was there keeping its
    labels, owner references and other keys, and no other VPA changes. *)
Theorem handleUpdate_transitions (h : Handler) (req : Request) (w : World)
    (newObj oldObj : WorkloadObject) (nsNew nsOld : Namespace) :
  Object req = inr newObj ->
  OldObject req = inr oldObj ->
  (forall i, faults w i = None) ->
  findNamespace (oNamespace newObj) (namespaces w) = Some nsNew ->
  findNamespace (oNamespace oldObj) (namespaces w) = Some nsOld ->
  let oldMatch := firstMatching h (nsLabels nsOld) oldObj (vpaManagers w) in
  let newMatch := firstMatching h (nsLabels nsNew) newObj (vpaManagers w) in
  let out := handleUpdate h req w in
  (findMatchingVpaManager h newObj w).1 = (newMatch, None) /\
  (findMatchingVpaManager h oldObj w).1 = (oldMatch, None) /\
  out.1 = None /\
  updateOutcome h newObj oldMatch newMatch w out.2.
Proof.
  intros Hnew Hold Hcalm HnsN HnsO oldMatch newMatch out. subst out.
  rewrite (findMatchingVpaManager_calm h newObj w nsNew Hcalm HnsN).
  rewrite (findMatchingVpaManager_calm h oldObj w nsOld Hcalm HnsO).
  split; [done |]. split; [done |].
  unfold handleUpdate. rewrite Hnew, Hold. rewrite bind_run.
  rewrite (findMatchingVpaManager_calm h newObj w nsNew Hcalm HnsN).
  cbn [fst snd]. rewrite bind_run.
  set (w1 := setCalls _ w).
  rewrite (findMatchingVpaManager_calm h oldObj w1 nsOld Hcalm HnsO).
  cbn [fst snd]. change (vpaManagers w1) with (vpaManagers w).
  fold oldMatch newMatch.
  set (w2 := setCalls _ w1).
  assert (Hcalm2 : forall i, faults w2 i = None) by apply Hcalm.
  unfold updateOutcome. fold (vpaNameOf (oName newObj)).
  destruct oldMatch as [oldM|], newMatch as [newM|]; rewrite ?bind_run.
  - destruct (updateVPA_calm h newM newObj (vpaNameOf (oName newObj)) w2 Hcalm2)
      as (He & Hv & Hm & _).
    rewrite He. cbn [fst snd ret]. rewrite Hv, Hm.
    change (vpas w2) with (vpas w). change (metrics w2) with (metrics w).
    split; [done |]. split; [| split; [| done]].
    + eexists. split; [apply lookup_insert_eq |].
      unfold updatedVPA.
      destruct (vpas w !! (oNamespace newObj, vpaNameOf (oName newObj))) as [existing|].
      * simpl. split; [by rewrite lookup_insert_eq, lookup_singleton_eq |].
        split; [done |]. split; [done |].
        intros k Hk. by rewrite lookup_insert_ne.
      * done.
    + intros key' Hne. by rewrite lookup_insert_ne.
  - destruct (deleteVPA_calm (oNamespace newObj) (vpaNameOf (oName newObj)) w2 Hcalm2)
      as (He & Hv & Hm & _).
    rewrite He. simpl. by rewrite Hv, Hm.
  - destruct (createVPA_calm h newM newObj (vpaNameOf (oName newObj)) w2 Hcalm2)
      as (He & Hv & Hm & _).
    rewrite He. simpl. by rewrite Hv, Hm.
  - done.
Qed.

Lemma handleUpdate_transitions_witness :
  Object keepLabelRequest = inr testObject /\
  OldObject keepLabelRequest = inr testObject /\
  (forall i, faults staleWorld i = None) /\
  findNamespace "test-ns" (namespaces staleWorld) = Some testNamespace /\
  firstMatching DeploymentWebhookHandler (nsLabels testNamespace) testObject
    (vpaManagers staleWorld) = Some (testManager true) /\
  (handleUpdate DeploymentWebhookHandler keepLabelRequest staleWorld).1 = None /\
  updateOutcome DeploymentWebhookHandler testObject
    (Some (testManager true)) (Some (testManager true)) staleWorld
    (handleUpdate DeploymentWebhookHandler keepLabelRequest staleWorld).2.
Proof.
  split; [reflexivity |]. split; [reflexivity |]. split; [done |]. split; [reflexivity |].
  split; [vm_compute; reflexivity |].
  apply (handleUpdate_transitions DeploymentWebhookHandler keepLabelRequest staleWorld
           testObject testObject testNamespace testNamespace);
    first [reflexivity | done].
Defined.
(** ** The substring search of the error classifier *)

Lemma append_cons (c : Ascii.ascii) (s t : string) :
  (String c s ++ t)%string = String c (s ++ t)%string.
Proof. reflexivity. Qed.

Lemma append_nil (t : string) : (EmptyString ++ t)%string = t.
Proof. reflexivity. Qed.

Lemma length_append (s t : string) :
  String.length (s ++ t)%string = (String.length s + String.length t)%nat.
Proof.
  induction s as [|c s IH]; [done |].
  rewrite append_cons. simpl. by rewrite IH.
Qed.

Lemma substring_skip (pre t : string) (n : nat) :
  String.substring (String.length pre) n (pre ++ t)%string = String.substring 0 n t.
Proof. induction pre as [|c pre IH]; [done |]. rewrite append_cons. simpl. apply IH. Qed.

Lemma substring_prefix (sub post : string) :
  String.substring 0 (String.length sub) (sub ++ post)%string = sub.
Proof.
  induction sub as [|c sub IH]; simpl.
  - by destruct post.
  - by rewrite IH.
Qed.

Lemma substring_is_prefix (sub s : string) :
  (String.length sub <= String.length s)%nat ->
  String.substring 0 (String.length sub) s = sub ->
  exists post, s = (sub ++ post)%string.
Proof.
  revert s. induction sub as [|c sub IH]; intros s Hlen Hsub.
  - by exists s.
  - destruct s as [|c' s]; simpl in Hlen; [lia |].
    simpl in Hsub. injection Hsub as -> Hsub.
    destruct (IH s) as [post ->]; [lia | done |]. by exists post.
Qed.

Lemma substring_occurs (sub s : string) (i : nat) :
  (i + String.length sub <= String.length s)%nat ->
  String.substring i (String.length sub) s = sub ->
  exists pre post, s = (pre ++ sub ++ post)%string /\ String.length pre = i.
Proof.
  revert s. induction i as [|i IH]; intros s Hlen Hsub.
  - destruct (substring_is_prefix sub s) as [post ->]; [lia | done |].
    by exists EmptyString, post.
  - destruct s as [|c s]; simpl in Hlen; [lia |].
    simpl in Hsub. destruct (IH s) as (pre & post & -> & Hpre); [lia | done |].
    exists (String c pre), post. simpl. by rewrite Hpre.
Qed.

(** The loop over [i] finds [sub] exactly when it occurs. *)
Lemma containsAt_occurs (s sub : string) :
  ((String.length sub <=? String.length s)%nat &&
   existsb (containsAt s sub) (seq 0 (String.length s - String.length sub + 1))) = true <->
  occursIn sub s.
Proof.
  rewrite andb_true_iff, Nat.leb_le, existsb_exists. split.
  - intros (Hlen & i & Hin & Hat). apply in_seq in Hin.
    apply String.eqb_eq in Hat.
    destruct (substring_occurs sub s i) as (pre & post & -> & _); [lia | done |].
    by exists pre, post.
  - intros (pre & post & ->). rewrite !length_append. split; [lia |].
    exists (String.length pre). split.
    + apply in_seq. lia.
    + unfold containsAt. rewrite substring_skip, substring_prefix. apply String.eqb_refl.
Qed.

Lemma containsAny_occurs (s : string) (substrings : list string) :
  containsAny s substrings = true <->
  exists sub, sub ∈ substrings /\ sub <> EmptyString /\ occursIn sub s.
Proof.
  unfold containsAny. rewrite existsb_exists. split.
  - intros (sub & Hin & H). rewrite <- andb_assoc in H.
    apply andb_true_iff in H as [Hpos H]. apply containsAt_occurs in H.
    exists sub. split; [by apply list_elem_of_In |]. split; [| done].
    intros ->. discriminate Hpos.
  - intros (sub & Hin & Hne & Hocc). exists sub. split; [by apply list_elem_of_In |].
    rewrite <- andb_assoc. apply andb_true_iff. split.
    + destruct sub; [done | reflexivity].
    + by apply containsAt_occurs.
Qed.

(** X1. [containsAny] is substring search: it answers true exactly when one
    of the non-empty substrings occurs in [s]; empty substrings never
    count, and nothing is found in the empty list. *)
Theorem containsAny_finds_substrings (s : string) (substrings : list string) :
  (containsAny s substrings = true <->
   exists sub, sub ∈ substrings /\ sub <> EmptyString /\ occursIn sub s) /\
  containsAny s (EmptyString :: substrings) = containsAny s substrings /\
  containsAny s [] = false.
Proof.
  split; [apply containsAny_occurs |]. split; [| done].
  unfold containsAny. simpl. done.
Qed.

(** X2. The class of an error follows the order of the switch: a message
    that holds "not found" or "NotFound" is [not_found] whatever else it
    holds, a message that holds none of the listed words is [unknown], and
    the class is always one of the five. *)
Theorem ClassifyError_order (e : error) :
  (ClassifyError (Some e) = ErrorTypeNotFound <->
   occursIn "not found" (errMessage e) \/ occursIn "NotFound" (errMessage e)) /\
  ((forall word, word ∈ ["not found"; "NotFound"; "conflict"; "Conflict"; "already exists";
                           "validation"; "invalid"; "Invalid"; "connection refused";
                           "timeout"; "context deadline"] ->
                 ~ occursIn word (errMessage e)) ->
   ClassifyError (Some e) = ErrorTypeUnknown) /\
  ClassifyError (Some e) ∈ [ErrorTypeNotFound; ErrorTypeConflict; ErrorTypeValidation;
                            ErrorTypeAPIServer; ErrorTypeUnknown].
Proof.
  unfold ClassifyError. cbv zeta. split; [| split].
  - destruct (containsAny (errMessage e) ["not found"; "NotFound"]) eqn:H1.
    + split; [intros _ | done]. apply containsAny_occurs in H1 as (sub & Hin & _ & Hocc).
      apply elem_of_cons in Hin as [-> | Hin]; [by left |].
      apply elem_of_cons in Hin as [-> | Hin]; [by right |]. by apply elem_of_nil in Hin.
    + split.
      * intros H. by repeat destruct (containsAny _ _).
      * intros H. assert (containsAny (errMessage e) ["not found"; "NotFound"] = true);
          [| congruence].
        apply containsAny_occurs. destruct H as [H | H].
        -- exists "not found". split; [by left |]. done.
        -- exists "NotFound". split; [right; by left |]. done.
  - intros Hnone.
    assert (Hno : forall subs,
      (forall x, x ∈ subs -> x ∈ ["not found"; "NotFound"; "conflict"; "Conflict";
                                  "already exists"; "validation"; "invalid"; "Invalid";
                                  "connection refused"; "timeout"; "context deadline"]) ->
      containsAny (errMessage e) subs = false).
    { intros subs Hsubs. destruct (containsAny (errMessage e) subs) eqn:H; [| done].
      apply containsAny_occurs in H as (sub & Hin & _ & Hocc).
      exfalso. by apply (Hnone sub (Hsubs sub Hin)). }
    rewrite !Hno; [done | ..]; intros x Hx; apply list_elem_of_In in Hx;
      apply list_elem_of_In; simpl in *; tauto.
  - repeat destruct (containsAny _ _); apply list_elem_of_In; simpl; tauto.
Qed.
(** ** Matching in the admission handlers *)

(** X3. [findMatchingVpaManager] resolves several matching managers by list
    order: the manager it picks is eligible and no manager before it in the
    list is; it picks none exactly when no manager of the list is
    eligible. *)
Theorem firstMatching_first_hit (h : Handler) (namespaceLabels : gmap string string)
    (obj : WorkloadObject) (items : list VpaManager) :
  match firstMatching h namespaceLabels obj items with
  | Some vm =>
      exists pre post, items = pre ++ vm :: post /\
        eligible h namespaceLabels obj vm = true /\
        forall x, x ∈ pre -> eligible h namespaceLabels obj x = false
  | None => forall x, x ∈ items -> eligible h namespaceLabels obj x = false
  end.
Proof.
  induction items as [|vm rest IH]; simpl.
  { intros x Hx. by apply elem_of_nil in Hx. }
  assert (Hskip : eligible h namespaceLabels obj vm = false ->
    match firstMatching h namespaceLabels obj rest with
    | Some vm0 =>
        exists pre post, vm :: rest = pre ++ vm0 :: post /\
          eligible h namespaceLabels obj vm0 = true /\
          forall x, x ∈ pre -> eligible h namespaceLabels obj x = false
    | None => forall x, x ∈ vm :: rest -> eligible h namespaceLabels obj x = false
    end).
  { intros Hno. destruct (firstMatching h namespaceLabels obj rest) as [vm0|].
    - destruct IH as (pre & post & -> & Hel & Hpre). exists (vm :: pre), post.
      split; [done |]. split; [done |].
      intros x Hx. apply elem_of_cons in Hx as [-> | Hx]; auto.
    - intros x Hx. apply elem_of_cons in Hx as [-> | Hx]; auto. }
  destruct (eligible h namespaceLabels obj vm) eqn:Hel.
  - unfold eligible in Hel. apply andb_true_iff in Hel as [Hel H3].
    apply andb_true_iff in Hel as [H1 H2]. rewrite H1, H2, H3. simpl.
    exists [], rest. split; [done |]. split.
    + unfold eligible. by rewrite H1, H2, H3.
    + intros x Hx. by apply elem_of_nil in Hx.
  - specialize (Hskip eq_refl). unfold eligible in Hel.
    destruct (Enabled (Spec vm)); simpl in *; [| done].
    destruct (handlerMatches h namespaceLabels _); simpl in *; [| done].
    by rewrite Hel.
Qed.
(** ** The VPA operations of the handlers *)

(** X4. [createVPA] is the only writer of the create path and it only adds:
    whatever the answers of the API, every VPA of the store is still there
    unchanged afterwards; and when the VPA of the workload exists and the
    read is answered, it returns nil after that one read. *)
Theorem createVPA_never_overwrites (h : Handler) (vm : VpaManager) (obj : WorkloadObject)
    (vpaName : string) (w : World) :
  let out := createVPA h vm obj vpaName w in
  (forall key v, vpas w !! key = Some v -> vpas out.2 !! key = Some v) /\
  (faults w (length (calls w)) = None ->
   is_Some (vpas w !! (oNamespace obj, vpaName)) ->
   out.1 = None /\ vpas out.2 = vpas w /\
   calls out.2 = calls w ++ [GetVPACall (oNamespace obj) vpaName]).
Proof.
  intros out. subst out. unfold createVPA, clientGetVPA, clientCreateVPA.
  rewrite !bind_run. simpl. split.
  - intros key v Hv.
    repeat first
      [ exact Hv
      | rewrite bind_run
      | progress simpl
      | match goal with
        | |- context [match ?x with _ => _ end] => destruct x eqn:?
        | |- context [if ?x then _ else _] => destruct x eqn:?
        end ].
    all: rewrite lookup_insert_ne; [exact Hv |]; intros <-; simpl in *; congruence.
  - intros -> [v Hv]. rewrite Hv. simpl. done.
Qed.

(** X5. [deleteVPA] takes not-found for done: it returns nil exactly when the
    delete is answered nil or not-found, and then no VPA is left under the
    name; an error it returns is the answer of the API and the store is as
    it was; VPAs under other names are never touched. *)
Theorem deleteVPA_swallows_not_found (namespace vpaName : string) (w : World) :
  let answer := (clientDeleteVPA namespace vpaName w).1 in
  let out := deleteVPA namespace vpaName w in
  (out.1 = None <-> answer = None \/ IsNotFound answer = true) /\
  (out.1 = None -> vpas out.2 !! (namespace, vpaName) = None) /\
  (forall e, out.1 = Some e ->
     faults w (length (calls w)) = Some e /\ vpas out.2 = vpas w) /\
  (forall key, key <> (namespace, vpaName) -> vpas out.2 !! key = vpas w !! key).
Proof.
  intros answer out. subst answer out. unfold deleteVPA. rewrite bind_run.
  destruct (clientDeleteVPA_run namespace vpaName w) as (_ & _ & Hout).
  destruct (clientDeleteVPA namespace vpaName w) as [ans w'] eqn:Hrun. simpl in *.
  assert (Hother : forall key, key <> (namespace, vpaName) -> vpas w' !! key = vpas w !! key).
  { intros key Hne. destruct (faults w (length (calls w))) as [e|].
    - destruct Hout as [_ ->]. destruct (IsNotFound (Some e)); [| done].
      by apply lookup_delete_ne.
    - destruct Hout as [-> _]. by apply lookup_delete_ne. }
  destruct (IsNotFound ans) eqn:Hnf; simpl.
  - split; [split; auto |]. split; [| split; [done | done]].
    intros _. destruct (faults w (length (calls w))) as [e|].
    + destruct Hout as [-> ->]. rewrite Hnf. apply lookup_delete_eq.
    + destruct Hout as [-> _]. apply lookup_delete_eq.
  - split; [| split; [| split; [| done]]].
    + split; [by left | intros [? | ?]; congruence].
    + intros ->. destruct (faults w (length (calls w))) as [e|].
      * by destruct Hout as [[=] _].
      * destruct Hout as [-> _]. apply lookup_delete_eq.
    + intros e ->. destruct (faults w (length (calls w))) as [e'|].
      * destruct Hout as [[= ->] ->]. by rewrite Hnf.
      * destruct Hout as [_ [? | ?]]; congruence.
Qed.
(** ** Create and delete admissions *)

Lemma keeps_findMatchingVpaManager (h : Handler) (obj : WorkloadObject) :
  keeps (findMatchingVpaManager h obj).
Proof. unfold findMatchingVpaManager. keeps_tac. Qed.

Lemma keeps_createVPA (h : Handler) (vm : VpaManager) (obj : WorkloadObject) (vpaName : string) :
  keeps (createVPA h vm obj vpaName).
Proof. unfold createVPA. keeps_tac. Qed.

#[export] Hint Resolve keeps_findMatchingVpaManager keeps_createVPA : keeps.

Lemma keeps_updateVPA (h : Handler) (vm : VpaManager) (obj : WorkloadObject) (vpaName : string) :
  keeps (updateVPA h vm obj vpaName).
Proof. unfold updateVPA. keeps_tac. Qed.

Lemma keeps_deleteVPA (ns vpaName : string) : keeps (deleteVPA ns vpaName).
Proof. unfold deleteVPA. keeps_tac. Qed.

#[export] Hint Resolve keeps_updateVPA keeps_deleteVPA : keeps.

Lemma keeps_handleCreate (h : Handler) (req : Request) : keeps (handleCreate h req).
Proof. unfold handleCreate. keeps_tac. Qed.

Lemma keeps_handleDelete (h : Handler) (req : Request) : keeps (handleDelete h req).
Proof. unfold handleDelete. keeps_tac. Qed.

Lemma keeps_handleUpdate (h : Handler) (req : Request) : keeps (handleUpdate h req).
Proof. unfold handleUpdate. keeps_tac. Qed.

#[export] Hint Resolve keeps_handleCreate keeps_handleDelete keeps_handleUpdate : keeps.

Lemma keeps_Handle (h : Handler) (req : Request) : keeps (Handle h req).
Proof. unfold Handle, dispatch. keeps_tac. Qed.

Lemma handleCreate_calm (h : Handler) (req : Request) (w : World) (obj : WorkloadObject)
    (ns : Namespace) :
  Object req = inr obj ->
  (forall i, faults w i = None) ->
  findNamespace (oNamespace obj) (namespaces w) = Some ns ->
  let key := (oNamespace obj, vpaNameOf (oName obj)) in
  let out := handleCreate h req w in
  out.1 = None /\
  match firstMatching h (nsLabels ns) obj (vpaManagers w) with
  | Some vm =>
      vpas out.2 = match vpas w !! key with
                   | Some _ => vpas w
                   | None => <[ key := buildVPA h vm obj key.2 ]> (vpas w)
                   end /\
      metrics out.2 = metrics w ++ [VPAOperationsTotalInc "create" (vmName vm)]
  | None => vpas out.2 = vpas w /\ metrics out.2 = metrics w
  end.
Proof.
  intros Hobj Hcalm Hns key out. subst key out.
  unfold handleCreate. rewrite Hobj, bind_run.
  rewrite (findMatchingVpaManager_calm h obj w ns Hcalm Hns). cbn [fst snd].
  set (w1 := setCalls _ w).
  destruct (firstMatching h (nsLabels ns) obj (vpaManagers w)) as [vm|]; [| done].
  rewrite bind_run.
  destruct (createVPA_calm h vm obj (vpaNameOf (oName obj)) w1) as (He & Hv & Hm & _);
    [apply Hcalm |].
  rewrite He. simpl. by rewrite Hv, Hm.
Qed.

Lemma handleDelete_calm (h : Handler) (req : Request) (w : World) (obj : WorkloadObject)
    (ns : Namespace) :
  OldObject req = inr obj ->
  (forall i, faults w i = None) ->
  findNamespace (oNamespace obj) (namespaces w) = Some ns ->
  let key := (oNamespace obj, vpaNameOf (oName obj)) in
  let out := handleDelete h req w in
  out.1 = None /\
  match firstMatching h (nsLabels ns) obj (vpaManagers w) with
  | Some vm =>
      vpas out.2 = delete key (vpas w) /\
      metrics out.2 = metrics w ++ [VPAOperationsTotalInc "delete" (vmName vm)]
  | None => vpas out.2 = vpas w /\ metrics out.2 = metrics w
  end.
Proof.
  intros Hobj Hcalm Hns key out. subst key out.
  unfold handleDelete. rewrite Hobj, bind_run.
  rewrite (findMatchingVpaManager_calm h obj w ns Hcalm Hns). cbn [fst snd].
  set (w1 := setCalls _ w).
  destruct (firstMatching h (nsLabels ns) obj (vpaManagers w)) as [vm|]; [| done].
  rewrite bind_run.
  destruct (deleteVPA_calm (oNamespace obj) (vpaNameOf (oName obj)) w1) as (He & Hv & Hm & _);
    [apply Hcalm |].
  rewrite He. simpl. by rewrite Hv, Hm.
Qed.

(** X6. A DELETE admission removes the VPA under an enabled matching manager
    only.  With every request answered: when a manager matches the deleted
    object, no VPA is left under [<name>-vpa] and a delete is recorded under
    that manager, also when there was no VPA; when none matches (in
    particular when every manager is disabled) the store and the operation
    metrics are untouched. *)
Theorem handleDelete_outcome (h : Handler) (req : Request) (w : World) (obj : WorkloadObject)
    (ns : Namespace) :
  OldObject req = inr obj ->
  (forall i, faults w i = None) ->
  findNamespace (oNamespace obj) (namespaces w) = Some ns ->
  let key := (oNamespace obj, vpaNameOf (oName obj)) in
  let out := handleDelete h req w in
  out.1 = None /\
  (forall vm, firstMatching h (nsLabels ns) obj (vpaManagers w) = Some vm ->
     vpas out.2 !! key = None /\
     (forall key', key' <> key -> vpas out.2 !! key' = vpas w !! key') /\
     metrics out.2 = metrics w ++ [VPAOperationsTotalInc "delete" (vmName vm)]) /\
  (firstMatching h (nsLabels ns) obj (vpaManagers w) = None ->
     vpas out.2 = vpas w /\ metrics out.2 = metrics w) /\
  ((forall vm, vm ∈ vpaManagers w -> Enabled (Spec vm) = false) ->
     vpas out.2 = vpas w).
Proof.
  intros Hobj Hcalm Hns key out.
  destruct (handleDelete_calm h req w obj ns Hobj Hcalm Hns) as [He Hout].
  fold key out in He, Hout.
  pose proof (firstMatching_first_hit h (nsLabels ns) obj (vpaManagers w)) as Hfirst.
  destruct (firstMatching h (nsLabels ns) obj (vpaManagers w)) as [vm|].
  - destruct Hout as [Hv Hm]. split; [done |]. split; [| split; [done |]].
    + intros ? [= <-]. rewrite Hv. split; [apply lookup_delete_eq |].
      split; [| done]. intros key' Hne. by apply lookup_delete_ne.
    + intros Hoff. destruct Hfirst as (pre & post & Hitems & Hel & _).
      unfold eligible in Hel. rewrite Hoff in Hel; [done |].
      rewrite Hitems. apply elem_of_app. right. by left.
  - destruct Hout as [Hv Hm]. split; [done |]. split; [done |]. split; done.
Qed.

Lemma handleDelete_outcome_witness :
  let w := testWorld (testManager false) [] oneOrphan noFaults in
  let obj := {| oName := "deleted-deployment"; oNamespace := "test-ns";
                oUID := "deleted-uid"; oLabels := vpaEnabled |} in
  OldObject (deleteRequest obj) = inr obj /\
  (forall i, faults w i = None) /\
  findNamespace (oNamespace obj) (namespaces w) = Some testNamespace /\
  vpas (handleDelete DeploymentWebhookHandler (deleteRequest obj) w).2 = vpas w.
Proof.
  intros w obj. split; [reflexivity |]. split; [done |]. split; [reflexivity |].
  apply (handleDelete_outcome DeploymentWebhookHandler (deleteRequest obj) w obj testNamespace);
    try done.
  intros vm Hvm. apply list_elem_of_singleton in Hvm as ->. reflexivity.
Defined.
Lemma findMatchingVpaManager_missing (h : Handler) (obj : WorkloadObject) (w : World) :
  (forall i, faults w i = None) ->
  findNamespace (oNamespace obj) (namespaces w) = None ->
  findMatchingVpaManager h obj w =
    ((None, Some (NewNotFound "namespaces" (oNamespace obj))),
     setCalls (calls w ++ [ListVpaManagersCall; GetNamespaceCall (oNamespace obj)]) w).
Proof.
  intros Hcalm Hns. unfold findMatchingVpaManager, clientListVpaManagers, clientGetNamespace.
  rewrite !bind_run. rewrite request_calm by apply Hcalm. simpl.
  rewrite !bind_run. rewrite request_calm by apply Hcalm. simpl.
  rewrite Hns. simpl. by rewrite <- app_assoc.
Qed.

Lemma Handle_vpas (h : Handler) (req : Request) (w : World) :
  vpas (Handle h req w).2 = vpas (dispatch h req w).2.
Proof.
  unfold Handle, RecordWebhookRequest. rewrite bind_run.
  by destruct (dispatch h req w) as [[e|] w1].
Qed.

(** X7. A CREATE admission can be retried: with every request answered, a
    second [Handle] of the same request leaves the VPA store as the first
    one left it. *)
Theorem Handle_create_idempotent (h : Handler) (req : Request) (w : World) :
  (forall i, faults w i = None) ->
  Operation req = "CREATE" ->
  let once := (Handle h req w).2 in
  vpas (Handle h req once).2 = vpas once.
Proof.
  intros Hcalm Hop once.
  pose proof (keeps_Handle h req w) as Hst. fold once in Hst.
  assert (Hcalm' : forall i, faults once i = None).
  { intros i. rewrite (steady_faults _ _ Hst). apply Hcalm. }
  assert (Hfirst : vpas once = vpas (handleCreate h req w).2).
  { subst once. rewrite Handle_vpas. unfold dispatch. by rewrite Hop. }
  rewrite Handle_vpas. unfold dispatch. rewrite Hop. simpl.
  destruct (Object req) as [e | obj] eqn:Hobj.
  { unfold handleCreate. by rewrite Hobj. }
  destruct (findNamespace (oNamespace obj) (namespaces w)) as [ns|] eqn:Hns.
  - destruct (handleCreate_calm h req w obj ns Hobj Hcalm Hns) as [_ H1].
    destruct (handleCreate_calm h req once obj ns Hobj Hcalm') as [_ H2].
    { by rewrite (steady_namespaces _ _ Hst). }
    rewrite (steady_managers _ _ Hst) in H2.
    destruct (firstMatching h (nsLabels ns) obj (vpaManagers w)) as [vm|].
    + destruct H1 as [H1 _], H2 as [H2 _]. rewrite H2.
      rewrite Hfirst, H1.
      destruct (vpas w !! (oNamespace obj, vpaNameOf (oName obj))) eqn:Hk.
      * by rewrite Hk.
      * by rewrite lookup_insert_eq.
    + by destruct H2 as [-> _].
  - unfold handleCreate. rewrite Hobj, bind_run.
    rewrite findMatchingVpaManager_missing; [done | done |].
    by rewrite (steady_namespaces _ _ Hst).
Qed.

Lemma Handle_create_idempotent_witness :
  let w := testWorld (testManager true) [] ∅ noFaults in
  (forall i, faults w i = None) /\
  Operation createRequest = "CREATE" /\
  vpas (Handle DeploymentWebhookHandler createRequest
          (Handle DeploymentWebhookHandler createRequest w).2).2
    = vpas (Handle DeploymentWebhookHandler createRequest w).2.
Proof.
  intros w. split; [done |]. split; [reflexivity |].
  apply (Handle_create_idempotent DeploymentWebhookHandler createRequest w); done.
Defined.

Lemma append_assoc (s t u : string) : ((s ++ t) ++ u)%string = (s ++ t ++ u)%string.
Proof. induction s as [|c s IH]; [done |]. rewrite !append_cons. by rewrite IH. Qed.

Lemma ClassifyError_NewNotFound (resource name : string) :
  ClassifyError (Some (NewNotFound resource name)) = ErrorTypeNotFound.
Proof.
  unfold ClassifyError. cbv zeta.
  assert (H : containsAny (errMessage (NewNotFound resource name)) ["not found"; "NotFound"]
              = true); [| by rewrite H].
  apply containsAny_occurs. exists "not found". split; [by left |]. split; [done |].
  exists (resource ++ " " ++ dquote ++ name ++ dquote ++ " ")%string, EmptyString.
  unfold NewNotFound. simpl errMessage.
  rewrite !append_assoc. reflexivity.
Qed.

(** X8. An admission for a workload whose namespace the client does not find
    is allowed all the same: with every request answered, a CREATE in a
    missing namespace writes no VPA, and the request is recorded as an
    error of class [not_found]. *)
Theorem Handle_missing_namespace (h : Handler) (req : Request) (w : World)
    (obj : WorkloadObject) :
  (forall i, faults w i = None) ->
  Operation req = "CREATE" ->
  Object req = inr obj ->
  findNamespace (oNamespace obj) (namespaces w) = None ->
  let out := Handle h req w in
  Allowed out.1 = true /\
  vpas out.2 = vpas w /\
  metrics out.2 = metrics w ++ [ WebhookRequestsTotalInc "CREATE" "error" "not_found";
                                 WebhookDurationObserve "CREATE" "error" ] /\
  logs out.2 = logs w ++ [ LogError (NewNotFound "namespaces" (oNamespace obj))
                             "webhook handler error" ].
Proof.
  intros Hcalm Hop Hobj Hns out. subst out.
  unfold Handle, dispatch. rewrite Hop.
  change (String.eqb "CREATE" "CREATE") with true. cbv iota.
  assert (Hrun : handleCreate h req w =
    (Some (NewNotFound "namespaces" (oNamespace obj)),
     setCalls (calls w ++ [ListVpaManagersCall; GetNamespaceCall (oNamespace obj)]) w)).
  { unfold handleCreate. rewrite Hobj, bind_run.
    by rewrite findMatchingVpaManager_missing. }
  rewrite bind_run, Hrun. cbn [fst snd].
  unfold RecordWebhookRequest, classifyResult.
  rewrite ClassifyError_NewNotFound. simpl. rewrite <- app_assoc. done.
Qed.

Lemma Handle_missing_namespace_witness :
  let w := mkWorld [testManager true] [] [] ∅ noFaults [] [] [] in
  (forall i, faults w i = None) /\
  Operation createRequest = "CREATE" /\
  Object createRequest = inr testObject /\
  findNamespace (oNamespace testObject) (namespaces w) = None /\
  Allowed (Handle DeploymentWebhookHandler createRequest w).1 = true.
Proof.
  intros w. split; [done |]. split; [reflexivity |]. split; [reflexivity |].
  split; [reflexivity |].
  apply (Handle_missing_namespace DeploymentWebhookHandler createRequest w testObject); done.
Defined.
(** ** Ensuring the VPA of one workload *)

Lemma ensureVPAForWorkload_calm (vm : VpaManager) (kind name ns uid vpaName : string)
    (w : World) :
  (forall i, faults w i = None) ->
  let key := (ns, vpaName) in
  let built := buildVPAForWorkload vm kind name ns uid vpaName in
  let out := ensureVPAForWorkload vm kind name ns uid vpaName w in
  metrics out.2 = metrics w /\
  match vpas w !! key with
  | Some existing =>
      out.1 = (false, None) /\
      vpas out.2 = <[ key := setSpec (stored key existing) built ]> (vpas w)
  | None =>
      out.1 = (true, None) /\ vpas out.2 = <[ key := built ]> (vpas w)
  end.
Proof.
  intros Hcalm key built out. subst key built out.
  unfold ensureVPAForWorkload, clientGetVPA. rewrite !bind_run.
  rewrite request_calm by apply Hcalm. simpl.
  destruct (vpas w !! (ns, vpaName)) as [existing|] eqn:Hv; simpl.
  - unfold clientUpdateVPA. rewrite !bind_run, request_calm by apply Hcalm. simpl.
    by rewrite Hv.
  - change (IsNotFound (Some (NewNotFound "verticalpodautoscalers.autoscaling.k8s.io" vpaName)))
      with true. cbv iota.
    unfold clientCreateVPA. rewrite !bind_run, request_calm by apply Hcalm. simpl.
    by rewrite Hv.
Qed.

Lemma setSpec_again (key : string * string) (x b : Unstructured) :
  uNamespace x = key.1 -> uName x = key.2 ->
  uObject x !! "spec" = Some (default VNil (uObject b !! "spec")) ->
  setSpec (stored key x) b = x.
Proof.
  intros Hns Hn Hspec. destruct x. simpl in *. subst.
  unfold setSpec, stored. simpl. f_equal. by apply insert_id.
Qed.

(** X9. [ensureVPAForWorkload] converges: with every request answered, it
    reports a creation exactly when no VPA was stored under the name, and
    a second call right after reports none and leaves the store as the
    first call left it. *)
Theorem ensureVPAForWorkload_converges (vm : VpaManager) (kind name ns uid vpaName : string)
    (w : World) :
  (forall i, faults w i = None) ->
  let once := ensureVPAForWorkload vm kind name ns uid vpaName w in
  let again := ensureVPAForWorkload vm kind name ns uid vpaName once.2 in
  once.1 = (bool_decide (vpas w !! (ns, vpaName) = None), None) /\
  is_Some (vpas once.2 !! (ns, vpaName)) /\
  again.1 = (false, None) /\
  vpas again.2 = vpas once.2.
Proof.
  intros Hcalm once again.
  destruct (ensureVPAForWorkload_calm vm kind name ns uid vpaName w Hcalm) as [_ H1].
  fold once in H1.
  assert (Hcalm' : forall i, faults once.2 i = None).
  { intros i. subst once.
    rewrite (steady_faults _ _ (keeps_ensureVPAForWorkload vm kind name ns uid vpaName w)).
    apply Hcalm. }
  destruct (ensureVPAForWorkload_calm vm kind name ns uid vpaName once.2 Hcalm') as [_ H2].
  fold again in H2.
  set (built := buildVPAForWorkload vm kind name ns uid vpaName) in *.
  assert (Hbuilt : uObject built !! "spec" = Some (default VNil (uObject built !! "spec"))).
  { subst built. simpl. by rewrite lookup_singleton_eq. }
  destruct (vpas w !! (ns, vpaName)) as [existing|] eqn:Hv.
  - destruct H1 as [-> Hs1]. rewrite Hs1, lookup_insert_eq in H2 |- *.
    destruct H2 as [-> Hs2]. rewrite Hs2.
    split; [done |]. split; [by eexists |]. split; [done |].
    rewrite setSpec_again; [by rewrite insert_insert_eq | done | done |].
    simpl. by rewrite lookup_insert_eq.
  - destruct H1 as [-> Hs1]. rewrite Hs1, lookup_insert_eq in H2 |- *.
    destruct H2 as [-> Hs2]. rewrite Hs2.
    split; [done |]. split; [by eexists |]. split; [done |].
    rewrite setSpec_again; [by rewrite insert_insert_eq | done | done | done].
Qed.

Lemma ensureVPAForWorkload_converges_witness :
  let w := testWorld (testManager true) [] ∅ noFaults in
  (forall i, faults w i = None) /\
  (ensureVPAForWorkload (testManager true) "Deployment" "app1" "test-ns" "uid-1" "app1-vpa" w).1
    = (true, None).
Proof.
  intros w. split; [done |].
  apply (ensureVPAForWorkload_converges (testManager true) "Deployment" "app1" "test-ns"
           "uid-1" "app1-vpa" w). done.
Defined.

(** X10. On a VPA that is already stored under the name,
    [ensureVPAForWorkload] replaces the spec and nothing else: with every
    request answered, the stored object keeps its labels, its owner
    references and every other top-level key, and its spec is the one just
    built. *)
Theorem ensureVPAForWorkload_adopts_spec_only (vm : VpaManager)
    (kind name ns uid vpaName : string) (w : World) (existing : Unstructured) :
  (forall i, faults w i = None) ->
  vpas w !! (ns, vpaName) = Some existing ->
  let built := buildVPAForWorkload vm kind name ns uid vpaName in
  let out := ensureVPAForWorkload vm kind name ns uid vpaName w in
  exists v, vpas out.2 !! (ns, vpaName) = Some v /\
    uLabels v = uLabels existing /\
    uOwnerReferences v = uOwnerReferences existing /\
    uObject v !! "spec" = uObject built !! "spec" /\
    (forall k, k <> "spec" -> uObject v !! k = uObject existing !! k) /\
    (forall key, key <> (ns, vpaName) -> vpas out.2 !! key = vpas w !! key).
Proof.
  intros Hcalm Hv built out.
  destruct (ensureVPAForWorkload_calm vm kind name ns uid vpaName w Hcalm) as [_ H].
  fold out built in H. rewrite Hv in H. destruct H as [_ Hs].
  exists (setSpec (stored (ns, vpaName) existing) built).
  rewrite Hs, lookup_insert_eq. split; [done |]. split; [done |]. split; [done |].
  split; [| split].
  - simpl. rewrite lookup_insert_eq. subst built. simpl. by rewrite lookup_singleton_eq.
  - intros k Hk. simpl. by rewrite lookup_insert_ne.
  - intros key Hk. by rewrite lookup_insert_ne.
Qed.

Lemma ensureVPAForWorkload_adopts_witness :
  let w := testWorld (testManager true) [] oneOrphan noFaults in
  (forall i, faults w i = None) /\
  vpas w !! ("test-ns", "deleted-deployment-vpa")
    = Some (createUnstructuredVPA "deleted-deployment-vpa" "test-ns" "deleted-deployment") /\
  is_Some (vpas (ensureVPAForWorkload (testManager true) "Deployment" "deleted-deployment"
                   "test-ns" "uid-9" "deleted-deployment-vpa" w).2
             !! ("test-ns", "deleted-deployment-vpa")).
Proof.
  intros w. split; [done |]. split; [reflexivity |].
  destruct (ensureVPAForWorkload_adopts_spec_only (testManager true) "Deployment"
              "deleted-deployment" "test-ns" "uid-9" "deleted-deployment-vpa" w
              (createUnstructuredVPA "deleted-deployment-vpa" "test-ns" "deleted-deployment"))
    as (v & Hv & _); [done | reflexivity |].
  by exists v.
Defined.

(** X11. An error of [ensureVPAForWorkload] means nothing was written:
    whatever the answers of the API, when it returns an error the VPA
    store is as before and no creation is reported; and it never removes a
    VPA. *)
Theorem ensureVPAForWorkload_error_writes_nothing (vm : VpaManager)
    (kind name ns uid vpaName : string) (w : World) :
  let out := ensureVPAForWorkload vm kind name ns uid vpaName w in
  (forall e, out.1.2 = Some e -> out.1.1 = false /\ vpas out.2 = vpas w) /\
  (forall key, is_Some (vpas w !! key) -> is_Some (vpas out.2 !! key)).
Proof.
  intros out. subst out.
  unfold ensureVPAForWorkload, clientGetVPA, clientCreateVPA, clientUpdateVPA.
  split.
  - intros e.
    repeat first
      [ rewrite bind_run
      | progress simpl
      | match goal with
        | |- context [match ?x with _ => _ end] => destruct x eqn:?
        | |- context [if ?x then _ else _] => destruct x eqn:?
        end ]; intros H; first [discriminate H | done].
  - intros key Hkey.
    repeat first
      [ exact Hkey
      | rewrite bind_run
      | progress simpl
      | match goal with
        | |- context [match ?x with _ => _ end] => destruct x eqn:?
        | |- context [if ?x then _ else _] => destruct x eqn:?
        end ];
    apply lookup_insert_is_Some'; by right.
Qed.
(** ** The loop over the workloads *)

Lemma ensureVPAForWorkload_first_call (vm : VpaManager) (kind name ns uid vpaName : string)
    (w : World) :
  exists cs, calls (ensureVPAForWorkload vm kind name ns uid vpaName w).2
             = calls w ++ GetVPACall ns vpaName :: cs.
Proof.
  unfold ensureVPAForWorkload. rewrite bind_run.
  set (w1 := (clientGetVPA ns vpaName w).2).
  assert (Hc1 : calls w1 = calls w ++ [GetVPACall ns vpaName]).
  { subst w1. unfold clientGetVPA. rewrite bind_run. simpl.
    destruct (faults w _); [done |]. by destruct (vpas w !! _). }
  assert (Hrest : forall (m : M (bool * option error)), keeps m ->
            exists cs, calls (m w1).2 = calls w ++ GetVPACall ns vpaName :: cs).
  { intros m Hm. destruct (steady_calls _ _ (Hm w1)) as [cs Hcs].
    exists cs. by rewrite Hcs, Hc1, <- app_assoc. }
  apply Hrest. keeps_tac.
Qed.

(** X12. The errors of one workload do not stop the loop: whatever the
    answers of the API, [Reconcile]'s loop over the listed workloads reads
    the VPA of every one of them; the workloads recorded so far stay
    recorded and at most one record per workload is added; and with every
    request answered each workload is recorded, in order, under
    [<name>-vpa]. *)
Theorem ensureWorkloads_attempts_all (vm : VpaManager) (wls : list Workload) :
  forall (managed : list WorkloadReference) (w : World),
    let out := ensureWorkloads vm wls managed w in
    (exists new, calls out.2 = calls w ++ new /\
       forall wl, wl ∈ wls -> GetVPACall (wNamespace wl) (vpaNameOf (wName wl)) ∈ new) /\
    managed `prefix_of` out.1 /\
    (length out.1 <= length managed + length wls)%nat /\
    ((forall i, faults w i = None) ->
     out.1 = managed ++ ((fun wl => referenceOf wl (vpaNameOf (wName wl))) <$> wls)).
Proof.
  induction wls as [|wl rest IH]; intros managed w out; subst out.
  { simpl. split; [| split; [done | split; [lia | by rewrite app_nil_r]]].
    exists []. split; [by rewrite app_nil_r |]. intros wl Hwl. by apply elem_of_nil in Hwl. }
  cbn [ensureWorkloads]. rewrite bind_run.
  destruct (ensureVPAForWorkload_first_call vm (wKind wl) (wName wl) (wNamespace wl) (wUID wl)
              (vpaNameOf (wName wl)) w) as [cs Hcs].
  pose proof (keeps_ensureVPAForWorkload vm (wKind wl) (wName wl) (wNamespace wl) (wUID wl)
                (vpaNameOf (wName wl)) w) as Hst.
  pose proof (ensureVPAForWorkload_calm vm (wKind wl) (wName wl) (wNamespace wl) (wUID wl)
                (vpaNameOf (wName wl)) w) as Hcalm1.
  cbv zeta in Hcalm1.
  destruct (ensureVPAForWorkload vm (wKind wl) (wName wl) (wNamespace wl) (wUID wl)
              (vpaNameOf (wName wl)) w) as [[created err] w1].
  cbn [fst snd] in *.
  assert (Hstep : forall (w2 : World) (managed' : list WorkloadReference),
    calls w2 = calls w1 -> faults w2 = faults w1 ->
    managed `prefix_of` managed' ->
    (length managed' <= length managed + 1)%nat ->
    ((forall i, faults w i = None) ->
       managed' = managed ++ [referenceOf wl (vpaNameOf (wName wl))]) ->
    let out := ensureWorkloads vm rest managed' w2 in
    (exists new, calls out.2 = calls w ++ new /\
       forall x, x ∈ wl :: rest -> GetVPACall (wNamespace x) (vpaNameOf (wName x)) ∈ new) /\
    managed `prefix_of` out.1 /\
    (length out.1 <= length managed + length (wl :: rest))%nat /\
    ((forall i, faults w i = None) ->
     out.1 = managed ++ ((fun x => referenceOf x (vpaNameOf (wName x))) <$> wl :: rest))).
  { intros w2 managed' Hc2 Hf2 Hpre Hlen Hcalm out.
    destruct (IH managed' w2) as ((new & Hnew & Hall) & Hpre' & Hlen' & Hcalm').
    fold out in Hnew, Hpre', Hlen', Hcalm'.
    split; [| split; [by etrans | split; [simpl; lia |]]].
    - exists (GetVPACall (wNamespace wl) (vpaNameOf (wName wl)) :: cs ++ new).
      split; [by rewrite Hnew, Hc2, Hcs, <- app_assoc |].
      intros x Hx. apply elem_of_cons in Hx as [-> | Hx]; [by left |].
      right. apply elem_of_app. right. by apply Hall.
    - intros Hw. rewrite Hcalm'.
      + rewrite (Hcalm Hw). by rewrite <- app_assoc.
      + intros i. rewrite Hf2, (steady_faults _ _ Hst). apply Hw. }
  destruct err as [e|].
  - rewrite bind_run. apply Hstep; try done; [lia |].
    intros Hw. exfalso. destruct (Hcalm1 Hw) as [_ H].
    destruct (vpas w !! _); by destruct H.
  - rewrite bind_run. apply Hstep.
    + by destruct created.
    + by destruct created.
    + by apply prefix_app_r.
    + rewrite length_app. simpl. lia.
    + done.
Qed.
(** ** Listing through the providers *)

Lemma chunks_concat (limit : nat) (fuel : nat) :
  forall items : list Workload,
    (0 < limit)%nat -> (length items <= fuel)%nat ->
    concat (chunks fuel limit items) = items.
Proof.
  induction fuel as [|fuel IH]; intros items Hlimit Hlen.
  { destruct items; [done | simpl in Hlen; lia]. }
  destruct items as [|x items]; [done |].
  cbn [chunks concat]. rewrite IH; [apply take_drop | done |].
  rewrite length_drop. simpl in *. lia.
Qed.

Lemma pagesOf_concat (limit : nat) (items : list Workload) :
  (0 < limit)%nat -> concat (pagesOf limit items) = items.
Proof.
  intros Hlimit. unfold pagesOf.
  pose proof (chunks_concat limit (length items) items Hlimit (le_n _)) as H.
  destruct (chunks (length items) limit items); [| done].
  simpl in *. by rewrite <- H.
Qed.

Lemma pagesOf_one (limit : nat) (items : list Workload) :
  (length items <= limit)%nat -> pagesOf limit items = [items].
Proof.
  intros Hlen. unfold pagesOf. destruct items as [|x items]; [done |].
  cbn [length chunks]. rewrite take_ge by done. rewrite drop_ge by done.
  by destruct (length items).
Qed.

Lemma eachItem_collect (items : list Workload) :
  forall acc : list Workload,
    eachItem (fun x workloads => ((true, None), workloads ++ [x])) items acc
    = ((true, None), acc ++ items).
Proof.
  induction items as [|x items IH]; intros acc; simpl; [by rewrite app_nil_r |].
  by rewrite IH, <- app_assoc.
Qed.

Lemma eachPage_collect (kind ns : string) (pages : list (list Workload)) :
  forall (page : nat) (acc : list Workload) (w : World),
    (forall i, faults w i = None) ->
    eachPage kind ns (fun x workloads => ((true, None), workloads ++ [x])) pages page acc w
    = ((None, acc ++ concat pages),
       setCalls (calls w ++ (ListWorkloadsCall kind ns <$> seq page (length pages))) w).
Proof.
  induction pages as [|items rest IH]; intros page acc w Hcalm.
  { simpl. rewrite !app_nil_r. by destruct w. }
  cbn [eachPage]. rewrite bind_run, request_calm by apply Hcalm. cbn [fst snd].
  rewrite eachItem_collect, IH by apply Hcalm.
  simpl. by rewrite <- !app_assoc.
Qed.

(** X13. Pagination neither loses nor repeats a workload.  With every
    request answered, [Provider.List] returns, in one slice and in order,
    exactly the objects of its kind in the namespace that the selector
    keeps, after one request per page (a single request when they are at
    most 500); a selector that does not compile is returned as the error
    before any request is sent. *)
Theorem List_returns_every_workload (p : Provider) (ns : string)
    (selector : option LabelSelector) (w : World) :
  (forall i, faults w i = None) ->
  let out := List_ p ns selector w in
  match listingSelector selector with
  | inl err => out = (([], Some err), w)
  | inr sel =>
      let items := selectWorkloads (Kind p) ns sel (workloads w) in
      out.1 = (items, None) /\
      calls out.2 =
        calls w ++ (ListWorkloadsCall (Kind p) ns <$> seq 0 (length (pagesOf PageSize items))) /\
      ((length items <= PageSize)%nat ->
       calls out.2 = calls w ++ [ListWorkloadsCall (Kind p) ns 0])
  end.
Proof.
  intros Hcalm out. subst out. unfold List_, ForEach, listingSelector.
  rewrite bind_run.
  assert (Hrun : forall sel,
    let items := selectWorkloads (Kind p) ns sel (workloads w) in
    let run := eachPage (Kind p) ns (fun x workloads => ((true, None), workloads ++ [x]))
                 (pagesOf PageSize items) 0 [] w in
    (run.1.2, run.1.1) = (items, None) /\
    calls run.2 =
      calls w ++ (ListWorkloadsCall (Kind p) ns <$> seq 0 (length (pagesOf PageSize items))) /\
    ((length items <= PageSize)%nat ->
     calls run.2 = calls w ++ [ListWorkloadsCall (Kind p) ns 0])).
  { intros sel items run. subst run. rewrite eachPage_collect by apply Hcalm.
    cbn [fst snd calls setCalls]. rewrite pagesOf_concat by (unfold PageSize; lia).
    split; [done |]. split; [done |]. intros Hlen. by rewrite pagesOf_one. }
  destruct selector as [s|].
  - destruct (LabelSelectorAsSelector (Some s)) as [err | sel]; [done |].
    apply (Hrun (Some sel)).
  - apply (Hrun None).
Qed.

Lemma List_returns_every_workload_witness :
  (forall i, faults countsWorld i = None) /\
  (List_ DeploymentProvider "test-ns" (Some (matchLabel "vpa-enabled" "true")) countsWorld).1
    = ([testDeployment "deployment-1" "uid-1"; testDeployment "deployment-2" "uid-2"], None) /\
  List_ DeploymentProvider "test-ns" (Some invalidSelector) countsWorld
    = (([], Some (mkError ReasonUnknown
                    (dquote ++ "Near" ++ dquote ++ " is not a valid label selector operator")%string)),
       countsWorld).
Proof.
  split; [done |].
  pose proof (List_returns_every_workload DeploymentProvider "test-ns"
                (Some (matchLabel "vpa-enabled" "true")) countsWorld (fun _ => eq_refl)) as H1.
  pose proof (List_returns_every_workload DeploymentProvider "test-ns"
                (Some invalidSelector) countsWorld (fun _ => eq_refl)) as H2.
  vm_compute in H1. vm_compute in H2. destruct H1 as [H1 _].
  split; vm_compute; [exact H1 | exact H2].
Defined.
(** ** The outcomes of a reconcile *)

Lemma RecordReconcile_run (name : string) (err : option error) (w : World) :
  RecordReconcile name err w =
    (tt, setMetrics (metrics w ++ [ ReconcileTotalInc name (classifyResult err).1
                                      (classifyResult err).2;
                                    ReconcileDurationObserve name (classifyResult err).1 ]) w).
Proof.
  unfold RecordReconcile. destruct (classifyResult err) as [result errorType].
  rewrite bind_run. unfold emit, setMetrics. simpl. by rewrite <- app_assoc.
Qed.

(** X14. Every error [Reconcile] returns is recorded and asks for no requeue
    of its own: whatever the answers of the API, when [Reconcile] returns an
    error the result is the empty one and the last two metric samples are
    the error sample of the reconcile counter, under the name of the
    manager and with the class of that error, and its duration sample. *)
Theorem Reconcile_error_is_recorded (r : VpaManagerReconciler) (name : string) (now : Z)
    (w : World) (e : error) :
  let out := Reconcile r name now w in
  out.1.2 = Some e ->
  out.1.1 = emptyResult /\
  exists before,
    metrics out.2 =
      before ++ [ ReconcileTotalInc name ResultError (ClassifyError (Some e));
                  ReconcileDurationObserve name ResultError ].
Proof.
  intros out. subst out. unfold Reconcile. rewrite bind_run.
  destruct (clientGetVpaManager name w) as [[gerr | vm] w1] eqn:Hget; cbn [fst snd].
  { destruct (IsNotFound (Some gerr)); rewrite bind_run.
    - simpl. intros H. discriminate H.
    - rewrite RecordReconcile_run. simpl. intros [= ->]. split; [done |]. by eexists. }
  assert (Hname : vmName vm = name).
  { apply (findVpaManager_name name (vpaManagers w)).
    apply (clientGetVpaManager_inr name w vm). by rewrite Hget. }
  rewrite Hname.
  destruct (negb (Enabled (Spec vm))).
  { rewrite !bind_run, RecordReconcile_run. simpl. intros H. discriminate H. }
  rewrite bind_run.
  destruct (getMatchingNamespaces (NamespaceSelector (Spec vm)) w1) as [[nerr | nss] w2];
    cbn [fst snd].
  { rewrite !bind_run, RecordReconcile_run. simpl. intros [= ->]. split; [done |]. by eexists. }
  rewrite bind_run.
  destruct (eachNamespace r vm nss ([], O) w2) as [[managed watched] w3]. cbn [fst snd].
  rewrite bind_run.
  destruct (cleanupOrphanedVPAs vm managed w3) as [[deleted serr] w4]. cbn [fst snd].
  rewrite bind_run.
  set (w4' := (match serr with
               | Some err => logError err "failed to cleanup orphaned VPAs"
               | None => ret tt
               end w4).2).
  rewrite bind_run. set (w5 := (recordDeletes deleted name w4').2).
  rewrite bind_run.
  destruct (clientStatusPatch (statusUpdateOf vm managed now) vm w5) as [[perr|] w6];
    cbn [fst snd].
  - rewrite !bind_run, RecordReconcile_run. simpl. intros [= ->]. split; [done |]. by eexists.
  - rewrite !bind_run. simpl. intros H. discriminate H.
Qed.

Lemma Reconcile_error_is_recorded_witness :
  let w := testWorld (testManager true) [] ∅ (failAt 1 forbidden) in
  (Reconcile defaultReconciler "test-vpamanager" 7%Z w).1.2 = Some forbidden /\
  (Reconcile defaultReconciler "test-vpamanager" 7%Z w).1.1 = emptyResult.
Proof.
  intros w. split; [vm_compute; reflexivity |].
  apply (Reconcile_error_is_recorded defaultReconciler "test-vpamanager" 7%Z w forbidden).
  vm_compute. reflexivity.
Defined.

(** X15. A manager that is gone is no error: when the read of the manager is
    answered not-found (the manager is not stored, or the API says so),
    [Reconcile] returns the empty result and no error after that single
    request, records no metric sample and writes nothing. *)
Theorem Reconcile_manager_gone (r : VpaManagerReconciler) (name : string) (now : Z)
    (w : World) :
  (findVpaManager name (vpaManagers w) = None /\ faults w (length (calls w)) = None) \/
  IsNotFound (faults w (length (calls w))) = true ->
  let out := Reconcile r name now w in
  out.1 = (emptyResult, None) /\
  calls out.2 = calls w ++ [GetVpaManagerCall name] /\
  metrics out.2 = metrics w /\
  vpas out.2 = vpas w /\
  vpaManagers out.2 = vpaManagers w.
Proof.
  intros H out. subst out. unfold Reconcile, clientGetVpaManager. rewrite !bind_run. simpl.
  destruct H as [[Hfind Hfault] | Hnf].
  - rewrite Hfault, Hfind. simpl. done.
  - destruct (faults w (length (calls w))) as [e|]; [| done]. simpl. rewrite Hnf. done.
Qed.

Lemma Reconcile_manager_gone_witness :
  let w := testWorld (testManager true) [] ∅ noFaults in
  ((findVpaManager "other" (vpaManagers w) = None /\ faults w (length (calls w)) = None) \/
   IsNotFound (faults w (length (calls w))) = true) /\
  (Reconcile defaultReconciler "other" 7%Z w).1 = (emptyResult, None).
Proof.
  intros w.
  assert (H : (findVpaManager "other" (vpaManagers w) = None /\
               faults w (length (calls w)) = None) \/
              IsNotFound (faults w (length (calls w))) = true) by (left; split; reflexivity).
  split; [exact H |].
  apply (Reconcile_manager_gone defaultReconciler "other" 7%Z w H).
Defined.
(** X16. The status a successful reconcile writes.  After a reconcile that
    read an enabled manager and ended without error, a requeue after five
    minutes is asked for and the stored manager has its spec as before,
    [managedVPAs] equal to the length of [managedWorkloads],
    [managedDeployments] equal to [managedWorkloads], the last reconcile
    time set to now, and its three per-kind counts as they were read. *)
Theorem Reconcile_success_status (r : VpaManagerReconciler) (name : string) (now : Z)
    (w : World) (vm : VpaManager) :
  let out := Reconcile r name now w in
  (clientGetVpaManager name w).1 = inr vm ->
  Enabled (Spec vm) = true ->
  out.1.2 = None ->
  out.1.1 = {| Requeue := false; RequeueAfter := 300000000000 |} /\
  exists vm', findVpaManager name (vpaManagers out.2) = Some vm' /\
    Spec vm' = Spec vm /\
    ManagedVPAs (Status vm') = Z.of_nat (length (ManagedWorkloads (Status vm'))) /\
    ManagedDeployments (Status vm') = ManagedWorkloads (Status vm') /\
    LastReconcileTime (Status vm') = Some now /\
    (DeploymentCount (Status vm'), StatefulSetCount (Status vm'), DaemonSetCount (Status vm'))
      = (DeploymentCount (Status vm), StatefulSetCount (Status vm), DaemonSetCount (Status vm)).
Proof.
  intros out Hget Hen Hok. subst out.
  destruct (clientGetVpaManager_inr _ _ _ Hget) as (Hfind & _ & _ & _).
  pose proof (keeps_clientGetVpaManager name w) as Hst1.
  unfold Reconcile in *. rewrite bind_run in *. rewrite Hget in *.
  set (w1 := (clientGetVpaManager name w).2) in *.
  rewrite Hen in *. cbn [negb] in *. rewrite bind_run in *.
  pose proof (keeps_getMatchingNamespaces (NamespaceSelector (Spec vm)) w1) as Hst2.
  destruct (getMatchingNamespaces (NamespaceSelector (Spec vm)) w1) as [[err | nss] w2];
    [discriminate Hok |].
  cbn [fst snd] in *. rewrite bind_run in *.
  pose proof (keeps_eachNamespace r vm nss ([], O) w2) as Hst3.
  destruct (eachNamespace r vm nss ([], O) w2) as [[managed watched] w3].
  cbn [fst snd] in *. rewrite bind_run in *.
  pose proof (keeps_cleanupOrphanedVPAs vm managed w3) as Hst4.
  destruct (cleanupOrphanedVPAs vm managed w3) as [[deleted serr] w4].
  cbn [fst snd] in *. rewrite bind_run in *.
  set (w4' := (match serr with
               | Some err => logError err "failed to cleanup orphaned VPAs"
               | None => ret tt
               end w4).2) in *.
  assert (Hm4' : vpaManagers w4' = vpaManagers w4) by (subst w4'; by destruct serr).
  rewrite bind_run in *.
  pose proof (recordDeletes_run deleted (vmName vm) w4') as (_ & _ & Hmr & _).
  set (w5 := (recordDeletes deleted (vmName vm) w4').2) in *.
  rewrite bind_run in *.
  pose proof (clientStatusPatch_run (statusUpdateOf vm managed now) vm w5) as (_ & _ & Hmp).
  cbv zeta in Hmp.
  destruct (clientStatusPatch (statusUpdateOf vm managed now) vm w5) as [[perr|] w6];
    cbn [fst snd] in *.
  { rewrite !bind_run in Hok. discriminate Hok. }
  specialize (Hmp eq_refl).
  rewrite !bind_run. unfold UpdateManagedResources, RecordReconcile. simpl.
  split; [done |].
  exists {| vmName := vmName vm; Spec := Spec vm;
            Status := Status (statusUpdateOf vm managed now) |}.
  split; [| done].
  rewrite Hmp, Hmr, Hm4', (steady_managers _ _ Hst4), (steady_managers _ _ Hst3),
    (steady_managers _ _ Hst2), (steady_managers _ _ Hst1).
  by apply findVpaManager_patched.
Qed.

Lemma Reconcile_success_status_witness :
  (clientGetVpaManager "test-vpamanager" countsWorld).1 = inr (testManager true) /\
  Enabled (Spec (testManager true)) = true /\
  (Reconcile defaultReconciler "test-vpamanager" 7%Z countsWorld).1.2 = None /\
  (Reconcile defaultReconciler "test-vpamanager" 7%Z countsWorld).1.1
    = {| Requeue := false; RequeueAfter := 300000000000 |}.
Proof.
  split; [vm_compute; reflexivity |]. split; [reflexivity |].
  split; [vm_compute; reflexivity |].
  apply (Reconcile_success_status defaultReconciler "test-vpamanager" 7%Z countsWorld
           (testManager true)); vm_compute; reflexivity.
Defined.
(** ** What the reconciler leaves in the store *)

Lemma outlives_refl (w : World) : outlives w w.
Proof. intros key v Hv. by exists v. Qed.

Lemma outlives_trans (w1 w2 w3 : World) : outlives w1 w2 -> outlives w2 w3 -> outlives w1 w3.
Proof.
  intros H12 H23 key v Hv. destruct (H12 key v Hv) as (v2 & Hv2 & Hl2).
  destruct (H23 key v2 Hv2) as (v3 & Hv3 & Hl3). exists v3. split; [done | congruence].
Qed.

Lemma outlives_same (w w' : World) : vpas w' = vpas w -> outlives w w'.
Proof. intros H key v Hv. exists v. by rewrite H. Qed.

Lemma lasts_ret {A : Type} (a : A) : lasts (ret a).
Proof. intros w. apply outlives_refl. Qed.

Lemma lasts_bind {A B : Type} (m : M A) (k : A -> M B) :
  lasts m -> (forall a, lasts (k a)) -> lasts (bind m k).
Proof.
  intros Hm Hk w. rewrite bind_run.
  eapply outlives_trans; [apply Hm | apply Hk].
Qed.

Lemma lasts_request (c : APICall) : lasts (request c).
Proof. intros w. by apply outlives_same. Qed.

Lemma lasts_emit (e : MetricEvent) : lasts (emit e).
Proof. intros w. by apply outlives_same. Qed.

Lemma lasts_logInfo (msg : string) : lasts (logInfo msg).
Proof. intros w. by apply outlives_same. Qed.

Lemma lasts_logError (e : error) (msg : string) : lasts (logError e msg).
Proof. intros w. by apply outlives_same. Qed.

Create HintDb lasts.
#[export] Hint Resolve lasts_ret lasts_request lasts_emit lasts_logInfo lasts_logError : lasts.

Ltac lasts_step :=
  match goal with
  | |- lasts (bind _ _) => apply lasts_bind; [| intros ?]
  | |- lasts (match ?x with _ => _ end) => destruct x
  | |- lasts (if ?x then _ else _) => destruct x
  | |- lasts _ => solve [eauto with lasts]
  end.

Ltac lasts_tac := repeat lasts_step.

Lemma lasts_RecordVPAOperation (op name : string) : lasts (RecordVPAOperation op name).
Proof. unfold RecordVPAOperation. lasts_tac. Qed.

Lemma lasts_RecordReconcile (name : string) (err : option error) : lasts (RecordReconcile name err).
Proof. unfold RecordReconcile. lasts_tac. Qed.

Lemma lasts_UpdateManagedResources (name : string) (a b : Z) :
  lasts (UpdateManagedResources name a b).
Proof. unfold UpdateManagedResources. lasts_tac. Qed.

Lemma lasts_clientGetVpaManager (name : string) : lasts (clientGetVpaManager name).
Proof.
  unfold clientGetVpaManager. apply lasts_bind; [auto with lasts | intros fault].
  intros w. destruct fault; [apply outlives_refl |].
  destruct (findVpaManager _ _); apply outlives_refl.
Qed.

Lemma lasts_clientListNamespaces (sel : option Selector) : lasts (clientListNamespaces sel).
Proof.
  unfold clientListNamespaces. apply lasts_bind; [auto with lasts | intros fault].
  intros w. destruct fault; [apply outlives_refl |]. destruct sel; apply outlives_refl.
Qed.

Lemma lasts_clientStatusPatch (su original : VpaManager) : lasts (clientStatusPatch su original).
Proof.
  unfold clientStatusPatch. apply lasts_bind; [auto with lasts | intros fault].
  intros w. destruct fault; [apply outlives_refl |].
  destruct (findVpaManager _ _); [by apply outlives_same | apply outlives_refl].
Qed.

#[export] Hint Resolve lasts_RecordVPAOperation lasts_RecordReconcile
  lasts_UpdateManagedResources lasts_clientGetVpaManager lasts_clientListNamespaces
  lasts_clientStatusPatch : lasts.

(** Ensuring a VPA stores or rewrites one object and removes none; the
    object it rewrites keeps its labels. *)
Lemma lasts_ensureVPAForWorkload (vm : VpaManager) (kind name ns uid vpaName : string) :
  lasts (ensureVPAForWorkload vm kind name ns uid vpaName).
Proof.
  intros w key v Hv.
  unfold ensureVPAForWorkload, clientGetVPA, clientCreateVPA, clientUpdateVPA.
  repeat first
    [ rewrite bind_run
    | progress simpl
    | match goal with
      | |- context [match ?x with _ => _ end] => destruct x eqn:?
      | |- context [if ?x then _ else _] => destruct x eqn:?
      end ];
  try (by exists v); simpl in *.
  1,2: destruct (decide (key = (ns, vpaName))) as [-> | Hne];
    [congruence | rewrite lookup_insert_ne by done; by exists v].
  injection Heqs as <-. simpl in *.
  destruct (decide (key = (ns, vpaName))) as [-> | Hne].
  - rewrite lookup_insert_eq. eexists. split; [done |]. simpl. congruence.
  - rewrite lookup_insert_ne by done. by exists v.
Qed.

#[export] Hint Resolve lasts_ensureVPAForWorkload : lasts.

Lemma lasts_ensureWorkloads (vm : VpaManager) (wls : list Workload) :
  forall managed, lasts (ensureWorkloads vm wls managed).
Proof.
  induction wls as [|wl rest IH]; intros managed; simpl; [auto with lasts |].
  lasts_tac.
Qed.

Lemma lasts_eachPage {St : Type} (kind ns : string) (callback : WorkloadCallback St)
    (pages : list (list Workload)) :
  forall page acc, lasts (eachPage kind ns callback pages page acc).
Proof.
  induction pages as [|items rest IH]; intros page acc; simpl; [auto with lasts |].
  apply lasts_bind; [auto with lasts | intros fault].
  destruct fault; [auto with lasts |].
  destruct (eachItem callback items acc) as [[[] []] acc']; auto with lasts.
Qed.

Lemma lasts_ForEach {St : Type} (p : Provider) (ns : string) (selector : option LabelSelector)
    (callback : WorkloadCallback St) (acc : St) :
  lasts (ForEach p ns selector callback acc).
Proof.
  unfold ForEach. destruct selector; [destruct (LabelSelectorAsSelector _) |];
    try (intros w; apply lasts_eachPage); auto with lasts.
Qed.

Lemma lasts_List_ (p : Provider) (ns : string) (selector : option LabelSelector) :
  lasts (List_ p ns selector).
Proof.
  unfold List_. apply lasts_bind; [apply lasts_ForEach | auto with lasts].
Qed.

#[export] Hint Resolve lasts_ensureWorkloads lasts_List_ : lasts.

Lemma lasts_eachWorkloadConfig (vm : VpaManager) (ns : string) (wcs : list WorkloadConfig) :
  forall st, lasts (eachWorkloadConfig vm ns wcs st).
Proof.
  induction wcs as [|wc rest IH]; intros st; simpl; [auto with lasts |].
  lasts_tac.
Qed.

#[export] Hint Resolve lasts_eachWorkloadConfig : lasts.

Lemma lasts_eachNamespace (r : VpaManagerReconciler) (vm : VpaManager) (nss : list Namespace) :
  forall st, lasts (eachNamespace r vm nss st).
Proof.
  induction nss as [|ns rest IH]; intros st; simpl; [auto with lasts |].
  lasts_tac.
Qed.

Lemma lasts_getMatchingNamespaces (selector : option LabelSelector) :
  lasts (getMatchingNamespaces selector).
Proof. unfold getMatchingNamespaces. lasts_tac. Qed.

Lemma lasts_recordDeletes (n : nat) (name : string) : lasts (recordDeletes n name).
Proof. induction n; simpl; lasts_tac. Qed.

#[export] Hint Resolve lasts_eachNamespace lasts_getMatchingNamespaces lasts_recordDeletes : lasts.

(** X17. What the sweep may delete.  Whatever the server answers, a VPA
    that is gone after [cleanupOrphanedVPAs] carried both labels of the
    manager, and its key [namespace/name] is the key of none of the
    workloads the sweep was given. *)
Theorem cleanupOrphanedVPAs_deletes_only_orphans (vm : VpaManager)
    (cur : list WorkloadReference) (w : World) (key : string * string) (v : Unstructured) :
  vpas w !! key = Some v ->
  vpas (cleanupOrphanedVPAs vm cur w).2 !! key = None ->
  (uLabels v !! managedByLabel = Some "vpa-operator" /\
   uLabels v !! createdByLabel = Some (vmName vm)) /\
  forall wl, wl ∈ cur -> vpaKey (wrNamespace wl) (wrVpaName wl) <> vpaKey key.1 key.2.
Proof.
  intros Hv Hgone.
  destruct (hasLabels (managedLabels vm) (uLabels v)) eqn:Hlab.
  2: { rewrite (cleanupOrphanedVPAs_frame vm cur w key v Hv Hlab) in Hgone. discriminate Hgone. }
  split; [by apply hasLabels_managed |].
  intros wl Hwl Hkey.
  rewrite cleanupOrphanedVPAs_run in Hgone.
  destruct (faults w (length (calls w))); [simpl in Hgone; congruence |].
  destruct (deleteOrphans_store (currentVPAsOf cur) (sweepCandidates vm w) 0
              (setCalls (calls w ++ [ListVPAsCall (vmName vm)]) w)) as (_ & _ & Hframe & _).
  rewrite Hframe in Hgone; [simpl in Hgone; congruence |].
  intros o Ho Heq. unfold orphansOf in Ho.
  apply list_elem_of_In, filter_In in Ho as [_ Ho].
  unfold isOrphan in Ho. apply negb_true_iff in Ho.
  assert (Hcur : default false (currentVPAsOf cur !! vpaKey (uNamespace o) (uName o)) = true).
  { apply currentVPAsOf_true. exists wl. split; [done |]. rewrite Hkey. by rewrite <- Heq. }
  congruence.
Qed.

Lemma cleanupOrphanedVPAs_deletes_only_orphans_witness :
  let key := ("test-ns", "deleted-deployment-vpa") in
  let v := createUnstructuredVPA "deleted-deployment-vpa" "test-ns" "deleted-deployment" in
  vpas sweptWorld !! key = Some v /\
  vpas (cleanupOrphanedVPAs (testManager true) [] sweptWorld).2 !! key = None /\
  uLabels v !! createdByLabel = Some "test-vpamanager".
Proof.
  split; [vm_compute; reflexivity |]. split; [vm_compute; reflexivity |].
  apply (cleanupOrphanedVPAs_deletes_only_orphans (testManager true) [] sweptWorld
           ("test-ns", "deleted-deployment-vpa")); vm_compute; reflexivity.
Defined.
(** Closes a goal on the store after the rest [m] of a computation run
    from [wk], when [m] removes nothing. *)
Ltac rest_lasts wk key v Hv :=
  match goal with
  | |- context [vpas (?m wk).2] =>
      let Hk := fresh "Hk" in
      let v' := fresh "v'" in
      let Hv' := fresh "Hv'" in
      let Hl' := fresh "Hl'" in
      assert (Hk : lasts m) by lasts_tac;
      destruct (Hk wk key v Hv) as (v' & Hv' & Hl');
      exists v'; split; [exact Hv' | congruence]
  end.

(** X18. A reconcile removes no VPA of somebody else.  Whatever the server
    answers, a VPA that does not carry both labels of the reconciled
    manager is still stored after [Reconcile], under the labels it had. *)
Theorem Reconcile_spares_foreign_VPAs (r : VpaManagerReconciler) (name : string) (now : Z)
    (w : World) (key : string * string) (v : Unstructured) :
  vpas w !! key = Some v ->
  ~ (uLabels v !! managedByLabel = Some "vpa-operator" /\
     uLabels v !! createdByLabel = Some name) ->
  exists v', vpas (Reconcile r name now w).2 !! key = Some v' /\ uLabels v' = uLabels v.
Proof.
  intros Hv Hforeign.
  unfold Reconcile. rewrite bind_run.
  destruct (lasts_clientGetVpaManager name w key v Hv) as (v1 & Hv1 & Hl1).
  destruct (clientGetVpaManager name w) as [[err | vm] w1] eqn:Hget; cbn [fst snd] in *.
  { rest_lasts w1 key v1 Hv1. }
  assert (Hname : vmName vm = name).
  { apply (findVpaManager_name name (vpaManagers w)).
    apply (clientGetVpaManager_inr name w vm). by rewrite Hget. }
  destruct (negb (Enabled (Spec vm))).
  { rest_lasts w1 key v1 Hv1. }
  rewrite bind_run.
  destruct (lasts_getMatchingNamespaces (NamespaceSelector (Spec vm)) w1 key v1 Hv1)
    as (v2 & Hv2 & Hl2).
  destruct (getMatchingNamespaces (NamespaceSelector (Spec vm)) w1) as [[err | nss] w2];
    cbn [fst snd] in *.
  { rest_lasts w2 key v2 Hv2. }
  rewrite bind_run.
  destruct (lasts_eachNamespace r vm nss ([], O) w2 key v2 Hv2) as (v3 & Hv3 & Hl3).
  destruct (eachNamespace r vm nss ([], O) w2) as [[managed watched] w3]; cbn [fst snd] in *.
  rewrite bind_run.
  assert (Hlab : hasLabels (managedLabels vm) (uLabels v3) = false).
  { destruct (hasLabels (managedLabels vm) (uLabels v3)) eqn:Hlab; [| done].
    apply hasLabels_managed in Hlab. rewrite Hname, Hl3, Hl2, Hl1 in Hlab. done. }
  pose proof (cleanupOrphanedVPAs_frame vm managed w3 key v3 Hv3 Hlab) as Hv4.
  destruct (cleanupOrphanedVPAs vm managed w3) as [[deleted serr] w4]; cbn [fst snd] in *.
  rest_lasts w4 key v3 Hv4.
Qed.

Lemma Reconcile_spares_foreign_VPAs_witness :
  vpas foreignWorld !! ("test-ns", "other-vpa") = Some foreignVPA /\
  ~ (uLabels foreignVPA !! managedByLabel = Some "vpa-operator" /\
     uLabels foreignVPA !! createdByLabel = Some "test-vpamanager") /\
  exists v', vpas (Reconcile defaultReconciler "test-vpamanager" 7%Z foreignWorld).2
               !! ("test-ns", "other-vpa") = Some v' /\
             uLabels v' = uLabels foreignVPA.
Proof.
  split; [vm_compute; reflexivity |].
  split; [intros [_ H]; vm_compute in H; discriminate H |].
  apply (Reconcile_spares_foreign_VPAs defaultReconciler "test-vpamanager" 7%Z foreignWorld
           ("test-ns", "other-vpa") foreignVPA).
  - vm_compute; reflexivity.
  - intros [_ H]; vm_compute in H; discriminate H.
Defined.
(** ** What a reconcile writes to the managers *)

Lemma clientStatusPatch_managers (su original : VpaManager) (w : World) :
  vpaManagers (clientStatusPatch su original w).2 = vpaManagers w \/
  vpaManagers (clientStatusPatch su original w).2 = patchStatusOf original su <$> vpaManagers w.
Proof.
  unfold clientStatusPatch. rewrite bind_run. simpl.
  destruct (faults w (length (calls w))); [by left |].
  destruct (findVpaManager _ _); [by right | by left].
Qed.

Lemma keeps_UpdateManagedResources (name : string) (a b : Z) :
  keeps (UpdateManagedResources name a b).
Proof. unfold UpdateManagedResources. keeps_tac. Qed.

#[export] Hint Resolve keeps_UpdateManagedResources : keeps.

(** Rewrites the managers after the rest [m] of a computation run from
    [wk] into those of [wk], when [m] writes none. *)
Ltac rest_keeps wk :=
  match goal with
  | |- context [vpaManagers (?m wk).2] =>
      let Hk := fresh "Hk" in
      assert (Hk : keeps m) by keeps_tac;
      rewrite (steady_managers _ _ (Hk wk))
  end.

Lemma Reconcile_managers (r : VpaManagerReconciler) (name : string) (now : Z) (w : World) :
  vpaManagers (Reconcile r name now w).2 = vpaManagers w \/
  exists vm su, vmName su = name /\
    vpaManagers (Reconcile r name now w).2 = patchStatusOf vm su <$> vpaManagers w.
Proof.
  unfold Reconcile. rewrite bind_run.
  pose proof (steady_managers _ _ (keeps_clientGetVpaManager name w)) as H1.
  destruct (clientGetVpaManager name w) as [[err | vm] w1] eqn:Hget; cbn [fst snd] in *.
  { left. rest_keeps w1. exact H1. }
  assert (Hname : vmName vm = name).
  { apply (findVpaManager_name name (vpaManagers w)).
    apply (clientGetVpaManager_inr name w vm). by rewrite Hget. }
  destruct (negb (Enabled (Spec vm))).
  { left. rest_keeps w1. exact H1. }
  rewrite bind_run.
  pose proof (steady_managers _ _ (keeps_getMatchingNamespaces (NamespaceSelector (Spec vm)) w1))
    as H2.
  destruct (getMatchingNamespaces (NamespaceSelector (Spec vm)) w1) as [[err | nss] w2];
    cbn [fst snd] in *.
  { left. rest_keeps w2. congruence. }
  rewrite bind_run.
  pose proof (steady_managers _ _ (keeps_eachNamespace r vm nss ([], O) w2)) as H3.
  destruct (eachNamespace r vm nss ([], O) w2) as [[managed watched] w3]; cbn [fst snd] in *.
  rewrite bind_run.
  pose proof (steady_managers _ _ (keeps_cleanupOrphanedVPAs vm managed w3)) as H4.
  destruct (cleanupOrphanedVPAs vm managed w3) as [[deleted serr] w4]; cbn [fst snd] in *.
  rewrite bind_run.
  assert (H5 : vpaManagers (match serr with
                            | Some err => logError err "failed to cleanup orphaned VPAs"
                            | None => ret tt
                            end w4).2 = vpaManagers w4).
  { destruct serr; [apply (steady_managers _ _ (keeps_logError _ _ w4)) | reflexivity]. }
  set (w5 := (match serr with
              | Some err => logError err "failed to cleanup orphaned VPAs"
              | None => ret tt
              end w4).2) in *.
  rewrite bind_run.
  pose proof (steady_managers _ _ (keeps_recordDeletes deleted (vmName vm) w5)) as H6.
  set (w6 := (recordDeletes deleted (vmName vm) w5).2) in *.
  rewrite bind_run.
  pose proof (clientStatusPatch_managers (statusUpdateOf vm managed now) vm w6) as H7.
  destruct (clientStatusPatch (statusUpdateOf vm managed now) vm w6) as [perr w7];
    cbn [fst snd] in *.
  rest_keeps w7.
  destruct H7 as [H7 | H7]; rewrite H7; [left; congruence |].
  right. exists vm, (statusUpdateOf vm managed now). split; [exact Hname | congruence].
Qed.

(** X19. A reconcile writes the status of its own manager and nothing
    else of the managers.  Whatever the server answers, after [Reconcile]
    the stored managers are as many as before, each at its place under its
    name and with its spec, and a manager of another name is unchanged. *)
Theorem Reconcile_writes_own_status_only (r : VpaManagerReconciler) (name : string) (now : Z)
    (w : World) :
  let after := vpaManagers (Reconcile r name now w).2 in
  length after = length (vpaManagers w) /\
  forall i m, vpaManagers w !! i = Some m ->
    exists m', after !! i = Some m' /\ vmName m' = vmName m /\ Spec m' = Spec m /\
               (vmName m <> name -> m' = m).
Proof.
  intros after. subst after.
  destruct (Reconcile_managers r name now w) as [-> | (vm & su & Hsu & ->)].
  { split; [done |]. intros i m Hm. by exists m. }
  split; [apply length_fmap |].
  intros i m Hm. exists (patchStatusOf vm su m).
  split; [by rewrite list_lookup_fmap, Hm |].
  unfold patchStatusOf. rewrite Hsu.
  destruct (String.eqb (vmName m) name) eqn:Heq; [| done].
  apply String.eqb_eq in Heq. done.
Qed.
(** ** The watches *)

Lemma enqueueEach_filter (test : VpaManager -> bool) (items : list VpaManager) :
  forall requests,
    enqueueEach test items requests = requests ++ map vmName (List.filter test items).
Proof.
  induction items as [|vm rest IH]; intros requests; simpl.
  - by rewrite app_nil_r.
  - rewrite IH. destruct (test vm); [| done]. simpl. by rewrite <- app_assoc.
Qed.

Lemma enqueueEach_elem_of (test : VpaManager -> bool) (items : list VpaManager) (name : string) :
  name ∈ enqueueEach test items [] <->
  exists vm, vm ∈ items /\ vmName vm = name /\ test vm = true.
Proof.
  rewrite enqueueEach_filter. simpl. rewrite list_elem_of_In, in_map_iff. split.
  - intros (vm & Hn & Hin). apply filter_In in Hin as [Hin Ht].
    exists vm. by rewrite list_elem_of_In.
  - intros (vm & Hin & Hn & Ht). exists vm. split; [done |].
    apply filter_In. by rewrite <- list_elem_of_In.
Qed.

Lemma enqueueEach_sublist (test test' : VpaManager -> bool) (items : list VpaManager) :
  (forall vm, test vm = true -> test' vm = true) ->
  enqueueEach test items [] `sublist_of` enqueueEach test' items [].
Proof.
  intros Himp. rewrite !enqueueEach_filter. simpl.
  induction items as [|vm rest IH]; simpl; [constructor |].
  destruct (test vm) eqn:Ht.
  - rewrite (Himp vm Ht). simpl. by constructor.
  - destruct (test' vm); simpl; [by constructor | done].
Qed.

(** X20. The requests of the two watches.  When a workload changes a
    request is enqueued for exactly the stored managers that are enabled;
    when a namespace changes, for those of them whose namespace selector
    accepts the namespace, so that these requests are a sublist of the
    former; and when the listing of the managers fails, for none. *)
Theorem watches_enqueue_enabled_managers (ns : Namespace) (w : World) :
  let forNamespace := (findVpaManagersForNamespace ns w).1 in
  let forWorkload := (findVpaManagersForWorkload w).1 in
  forNamespace `sublist_of` forWorkload /\
  (forall name, name ∈ forWorkload <->
     faults w (length (calls w)) = None /\
     exists vm, vm ∈ vpaManagers w /\ vmName vm = name /\ Enabled (Spec vm) = true) /\
  (forall name, name ∈ forNamespace <->
     faults w (length (calls w)) = None /\
     exists vm, vm ∈ vpaManagers w /\ vmName vm = name /\ Enabled (Spec vm) = true /\
       namespaceMatchesSelector ns (NamespaceSelector (Spec vm)) = true).
Proof.
  unfold findVpaManagersForNamespace, findVpaManagersForWorkload, clientListVpaManagers.
  rewrite !bind_run. simpl.
  destruct (faults w (length (calls w))) as [e|]; simpl.
  { split; [constructor |].
    split; intros name; (split; [intros H; by apply elem_of_nil in H | by intros [H _]]). }
  split; [| split].
  - apply enqueueEach_sublist. intros vm H. by apply andb_true_iff in H as [H _].
  - intros name. rewrite enqueueEach_elem_of. split; [by intros H | by intros [_ H]].
  - intros name. rewrite enqueueEach_elem_of. split.
    + intros (vm & Hin & Hn & Ht). apply andb_true_iff in Ht as [Ht1 Ht2].
      split; [done |]. by exists vm.
    + intros (_ & vm & Hin & Hn & Ht1 & Ht2). exists vm.
      split; [done |]. split; [done |]. by apply andb_true_iff.
Qed.

(** X21. The namespace watch and the reconcile agree on what a namespace
    selector accepts: for a stored namespace and a listing that the
    server answers, [namespaceMatchesSelector] holds exactly when
    [getMatchingNamespaces] returns the namespace.  In particular both
    take no selector for every namespace, and a selector that does not
    compile accepts nothing for the watch and is an error for the
    reconcile. *)
Theorem namespaceMatchesSelector_agrees (ns : Namespace) (selector : option LabelSelector)
    (w : World) :
  faults w (length (calls w)) = None ->
  ns ∈ namespaces w ->
  namespaceMatchesSelector ns selector = true <->
  exists nss, (getMatchingNamespaces selector w).1 = inr nss /\ ns ∈ nss.
Proof.
  intros Hfault Hin.
  unfold namespaceMatchesSelector, getMatchingNamespaces, clientListNamespaces.
  destruct selector as [ls|].
  - destruct (LabelSelectorAsSelector (Some ls)) as [err | s].
    + split; [intros H; discriminate H | intros (nss & H & _); discriminate H].
    + rewrite bind_run. simpl. rewrite Hfault. simpl. split.
      * intros Hm. eexists. split; [done |].
        apply list_elem_of_In, filter_In. by rewrite <- list_elem_of_In.
      * intros (nss & [= <-] & Hns). by apply list_elem_of_In, filter_In in Hns as [_ Hns].
  - rewrite bind_run. simpl. rewrite Hfault. simpl.
    split; [intros _; by exists (namespaces w) | done].
Qed.

Lemma namespaceMatchesSelector_agrees_witness :
  let w := testWorld (testManager true) [] ∅ noFaults in
  let selector := Some (matchLabel "vpa-enabled" "true") in
  faults w (length (calls w)) = None /\
  testNamespace ∈ namespaces w /\
  (namespaceMatchesSelector testNamespace selector = true <->
   exists nss, (getMatchingNamespaces selector w).1 = inr nss /\ testNamespace ∈ nss).
Proof.
  split; [reflexivity |]. split; [apply list_elem_of_here |].
  apply (namespaceMatchesSelector_agrees testNamespace (Some (matchLabel "vpa-enabled" "true"))
           (testWorld (testManager true) [] ∅ noFaults)).
  - reflexivity.
  - apply list_elem_of_here.
Defined.

(** ** The webhook and the reconciler on the same workload *)

Lemma setSpec_buildVPA (h : Handler) (vm : VpaManager) (obj : WorkloadObject)
    (vpaName : string) :
  setSpec (stored (oNamespace obj, vpaName) (buildVPA h vm obj vpaName))
    (buildVPAForWorkload vm (handlerKind h) (oName obj) (oNamespace obj) (oUID obj) vpaName)
  = buildVPA h vm obj vpaName.
Proof.
  unfold setSpec, stored, buildVPA, buildVPAForWorkload. simpl. by f_equal.
Qed.

(** X22. The reconciler leaves a VPA of the webhook as the webhook made
    it.  When every request is answered and the VPA stored for a workload
    is the one [buildVPA] makes for it, [ensureVPAForWorkload] reports an
    update that was no creation and the store is what it was; the owner
    reference stays without the controller flag that
    [buildVPAForWorkload] would set, so the stored VPA is not the one the
    reconciler would have created. *)
Theorem ensureVPAForWorkload_keeps_webhook_VPA (h : Handler) (vm : VpaManager)
    (obj : WorkloadObject) (vpaName : string) (w : World) :
  let built :=
    buildVPAForWorkload vm (handlerKind h) (oName obj) (oNamespace obj) (oUID obj) vpaName in
  let out :=
    ensureVPAForWorkload vm (handlerKind h) (oName obj) (oNamespace obj) (oUID obj) vpaName w in
  (forall i, faults w i = None) ->
  vpas w !! (oNamespace obj, vpaName) = Some (buildVPA h vm obj vpaName) ->
  out.1 = (false, None) /\ vpas out.2 = vpas w /\
  vpas out.2 !! (oNamespace obj, vpaName) <> Some built.
Proof.
  intros built out Hcalm Hstored. subst built out.
  pose proof (ensureVPAForWorkload_calm vm (handlerKind h) (oName obj) (oNamespace obj)
                (oUID obj) vpaName w Hcalm) as H.
  cbv zeta in H. rewrite Hstored in H. destruct H as (_ & Hres & Hv).
  rewrite setSpec_buildVPA in Hv. rewrite insert_id in Hv by done.
  split; [done |]. split; [done |].
  rewrite Hv, Hstored. intros [=].
Qed.

Lemma ensureVPAForWorkload_keeps_webhook_VPA_witness :
  let vm := testManager true in
  let stored := buildVPA DeploymentWebhookHandler vm testObject "test-app-vpa" in
  let w := testWorld vm [] {[ ("test-ns", "test-app-vpa") := stored ]} noFaults in
  vpas w !! ("test-ns", "test-app-vpa") = Some stored /\
  vpas (ensureVPAForWorkload vm "Deployment" "test-app" "test-ns" "test-uid" "test-app-vpa" w).2
    = vpas w.
Proof.
  split; [vm_compute; reflexivity |].
  apply (ensureVPAForWorkload_keeps_webhook_VPA DeploymentWebhookHandler (testManager true)
           testObject "test-app-vpa"
           (testWorld (testManager true) []
              {[ ("test-ns", "test-app-vpa") :=
                   buildVPA DeploymentWebhookHandler (testManager true) testObject
                     "test-app-vpa" ]} noFaults)).
  - reflexivity.
  - vm_compute; reflexivity.
Defined.
(** ** What an admission writes *)

Section leaves.
Variable key : string * string.

Lemma leaves_ret {A : Type} (a : A) : leaves key (ret a).
Proof. by intros w. Qed.

Lemma leaves_bind {A B : Type} (m : M A) (k : A -> M B) :
  leaves key m -> (forall a, leaves key (k a)) -> leaves key (bind m k).
Proof. intros Hm Hk w. rewrite bind_run. by rewrite Hk, Hm. Qed.

Lemma leaves_request (c : APICall) : leaves key (request c).
Proof. by intros w. Qed.

Lemma leaves_logError (e : error) (msg : string) : leaves key (logError e msg).
Proof. by intros w. Qed.

Lemma leaves_RecordVPAOperation (op name : string) : leaves key (RecordVPAOperation op name).
Proof. by intros w. Qed.

Lemma leaves_RecordWebhookRequest (op : string) (err : option error) :
  leaves key (RecordWebhookRequest op err).
Proof. intros w. unfold RecordWebhookRequest. by destruct (classifyResult err). Qed.

Lemma leaves_findMatchingVpaManager (h : Handler) (obj : WorkloadObject) :
  leaves key (findMatchingVpaManager h obj).
Proof.
  intros w. unfold findMatchingVpaManager, clientListVpaManagers, clientGetNamespace.
  repeat first
    [ rewrite bind_run
    | progress simpl
    | match goal with
      | |- context [match ?x with _ => _ end] => destruct x eqn:?
      end ]; reflexivity.
Qed.

Lemma leaves_clientGetVPA (ns name : string) : leaves key (clientGetVPA ns name).
Proof.
  intros w. unfold clientGetVPA. rewrite bind_run. simpl.
  destruct (faults w (length (calls w))); [done |]. by destruct (vpas w !! (ns, name)).
Qed.

Lemma leaves_clientCreateVPA (vpa : Unstructured) :
  key <> (uNamespace vpa, uName vpa) -> leaves key (clientCreateVPA vpa).
Proof.
  intros Hne w. unfold clientCreateVPA. rewrite bind_run. simpl.
  destruct (faults w (length (calls w))); [done |].
  destruct (vpas w !! (uNamespace vpa, uName vpa)); [done |].
  simpl. by rewrite lookup_insert_ne.
Qed.

Lemma leaves_clientUpdateVPA (vpa : Unstructured) :
  key <> (uNamespace vpa, uName vpa) -> leaves key (clientUpdateVPA vpa).
Proof.
  intros Hne w. unfold clientUpdateVPA. rewrite bind_run. simpl.
  destruct (faults w (length (calls w))); [done |].
  destruct (vpas w !! (uNamespace vpa, uName vpa)); [| done].
  simpl. by rewrite lookup_insert_ne.
Qed.

Lemma leaves_clientDeleteVPA (ns name : string) :
  key <> (ns, name) -> leaves key (clientDeleteVPA ns name).
Proof.
  intros Hne w. unfold clientDeleteVPA. rewrite bind_run. simpl.
  destruct (faults w (length (calls w))) as [e|].
  - destruct (IsNotFound (Some e)); [| done]. simpl. by rewrite lookup_delete_ne.
  - destruct (vpas w !! (ns, name)); [| done]. simpl. by rewrite lookup_delete_ne.
Qed.

Lemma leaves_createVPA (h : Handler) (vm : VpaManager) (obj : WorkloadObject)
    (vpaName : string) :
  key <> (oNamespace obj, vpaName) -> leaves key (createVPA h vm obj vpaName).
Proof.
  intros Hne. unfold createVPA.
  apply leaves_bind; [apply leaves_clientGetVPA | intros [err | existing]];
    [| apply leaves_ret].
  destruct (negb (IsNotFound (Some err))); [apply leaves_ret |].
  by apply leaves_clientCreateVPA.
Qed.

Lemma leaves_updateVPA (h : Handler) (vm : VpaManager) (obj : WorkloadObject)
    (vpaName : string) :
  key <> (oNamespace obj, vpaName) -> leaves key (updateVPA h vm obj vpaName).
Proof.
  intros Hne w. unfold updateVPA, clientGetVPA. rewrite !bind_run. simpl.
  destruct (faults w (length (calls w))) as [e|]; simpl.
  - destruct (IsNotFound (Some e)); [| done].
    by rewrite (leaves_createVPA h vm obj vpaName Hne _).
  - destruct (vpas w !! (oNamespace obj, vpaName)) as [existing|]; simpl.
    + by rewrite (leaves_clientUpdateVPA
                    (setSpec (stored (oNamespace obj, vpaName) existing)
                       (buildVPA h vm obj vpaName)) Hne _).
    + by rewrite (leaves_createVPA h vm obj vpaName Hne _).
Qed.

Lemma leaves_deleteVPA (ns vpaName : string) :
  key <> (ns, vpaName) -> leaves key (deleteVPA ns vpaName).
Proof.
  intros Hne. unfold deleteVPA.
  apply leaves_bind; [by apply leaves_clientDeleteVPA | intros err].
  destruct (IsNotFound err); apply leaves_ret.
Qed.
End leaves.

Lemma leaves_dispatch (key : string * string) (h : Handler) (req : Request) :
  (forall obj, Object req = inr obj -> key <> (oNamespace obj, vpaNameOf (oName obj))) ->
  (forall obj, OldObject req = inr obj -> key <> (oNamespace obj, vpaNameOf (oName obj))) ->
  leaves key (dispatch h req).
Proof.
  intros Hnew Hold. unfold dispatch, handleCreate, handleUpdate, handleDelete.
  destruct (Object req) as [e1 | newObj]; destruct (OldObject req) as [e2 | oldObj];
    try specialize (Hnew _ eq_refl); try specialize (Hold _ eq_refl);
    repeat first
      [ apply leaves_ret
      | apply leaves_RecordVPAOperation
      | apply leaves_findMatchingVpaManager
      | apply leaves_createVPA; assumption
      | apply leaves_updateVPA; assumption
      | apply leaves_deleteVPA; assumption
      | apply leaves_bind; [| intros ?]
      | match goal with
        | |- leaves _ (match ?x with _ => _ end) => destruct x
        | |- leaves _ (if ?x then _ else _) => destruct x
        end ].
Qed.

(** X23. An admission writes one VPA at most.  Whatever the server
    answers, [Handle] leaves alone every VPA but the one named
    [<name>-vpa] in the namespace of the workload of the request. *)
Theorem Handle_writes_one_VPA (h : Handler) (req : Request) (w : World)
    (key : string * string) :
  (forall obj, Object req = inr obj -> key <> (oNamespace obj, vpaNameOf (oName obj))) ->
  (forall obj, OldObject req = inr obj -> key <> (oNamespace obj, vpaNameOf (oName obj))) ->
  vpas (Handle h req w).2 !! key = vpas w !! key.
Proof.
  intros Hnew Hold. rewrite Handle_vpas. by apply leaves_dispatch.
Qed.

Lemma Handle_writes_one_VPA_witness :
  let req := deleteRequest {| oName := "deleted-deployment"; oNamespace := "test-ns";
                              oUID := "uid-1"; oLabels := vpaEnabled |} in
  vpas (Handle DeploymentWebhookHandler req foreignWorld).2 !! ("test-ns", "other-vpa")
    = Some foreignVPA /\
  vpas (Handle DeploymentWebhookHandler req foreignWorld).2
    !! ("test-ns", "deleted-deployment-vpa") = None.
Proof.
  split; [| vm_compute; reflexivity].
  rewrite (Handle_writes_one_VPA DeploymentWebhookHandler _ foreignWorld ("test-ns", "other-vpa")).
  - vm_compute; reflexivity.
  - intros obj H; discriminate H.
  - intros obj [= <-]. intros H; discriminate H.
Defined.
(** X24. The switch of [Handle] has no default.  A request whose
    operation is none of CREATE, UPDATE and DELETE (a CONNECT, say) is
    allowed without a request to the server, a write or a log entry, and
    is counted as a success under its operation. *)
Theorem Handle_other_operation (h : Handler) (req : Request) (w : World) :
  let out := Handle h req w in
  Operation req <> "CREATE" -> Operation req <> "UPDATE" -> Operation req <> "DELETE" ->
  Allowed out.1 = true /\
  calls out.2 = calls w /\ vpas out.2 = vpas w /\ logs out.2 = logs w /\
  metrics out.2 =
    metrics w ++ [ WebhookRequestsTotalInc (Operation req) ResultSuccess EmptyString;
                   WebhookDurationObserve (Operation req) ResultSuccess ].
Proof.
  intros out Hc Hu Hd. subst out. unfold Handle, dispatch.
  apply String.eqb_neq in Hc, Hu, Hd. rewrite Hc, Hu, Hd.
  unfold RecordWebhookRequest. rewrite !bind_run. simpl.
  by rewrite <- app_assoc.
Qed.

Lemma Handle_other_operation_witness :
  let req := {| Operation := "CONNECT"; Object := inr testObject; OldObject := inr testObject |} in
  let w := testWorld (testManager true) [] ∅ noFaults in
  calls (Handle DeploymentWebhookHandler req w).2 = calls w.
Proof.
  apply (Handle_other_operation DeploymentWebhookHandler
           {| Operation := "CONNECT"; Object := inr testObject; OldObject := inr testObject |}
           (testWorld (testManager true) [] ∅ noFaults)); intros H; discriminate H.
Defined.

(** X25. A request that cannot be decoded.  When the object that the
    handler of the operation reads does not decode (the object of a
    CREATE, the old object of a DELETE, either of them for an UPDATE),
    [Handle] sends no request to the server and writes nothing; the
    admission is still allowed and is counted as an error under its
    operation. *)
Theorem Handle_undecodable (h : Handler) (req : Request) (w : World) :
  let out := Handle h req w in
  (Operation req = "CREATE" -> exists e, Object req = inl e) ->
  (Operation req = "UPDATE" -> exists e, Object req = inl e \/ OldObject req = inl e) ->
  (Operation req = "DELETE" -> exists e, OldObject req = inl e) ->
  Allowed out.1 = true /\ calls out.2 = calls w /\ vpas out.2 = vpas w /\
  (Operation req = "CREATE" \/ Operation req = "UPDATE" \/ Operation req = "DELETE" ->
   exists errorType,
     metrics out.2 =
       metrics w ++ [ WebhookRequestsTotalInc (Operation req) ResultError errorType;
                      WebhookDurationObserve (Operation req) ResultError ]).
Proof.
  intros out Hcreate Hupdate Hdelete. subst out.
  unfold Handle, dispatch, handleCreate, handleUpdate, handleDelete, RecordWebhookRequest.
  destruct (String.eqb (Operation req) "CREATE") eqn:Hc;
    [| destruct (String.eqb (Operation req) "UPDATE") eqn:Hu;
       [| destruct (String.eqb (Operation req) "DELETE") eqn:Hd]].
  - apply String.eqb_eq in Hc. destruct (Hcreate Hc) as [e ->].
    rewrite !bind_run; simpl. repeat (split; [done |]).
    intros _; eexists; by rewrite <- app_assoc.
  - apply String.eqb_eq in Hu. destruct (Hupdate Hu) as [e [-> | ->]];
      [| destruct (Object req)];
      rewrite !bind_run; simpl; repeat (split; [done |]);
      intros _; eexists; by rewrite <- app_assoc.
  - apply String.eqb_eq in Hd. destruct (Hdelete Hd) as [e ->].
    rewrite !bind_run; simpl. repeat (split; [done |]).
    intros _; eexists; by rewrite <- app_assoc.
  - rewrite !bind_run; simpl. repeat (split; [done |]).
    apply String.eqb_neq in Hc, Hu, Hd. by intros [H | [H | H]].
Qed.

Lemma Handle_undecodable_witness :
  let req := {| Operation := "UPDATE"; Object := inr testObject;
                OldObject := inl decodeFailure |} in
  let w := testWorld (testManager true) [] ∅ noFaults in
  calls (Handle StatefulSetWebhookHandler req w).2 = calls w.
Proof.
  apply (Handle_undecodable StatefulSetWebhookHandler
           {| Operation := "UPDATE"; Object := inr testObject;
              OldObject := inl decodeFailure |}
           (testWorld (testManager true) [] ∅ noFaults)).
  - intros H; discriminate H.
  - intros _. exists decodeFailure. by right.
  - intros H; discriminate H.
Defined.
(** ** Iteration over the pages of a listing *)

Lemma eachItem_app {St : Type} (callback : WorkloadCallback St) (items rest : list Workload) :
  forall acc,
    eachItem callback (items ++ rest) acc =
      match eachItem callback items acc with
      | ((true, None), acc') => eachItem callback rest acc'
      | stopped => stopped
      end.
Proof.
  induction items as [|x items IH]; intros acc; simpl; [done |].
  destruct (callback x acc) as [[[] [e|]] acc']; try done; apply IH.
Qed.

Lemma eachItem_outcome {St : Type} (callback : WorkloadCallback St) (items : list Workload) :
  forall acc,
    (eachItem callback items acc).1.1 = true -> (eachItem callback items acc).1.2 = None.
Proof.
  induction items as [|x items IH]; intros acc; simpl; [done |].
  destruct (callback x acc) as [[[] [e|]] acc']; try done; apply IH.
Qed.

Lemma eachPage_eachItem {St : Type} (kind ns : string) (callback : WorkloadCallback St)
    (pages : list (list Workload)) :
  forall (page : nat) (acc : St) (w : World),
    (forall i, faults w i = None) ->
    let out := eachPage kind ns callback pages page acc w in
    let run := eachItem callback (concat pages) acc in
    out.1 = (run.1.2, run.2) /\
    exists k, (k <= length pages)%nat /\
      calls out.2 = calls w ++ (ListWorkloadsCall kind ns <$> seq page k).
Proof.
  induction pages as [|items rest IH]; intros page acc w Hcalm.
  { simpl. split; [done |]. exists O. by rewrite app_nil_r. }
  cbn [eachPage concat]. rewrite bind_run, request_calm by apply Hcalm. cbn [fst snd].
  rewrite eachItem_app.
  pose proof (eachItem_outcome callback items acc) as Hout.
  destruct (eachItem callback items acc) as [[[] [e|]] acc'] eqn:Hrun; cbn [fst snd] in *.
  - by specialize (Hout eq_refl).
  - destruct (IH (S page) acc' (setCalls (calls w ++ [ListWorkloadsCall kind ns page]) w))
      as (Hres & k & Hk & Hcalls); [apply Hcalm |].
    split; [exact Hres |]. exists (S k). split; [simpl; lia |].
    rewrite Hcalls. simpl. by rewrite <- app_assoc.
  - split; [done |]. exists 1%nat. split; [simpl; lia | done].
  - split; [done |]. exists 1%nat. split; [simpl; lia | done].
Qed.

(** X26. The pages of a listing are invisible to the callback.  With every
    request answered, [ForEach] hands the callback the objects of its kind
    in the namespace that the selector keeps, one by one and in order,
    until the callback stops the iteration or returns an error, which is
    then the error of [ForEach]; it sends requests for consecutive pages
    from the first, at most one per page; and a selector that does not
    compile is returned as the error before any request and any call of
    the callback. *)
Theorem ForEach_pages_are_invisible {St : Type} (p : Provider) (ns : string)
    (selector : option LabelSelector) (callback : WorkloadCallback St) (acc : St) (w : World) :
  (forall i, faults w i = None) ->
  let out := ForEach p ns selector callback acc w in
  match listingSelector selector with
  | inl err => out = ((Some err, acc), w)
  | inr sel =>
      let items := selectWorkloads (Kind p) ns sel (workloads w) in
      let run := eachItem callback items acc in
      out.1 = (run.1.2, run.2) /\
      exists k, (k <= length (pagesOf PageSize items))%nat /\
        calls out.2 = calls w ++ (ListWorkloadsCall (Kind p) ns <$> seq 0 k)
  end.
Proof.
  intros Hcalm out. subst out. unfold ForEach, listingSelector.
  assert (Hgo : forall sel,
    let items := selectWorkloads (Kind p) ns sel (workloads w) in
    let out := eachPage (Kind p) ns callback (pagesOf PageSize items) 0 acc w in
    out.1 = ((eachItem callback items acc).1.2, (eachItem callback items acc).2) /\
    exists k, (k <= length (pagesOf PageSize items))%nat /\
      calls out.2 = calls w ++ (ListWorkloadsCall (Kind p) ns <$> seq 0 k)).
  { intros sel items.
    pose proof (eachPage_eachItem (Kind p) ns callback (pagesOf PageSize items) 0 acc w Hcalm)
      as H.
    cbv zeta in H. rewrite pagesOf_concat in H by (unfold PageSize; lia). exact H. }
  destruct selector as [ls|]; [destruct (LabelSelectorAsSelector (Some ls)) |];
    [done | apply Hgo | apply Hgo].
Qed.

Lemma ForEach_pages_are_invisible_witness :
  let stopAtFirst : WorkloadCallback nat := fun _ seen => ((false, None), S seen) in
  (ForEach DeploymentProvider "test-ns" None stopAtFirst O countsWorld).1 = (None, 1%nat).
Proof.
  intros stopAtFirst.
  pose proof (ForEach_pages_are_invisible DeploymentProvider "test-ns" None stopAtFirst O
                countsWorld (fun _ => eq_refl)) as H.
  apply H.
Defined.

(** ** The workloads behind the recorded references *)

Lemma eachPage_collect_elem (kind ns : string) (pages : list (list Workload)) :
  forall (page : nat) (acc : list Workload) (w : World) (x : Workload),
    x ∈ (eachPage kind ns (fun x workloads => ((true, None), workloads ++ [x])) pages page acc w).1.2 ->
    x ∈ acc \/ x ∈ concat pages.
Proof.
  induction pages as [|items rest IH]; intros page acc w x; [by left |].
  cbn [eachPage]. rewrite bind_run.
  destruct (request (ListWorkloadsCall kind ns page) w).1; [by left |].
  rewrite eachItem_collect. intros Hx. apply IH in Hx as [Hx | Hx].
  - apply elem_of_app in Hx as [Hx | Hx]; [by left |].
    right. simpl. apply elem_of_app. by left.
  - right. simpl. apply elem_of_app. by right.
Qed.

(** What [List] returns, with or without an error, are workloads of the
    cluster of the provider's kind, in the namespace, that the selector
    accepts. *)
Lemma List_listed (p : Provider) (ns : string) (selector : LabelSelector) (w : World)
    (x : Workload) :
  x ∈ (List_ p ns (Some selector) w).1.1 ->
  x ∈ workloads w /\ wKind x = Kind p /\ wNamespace x = ns /\ accepts selector (wLabels x).
Proof.
  unfold List_, ForEach. rewrite bind_run. unfold accepts.
  destruct (LabelSelectorAsSelector (Some selector)) as [err | s].
  { simpl. intros H. by apply elem_of_nil in H. }
  simpl. intros Hx. apply eachPage_collect_elem in Hx as [Hx | Hx];
    [by apply elem_of_nil in Hx |].
  rewrite pagesOf_concat in Hx by (unfold PageSize; lia).
  apply list_elem_of_In, filter_In in Hx as [Hin Hx].
  apply andb_true_iff in Hx as [Hx Hm]. apply andb_true_iff in Hx as [Hk Hn].
  apply String.eqb_eq in Hk, Hn. apply list_elem_of_In in Hin.
  split; [done |]. split; [done |]. split; [done |]. by exists s.
Qed.

Lemma ensureWorkloads_recorded (P : WorkloadReference -> Prop) (vm : VpaManager)
    (wls : list Workload) :
  forall (managed : list WorkloadReference) (w : World),
    (forall wl, wl ∈ wls -> P (referenceOf wl (vpaNameOf (wName wl)))) ->
    (forall ref, ref ∈ managed -> P ref) ->
    forall ref, ref ∈ (ensureWorkloads vm wls managed w).1 -> P ref.
Proof.
  induction wls as [|wl rest IH]; intros managed w Hwls Hmanaged; [exact Hmanaged |].
  cbn [ensureWorkloads]. rewrite bind_run.
  destruct (ensureVPAForWorkload vm (wKind wl) (wName wl) (wNamespace wl) (wUID wl)
              (vpaNameOf (wName wl)) w) as [[created [e|]] w1]; cbn [fst snd];
    rewrite bind_run; apply IH; try done.
  - intros x Hx. apply Hwls. by right.
  - intros x Hx. apply Hwls. by right.
  - intros ref Href. apply elem_of_app in Href as [Href | Href]; [by apply Hmanaged |].
    apply list_elem_of_singleton in Href as ->. apply Hwls. by left.
Qed.

Lemma eachWorkloadConfig_recorded (P : WorkloadReference -> Prop) (vm : VpaManager)
    (ns : string) (cluster : list Workload) (wcs : list WorkloadConfig) :
  (forall wc selector wl,
     wc ∈ wcs -> wcSelector wc (Spec vm) = Some selector ->
     wl ∈ cluster -> wKind wl = Kind (wcProvider wc) -> wNamespace wl = ns ->
     accepts selector (wLabels wl) ->
     P (referenceOf wl (vpaNameOf (wName wl)))) ->
  forall (st : list WorkloadReference * nat) (w : World),
    workloads w = cluster ->
    (forall ref, ref ∈ st.1 -> P ref) ->
    forall ref, ref ∈ (eachWorkloadConfig vm ns wcs st w).1.1 -> P ref.
Proof.
  induction wcs as [|wc rest IH]; intros Hwcs st w Hcluster Hst; [exact Hst |].
  assert (Hrest : forall wc' selector wl,
     wc' ∈ rest -> wcSelector wc' (Spec vm) = Some selector ->
     wl ∈ cluster -> wKind wl = Kind (wcProvider wc') -> wNamespace wl = ns ->
     accepts selector (wLabels wl) ->
     P (referenceOf wl (vpaNameOf (wName wl)))).
  { intros wc' selector wl Hin. apply Hwcs. by right. }
  cbn [eachWorkloadConfig].
  destruct (wcSelector wc (Spec vm)) as [selector|] eqn:Hsel; [| by apply IH].
  rewrite bind_run.
  pose proof (List_listed (wcProvider wc) ns selector w) as Hlisted.
  pose proof (steady_workloads _ _ (keeps_List_ (wcProvider wc) ns (Some selector) w)) as Hw1.
  destruct (List_ (wcProvider wc) ns (Some selector) w) as [[wls [e|]] w1]; cbn [fst snd] in *.
  - rewrite bind_run. apply IH; [done | simpl; congruence | done].
  - rewrite bind_run.
    pose proof (steady_workloads _ _ (keeps_ensureWorkloads vm wls st.1 w1)) as Hw2.
    apply IH; [done | congruence |]. cbn [fst].
    apply ensureWorkloads_recorded; [| done].
    intros wl Hwl. destruct (Hlisted wl Hwl) as (Hin & Hkind & Hns & Hacc).
    apply (Hwcs wc selector wl); try done; [by left | congruence].
Qed.

Lemma eachNamespace_recorded (P : WorkloadReference -> Prop) (r : VpaManagerReconciler)
    (vm : VpaManager) (cluster : list Workload) (nss : list Namespace) :
  (forall ns wc selector wl,
     ns ∈ nss -> wc ∈ WorkloadConfigs r -> wcSelector wc (Spec vm) = Some selector ->
     wl ∈ cluster -> wKind wl = Kind (wcProvider wc) -> wNamespace wl = nsName ns ->
     accepts selector (wLabels wl) ->
     P (referenceOf wl (vpaNameOf (wName wl)))) ->
  forall (st : list WorkloadReference * nat) (w : World),
    workloads w = cluster ->
    (forall ref, ref ∈ st.1 -> P ref) ->
    forall ref, ref ∈ (eachNamespace r vm nss st w).1.1 -> P ref.
Proof.
  induction nss as [|ns rest IH]; intros Hnss st w Hcluster Hst; [exact Hst |].
  cbn [eachNamespace]. rewrite bind_run.
  pose proof (steady_workloads _ _
                (keeps_eachWorkloadConfig vm (nsName ns) (WorkloadConfigs r) st w)) as Hw1.
  apply IH.
  - intros ns' wc selector wl Hin. apply Hnss. by right.
  - congruence.
  - apply (eachWorkloadConfig_recorded P vm (nsName ns) cluster); [| done | done].
    intros wc selector wl. apply Hnss. by left.
Qed.

Lemma getMatchingNamespaces_inr (selector : option LabelSelector) (w : World)
    (nss : list Namespace) :
  (getMatchingNamespaces selector w).1 = inr nss ->
  forall ns, ns ∈ nss ->
    ns ∈ namespaces w /\
    match selector with
    | None => True
    | Some sel => accepts sel (nsLabels ns)
    end.
Proof.
  unfold getMatchingNamespaces, clientListNamespaces, accepts.
  destruct selector as [sel|].
  - destruct (LabelSelectorAsSelector (Some sel)) as [err | s]; [intros H; discriminate H |].
    rewrite bind_run. simpl. destruct (faults w (length (calls w))); [intros H; discriminate H |].
    simpl. intros [= <-] ns Hns. apply list_elem_of_In, filter_In in Hns as [Hin Hm].
    apply list_elem_of_In in Hin. split; [done |]. by exists s.
  - rewrite bind_run. simpl. destruct (faults w (length (calls w))); [intros H; discriminate H |].
    simpl. by intros [= <-] ns Hns.
Qed.

Lemma clientStatusPatch_cluster (su original : VpaManager) (w : World) :
  workloads (clientStatusPatch su original w).2 = workloads w /\
  namespaces (clientStatusPatch su original w).2 = namespaces w.
Proof.
  unfold clientStatusPatch. rewrite bind_run. simpl.
  destruct (faults w (length (calls w))); [done |].
  by destruct (findVpaManager _ _).
Qed.

Lemma matchesNow_same (r : VpaManagerReconciler) (spec : VpaManagerSpec) (w w' : World)
    (wl : Workload) :
  workloads w' = workloads w -> namespaces w' = namespaces w ->
  matchesNow r spec w wl -> matchesNow r spec w' wl.
Proof. unfold matchesNow. by intros -> ->. Qed.

(** ** No orphan after a reconcile *)

(** A reconcile that reads an enabled manager, ends without error and logs
    no sweep failure leaves no orphan. *)
Lemma Reconcile_sweep_complete (r : VpaManagerReconciler) (name : string) (now : Z)
    (w : World) (vm : VpaManager) :
  let out := Reconcile r name now w in
  (clientGetVpaManager name w).1 = inr vm ->
  Enabled (Spec vm) = true ->
  out.1.2 = None ->
  (forall e, cleanupFailure e ∉ drop (length (logs w)) (logs out.2)) ->
  (exists vm', findVpaManager name (vpaManagers out.2) = Some vm') /\
  noOrphansLeft r name out.2.
Proof.
  intros out Hget Hen Hok Hlog. subst out.
  destruct (clientGetVpaManager_inr _ _ _ Hget) as (Hfind & Hfault & Hv1 & Hl1).
  pose proof (keeps_clientGetVpaManager name w) as Hst1.
  pose proof (findVpaManager_name _ _ _ Hfind) as Hname.
  unfold Reconcile in *. rewrite bind_run in *. rewrite Hget in *.
  set (w1 := (clientGetVpaManager name w).2) in *.
  rewrite Hen in *. cbn [negb] in *. rewrite bind_run in *.
  pose proof (keeps_getMatchingNamespaces (NamespaceSelector (Spec vm)) w1) as Hst2.
  pose proof (getMatchingNamespaces_inr (NamespaceSelector (Spec vm)) w1) as Hnss.
  destruct (getMatchingNamespaces (NamespaceSelector (Spec vm)) w1) as [[err | nss] w2];
    [discriminate Hok |].
  cbn [fst snd] in *. specialize (Hnss nss eq_refl). rewrite bind_run in *.
  pose proof (keeps_eachNamespace r vm nss ([], O) w2) as Hst3.
  pose proof (eachNamespace_recorded
                (fun ref => exists wl, matchesNow r (Spec vm) w wl /\
                                       ref = referenceOf wl (vpaNameOf (wName wl)))
                r vm (workloads w) nss) as Hrec.
  specialize (fun H => Hrec H ([], O) w2).
  destruct (eachNamespace r vm nss ([], O) w2) as [[managed watched] w3].
  cbn [fst snd] in *. rewrite bind_run in *.
  pose proof (keeps_cleanupOrphanedVPAs vm managed w3) as Hst4.
  pose proof (cleanupOrphanedVPAs_complete vm managed w3) as Hsweep.
  destruct (cleanupOrphanedVPAs vm managed w3) as [[deleted serr] w4].
  cbn [fst snd] in *.
  assert (Hserr : serr = None).
  { destruct serr as [e|]; [| done]. exfalso. apply (Hlog e).
    destruct (steady_logs _ _ (steady_trans _ _ _ Hst1
                (steady_trans _ _ _ Hst2 (steady_trans _ _ _ Hst3 Hst4)))) as [l Hl].
    rewrite !bind_run. cbn [logError fst snd].
    pose proof (recordDeletes_run deleted (vmName vm)
                  (setLogs (logs w4 ++ [LogError e "failed to cleanup orphaned VPAs"]) w4))
      as (_ & Hlr & _).
    pose proof (clientStatusPatch_run (statusUpdateOf vm managed now) vm
                  (recordDeletes deleted (vmName vm)
                     (setLogs (logs w4 ++ [LogError e "failed to cleanup orphaned VPAs"]) w4)).2)
      as (_ & Hlp & _).
    cbv zeta in Hlp.
    destruct (clientStatusPatch _ _ _) as [[perr|] w6]; cbn [fst snd] in *;
      unfold RecordReconcile, UpdateManagedResources; simpl;
      rewrite Hlp, Hlr; simpl; rewrite Hl, <- !app_assoc, drop_app_length;
      rewrite !elem_of_app; right; left; apply list_elem_of_here. }
  subst serr. rewrite !bind_run in *. cbn [ret fst snd] in *.
  pose proof (recordDeletes_run deleted (vmName vm) w4) as (Hvr & _ & Hmr & _).
  pose proof (keeps_recordDeletes deleted (vmName vm) w4) as Hst5.
  set (w5 := (recordDeletes deleted (vmName vm) w4).2) in *.
  pose proof (clientStatusPatch_run (statusUpdateOf vm managed now) vm w5) as (Hvp & _ & Hmp).
  pose proof (clientStatusPatch_cluster (statusUpdateOf vm managed now) vm w5) as [Hwp Hnp].
  cbv zeta in Hmp.
  destruct (clientStatusPatch (statusUpdateOf vm managed now) vm w5) as [[perr|] w6];
    cbn [fst snd] in *; [discriminate Hok |].
  specialize (Hmp eq_refl).
  assert (Hm4 : vpaManagers w4 = vpaManagers w).
  { rewrite (steady_managers _ _ Hst4), (steady_managers _ _ Hst3),
      (steady_managers _ _ Hst2). apply (steady_managers _ _ Hst1). }
  assert (Hw6 : workloads w6 = workloads w).
  { rewrite Hwp, (steady_workloads _ _ Hst5), (steady_workloads _ _ Hst4),
      (steady_workloads _ _ Hst3), (steady_workloads _ _ Hst2).
    apply (steady_workloads _ _ Hst1). }
  assert (Hn6 : namespaces w6 = namespaces w).
  { rewrite Hnp, (steady_namespaces _ _ Hst5), (steady_namespaces _ _ Hst4),
      (steady_namespaces _ _ Hst3), (steady_namespaces _ _ Hst2).
    apply (steady_namespaces _ _ Hst1). }
  assert (Hfind' : findVpaManager name (vpaManagers w6) =
                   Some {| vmName := vmName vm; Spec := Spec vm;
                           Status := Status (statusUpdateOf vm managed now) |}).
  { rewrite Hmp, Hmr, Hm4. by apply findVpaManager_patched. }
  unfold RecordReconcile, UpdateManagedResources. simpl.
  split; [by eexists |].
  intros vm' ns n v Hf' Hv Hns Hn Hl1' Hl2'. simpl in Hf', Hv.
  rewrite Hfind' in Hf'. injection Hf' as <-. simpl.
  rewrite Hvp, Hvr in Hv.
  destruct (Hsweep ns n v eq_refl Hv) as (ref & Hin & Hkey).
  { apply hasLabels_managed. by rewrite Hname. }
  symmetry in Hkey. apply vpaKey_inj in Hkey as [Hrns Hrn]; [| done | done].
  destruct (Hrec) with (ref := ref) as (wl & Hwl & ->).
  - intros ns0 wc selector wl Hns0 Hwc Hsel Hwl Hkind Hnsn Hacc.
    exists wl. split; [| done].
    destruct (Hnss ns0 Hns0) as [Hstored Hnsacc].
    split; [done |]. split.
    + exists ns0. rewrite <- (steady_namespaces _ _ Hst1). by split.
    + by exists wc, selector.
  - rewrite (steady_workloads _ _ Hst2). apply (steady_workloads _ _ Hst1).
  - intros ref0 H0. by apply elem_of_nil in H0.
  - done.
  - exists wl. split; [| by split].
    eapply matchesNow_same; [| | exact Hwl]; simpl; done.
Qed.

(** C4, as the specification words it, fails: the delete of the only orphan
    is refused, [Reconcile] logs the failure of the sweep and still ends
    without error, and the orphan is there afterwards. *)
Lemma reconcile_leaves_orphan :
  (clientGetVpaManager "test-vpamanager" orphanWorld).1 = inr (testManager true) /\
  Enabled (Spec (testManager true)) = true /\
  (Reconcile defaultReconciler "test-vpamanager" 7%Z orphanWorld).1.2 = None /\
  ~ noOrphansLeft defaultReconciler "test-vpamanager"
      (Reconcile defaultReconciler "test-vpamanager" 7%Z orphanWorld).2.
Proof.
  split; [vm_compute; reflexivity |]. split; [reflexivity |].
  split; [vm_compute; reflexivity |].
  intros H.
  assert (Hf : findVpaManager "test-vpamanager"
                 (vpaManagers (Reconcile defaultReconciler "test-vpamanager" 7%Z orphanWorld).2)
               = Some (statusUpdateOf (testManager true) [] 7%Z)).
  { vm_compute. reflexivity. }
  assert (Hv : vpas (Reconcile defaultReconciler "test-vpamanager" 7%Z orphanWorld).2
                 !! ("test-ns", "deleted-deployment-vpa")
               = Some (createUnstructuredVPA "deleted-deployment-vpa" "test-ns"
                         "deleted-deployment")).
  { vm_compute. reflexivity. }
  destruct (H _ _ _ _ Hf Hv) as (wl & (Hin & _) & _); try (vm_compute; reflexivity).
  assert (Hw : workloads (Reconcile defaultReconciler "test-vpamanager" 7%Z orphanWorld).2 = [])
    by (vm_compute; reflexivity).
  rewrite Hw in Hin. by apply elem_of_nil in Hin.
Qed.

(** C4, as the code has it.  After a reconcile that read an enabled manager,
    ended without error and logged no failure of the sweep, every VPA that
    carries both labels of the manager is the VPA [<name>-vpa] of a
    workload of the cluster that matches the manager now: all others were
    deleted.  A delete answered not-found counts as done, and the sweep
    never removes a VPA that lacks one of the two labels. *)
Theorem Reconcile_sweeps_orphans (r : VpaManagerReconciler) (name : string) (now : Z)
    (w : World) (vm : VpaManager) :
  let out := Reconcile r name now w in
  (clientGetVpaManager name w).1 = inr vm ->
  Enabled (Spec vm) = true ->
  out.1.2 = None ->
  (forall e, cleanupFailure e ∉ drop (length (logs w)) (logs out.2)) ->
  (exists vm', findVpaManager name (vpaManagers out.2) = Some vm') /\
  noOrphansLeft r name out.2 /\
  (forall cur w0,
     faults w0 (length (calls w0)) = None ->
     (forall i, IsNotFound (faults w0 i) = true \/ faults w0 i = None) ->
     (cleanupOrphanedVPAs vm cur w0).1 =
       (length (orphansOf (currentVPAsOf cur) (sweepCandidates vm w0)), None)) /\
  (forall cur w0 key v,
     vpas w0 !! key = Some v ->
     hasLabels (managedLabels vm) (uLabels v) = false ->
     vpas (cleanupOrphanedVPAs vm cur w0).2 !! key = Some v).
Proof.
  intros out Hget Hen Hok Hlog.
  destruct (Reconcile_sweep_complete r name now w vm Hget Hen Hok Hlog) as [Hex Hno].
  split; [done |]. split; [done |]. split.
  - intros cur w0. apply cleanupOrphanedVPAs_benign.
  - intros cur w0 key v. apply cleanupOrphanedVPAs_frame.
Qed.

Lemma Reconcile_sweeps_orphans_witness :
  (clientGetVpaManager "test-vpamanager" staleOrphanWorld).1 = inr (testManager true) /\
  Enabled (Spec (testManager true)) = true /\
  (Reconcile defaultReconciler "test-vpamanager" 7%Z staleOrphanWorld).1.2 = None /\
  noOrphansLeft defaultReconciler "test-vpamanager"
    (Reconcile defaultReconciler "test-vpamanager" 7%Z staleOrphanWorld).2.
Proof.
  split; [vm_compute; reflexivity |]. split; [reflexivity |].
  split; [vm_compute; reflexivity |].
  apply (Reconcile_sweeps_orphans defaultReconciler "test-vpamanager" 7%Z staleOrphanWorld
           (testManager true)); try (vm_compute; reflexivity).
  intros e H. vm_compute in H.
  repeat (apply elem_of_cons in H as [H | H]; [discriminate H |]).
  by apply elem_of_nil in H.
Defined.
